(** * Streaming agent-run coordinator of the Seclai JavaScript client

    A shallow embedding of [src/client.ts]: the SSE frame parser
    ([createSseParser]), the abort coordinator ([anySignal]) and the
    streaming run controller ([Seclai.runStreamingAgentAndWait]),
    together with the properties the specification states about them. *)

From Stdlib Require Import Ascii String List ZArith Lia Bool.
From stdpp Require Import gmap strings.
Import ListNotations.

#[local] Arguments String.append !s1 s2 : simpl nomatch.

(** ** JavaScript string primitives used by the client

    Strings are sequences of code units; the parser only ever inspects the
    four characters line feed, carriage return, colon and space. *)
Module JsString.

Definition LF : ascii := "010"%char.
Definition CR : ascii := "013"%char.
Definition nl : string := String LF "".

(** [s.indexOf(c)] for a one-character needle; [None] stands for [-1]. *)
Fixpoint indexOf (c : ascii) (s : string) : option nat :=
  match s with
  | EmptyString => None
  | String a s' => if Ascii.eqb a c then Some 0 else option_map S (indexOf c s')
  end.

(** [s.slice(0, n)] for [0 <= n]. *)
Fixpoint slice_to (n : nat) (s : string) : string :=
  match n, s with
  | 0, _ => EmptyString
  | S _, EmptyString => EmptyString
  | S n', String a s' => String a (slice_to n' s')
  end.

(** [s.slice(n)] for [0 <= n]. *)
Fixpoint slice_from (n : nat) (s : string) : string :=
  match n, s with
  | 0, _ => s
  | S _, EmptyString => EmptyString
  | S n', String _ s' => slice_from n' s'
  end.

(** [s.endsWith(c)] for a one-character suffix. *)
Fixpoint endsWith (c : ascii) (s : string) : bool :=
  match s with
  | EmptyString => false
  | String a EmptyString => Ascii.eqb a c
  | String _ s' => endsWith c s'
  end.

(** [s.slice(0, -1)]. *)
Fixpoint drop_last (s : string) : string :=
  match s with
  | EmptyString => EmptyString
  | String _ EmptyString => EmptyString
  | String a s' => String a (drop_last s')
  end.

(** [s.startsWith(c)] for a one-character prefix. *)
Definition startsWith (c : ascii) (s : string) : bool :=
  match s with
  | EmptyString => false
  | String a _ => Ascii.eqb a c
  end.

(** [s.includes(needle)]. *)
Fixpoint includes (needle s : string) : bool :=
  String.prefix needle s ||
  match s with
  | EmptyString => false
  | String _ s' => includes needle s'
  end.

(** [parts.join(sep)]. *)
Fixpoint join (sep : string) (parts : list string) : string :=
  match parts with
  | [] => EmptyString
  | [x] => x
  | x :: rest => x +:+ sep +:+ join sep rest
  end.

(** JavaScript truthiness of a string: the empty string is falsy. *)
Definition nonempty (s : string) : bool :=
  match s with EmptyString => false | String _ _ => true end.

End JsString.
Import JsString.

(** ** SSE frame parser: [createSseParser] *)

(** [type SseMessage = { event?: string; data?: string }] *)
Record SseMessage := mkMsg { event : option string; data : string }.

Module Sse.
Section Parser.
(** The parser is created around a callback [onMessage]; the state the
    callback closes over is threaded explicitly as [sink]. *)
Context {T : Type} (onMessage : SseMessage -> T -> T).

Record Parser := mkParser {
  buffer : string;
  eventName : option string;
  dataLines : list string;
  sink : T
}.

Definition createSseParser (s0 : T) : Parser :=
  {| buffer := ""; eventName := None; dataLines := []; sink := s0 |}.

Definition set_buffer (b : string) (p : Parser) : Parser :=
  {| buffer := b; eventName := eventName p;
     dataLines := dataLines p; sink := sink p |}.

(** [!eventName]: true for [undefined] and for the empty string. *)
Definition not_eventName (e : option string) : bool :=
  match e with
  | None => true
  | Some s => negb (nonempty s)
  end.

Definition dispatch (p : Parser) : Parser :=
  if not_eventName (eventName p) && (length (dataLines p) =? 0)%nat then p
  else
    let msg := {| data := join nl (dataLines p); event := eventName p |} in
    {| buffer := buffer p;
       eventName := None;
       dataLines := [];
       sink := onMessage msg (sink p) |}.

(** One iteration of the [while (true)] loop of [feed], after the line
    has been cut off the front of the buffer. *)
Definition feed_line (line0 : string) (p : Parser) : Parser :=
  let line := if endsWith CR line0 then drop_last line0 else line0 in
  if (line =? "")%string then dispatch p
  else if startsWith ":" line then p
  else
    let colon := indexOf ":" line in
    let field := match colon with None => line | Some i => slice_to i line end in
    let value := match colon with None => "" | Some i => slice_from (i + 1) line end in
    let value := if startsWith " " value then slice_from 1 value else value in
    if (field =? "event")%string then
      {| buffer := buffer p; eventName := Some value;
         dataLines := dataLines p; sink := sink p |}
    else if (field =? "data")%string then
      {| buffer := buffer p; eventName := eventName p;
         dataLines := dataLines p ++ [value]; sink := sink p |}
    else p.

(** The [while (true)] loop of [feed]; every iteration that does not
    return shortens the buffer, so [fuel] above its length is enough. *)
Fixpoint feed_loop (fuel : nat) (p : Parser) : Parser :=
  match fuel with
  | 0 => p
  | S fuel' =>
      match indexOf LF (buffer p) with
      | None => p
      | Some newlineIdx =>
          let line := slice_to newlineIdx (buffer p) in
          let p' := set_buffer (slice_from (newlineIdx + 1) (buffer p)) p in
          feed_loop fuel' (feed_line line p')
      end
  end.

Definition feed (textChunk : string) (p : Parser) : Parser :=
  let p' := set_buffer (buffer p +:+ textChunk) p in
  feed_loop (S (String.length (buffer p'))) p'.

(** [end: dispatch] *)
Definition end_ (p : Parser) : Parser := dispatch p.

(** Feeding a sequence of chunks in order. *)
Definition feed_all (chunks : list string) (p : Parser) : Parser :=
  fold_left (fun q c => feed c q) chunks p.

End Parser.

Arguments Parser : clear implicits.

(** The parser whose callback records every message it is handed. *)
Definition record_msg (m : SseMessage) (log : list SseMessage) : list SseMessage :=
  log ++ [m].

Definition fresh : Parser (list SseMessage) := createSseParser [].

(** What a callback has made of a sequence of messages. *)
Definition replay {T} (onMessage : SseMessage -> T -> T) (s0 : T)
    (log : list SseMessage) : T :=
  fold_left (fun s m => onMessage m s) log s0.

(** A parser around [onMessage] and the recording parser in step. *)
Definition sim {T} (onMessage : SseMessage -> T -> T) (s0 : T)
    (p : Parser T) (l : Parser (list SseMessage)) : Prop :=
  buffer p = buffer l /\ eventName p = eventName l /\
  dataLines p = dataLines l /\ sink p = replay onMessage s0 (sink l).

(** Messages handed to the callback while [chunks] are fed to a fresh
    parser. *)
Definition dispatched (chunks : list string) : list SseMessage :=
  sink (feed_all record_msg chunks fresh).

(** Messages handed to the callback by feeding [chunks] to a fresh parser
    and then calling [end()]. *)
Definition emitted (chunks : list string) : list SseMessage :=
  sink (end_ record_msg (feed_all record_msg chunks fresh)).

End Sse.




(** ** The wire grammar of section 4.1, line by line

    This is the line-level reading of the parser contract, written from
    the specification: the text is cut into complete lines, every line
    is classified, and a pending message is dispatched at blank lines. *)
Module SseSpec.

(** Complete lines of a text (without their line feed), and the
    unterminated remainder after the last line feed. *)
Fixpoint split_lines (s : string) : list string * string :=
  match s with
  | EmptyString => ([], EmptyString)
  | String a s' =>
      let '(ls, rest) := split_lines s' in
      if Ascii.eqb a LF then (EmptyString :: ls, rest)
      else match ls with
           | [] => ([], String a rest)
           | l :: ls' => (String a l :: ls', rest)
           end
  end.

Definition complete_lines (s : string) : list string := fst (split_lines s).
Definition trailing (s : string) : string := snd (split_lines s).

(** Text before the first [c], and the text after it when there is one. *)
Fixpoint cut (c : ascii) (s : string) : string * option string :=
  match s with
  | EmptyString => (EmptyString, None)
  | String a s' =>
      if Ascii.eqb a c then (EmptyString, Some s')
      else let '(f, v) := cut c s' in (String a f, v)
  end.

Inductive Line :=
| Blank
| Comment
| Field (name value : string).

Definition strip_cr (line : string) : string :=
  if endsWith CR line then drop_last line else line.

(** At most one leading space is removed from a field value. *)
Definition strip_space (v : string) : string :=
  match v with
  | String a v' => if Ascii.eqb a " " then v' else v
  | EmptyString => v
  end.

Definition classify (line : string) : Line :=
  match strip_cr line with
  | EmptyString => Blank
  | String a _ as l =>
      if Ascii.eqb a ":" then Comment
      else match cut ":" l with
           | (name, Some v) => Field name (strip_space v)
           | (name, None) => Field name EmptyString
           end
  end.

Record Pending := mkPending {
  pendingEvent : option string;
  pendingData : list string
}.

Definition nothing : Pending := {| pendingEvent := None; pendingData := [] |}.

(** The dispatch condition as the contract words it: an event name has
    been set, or at least one data line has been accumulated. *)
Definition guard_as_stated (pd : Pending) : bool :=
  match pendingEvent pd, pendingData pd with
  | None, [] => false
  | _, _ => true
  end.

(** The dispatch condition with an empty event name counted as unset. *)
Definition guard_nonempty_name (pd : Pending) : bool :=
  match pendingEvent pd, pendingData pd with
  | Some (String _ _), _ => true
  | _, _ :: _ => true
  | _, [] => false
  end.

Definition message_of (pd : Pending) : SseMessage :=
  {| event := pendingEvent pd; data := join nl (pendingData pd) |}.

Section Run.
Variable guard : Pending -> bool.

Definition flush (st : Pending * list SseMessage) : Pending * list SseMessage :=
  let '(pd, out) := st in
  if guard pd then (nothing, out ++ [message_of pd]) else st.

Definition step (st : Pending * list SseMessage) (line : string)
  : Pending * list SseMessage :=
  match classify line with
  | Blank => flush st
  | Comment => st
  | Field name value =>
      let '(pd, out) := st in
      if (name =? "event")%string then
        ({| pendingEvent := Some value; pendingData := pendingData pd |}, out)
      else if (name =? "data")%string then
        ({| pendingEvent := pendingEvent pd;
            pendingData := pendingData pd ++ [value] |}, out)
      else st
  end.

Definition run (lines : list string) : Pending * list SseMessage :=
  fold_left step lines (nothing, []).

(** Messages dispatched at the blank lines of [text]. *)
Definition messages (text : string) : list SseMessage :=
  snd (run (complete_lines text)).

(** Messages dispatched at the blank lines of [text], followed by the
    final dispatch of [end()]. *)
Definition messages_then_end (text : string) : list SseMessage :=
  snd (flush (run (complete_lines text))).
End Run.

(** What the line-level reading keeps of a parser state. *)
Definition abs (p : Sse.Parser (list SseMessage)) : Pending * list SseMessage :=
  ({| pendingEvent := Sse.eventName p; pendingData := Sse.dataLines p |},
   Sse.sink p).

End SseSpec.

(** ** Abort coordinator: [anySignal]

    [AbortController] and [AbortSignal] are platform objects.  A store
    maps the identity of a signal to its state; the identity of a
    controller is the identity of its signal.  The only listeners the
    client registers are [onAbort = () => controller.abort()], recorded
    as the signal of the controller they abort. *)
Module Abort.

Record AbortSignal := mkSignal {
  aborted : bool;
  listeners : list nat
}.

Abbreviation Store := (list AbortSignal).

(** [s.aborted] *)
Definition is_aborted (s : nat) (h : Store) : bool :=
  match h !! s with
  | Some sig => aborted sig
  | None => false
  end.

(** [new AbortController()]: the identity of the fresh signal and the
    extended store. *)
Definition newAbortController (h : Store) : nat * Store :=
  (length h, h ++ [ {| aborted := false; listeners := [] |} ]).

(** [s.addEventListener("abort", onAbort, { once: true })] where
    [onAbort] aborts the controller of signal [c]; registering the same
    callback twice on one target has no effect. *)
Definition addEventListener (s c : nat) (h : Store) : Store :=
  match h !! s with
  | Some sig =>
      if bool_decide (c ∈ listeners sig) then h
      else <[s := {| aborted := aborted sig; listeners := listeners sig ++ [c] |}]> h
  | None => h
  end.

(** A triggered signal: its [once] listeners are gone. *)
Definition mark : AbortSignal := {| aborted := true; listeners := [] |}.

(** [controller.abort()]: a signal is triggered at most once; its
    listeners then run in registration order, each running to
    completion (and possibly aborting further controllers) before the
    next.  Every nested call marks one more signal, so fuel above the
    number of signals is never used up. *)
Fixpoint abort_fuel (fuel : nat) (c : nat) (h : Store) : Store :=
  match fuel with
  | 0 => h
  | S fuel' =>
      match h !! c with
      | None => h
      | Some sig =>
          if aborted sig then h
          else
            fold_left (fun h' target => abort_fuel fuel' target h')
              (listeners sig)
              (<[c := mark]> h)
      end
  end.

Definition abort (c : nat) (h : Store) : Store :=
  abort_fuel (S (length h)) c h.

(** The [for (const s of present)] loop of [anySignal]. *)
Fixpoint link (c : nat) (present : list nat) (h : Store) : Store :=
  match present with
  | [] => h
  | s :: rest =>
      if is_aborted s h then abort c h
      else link c rest (addEventListener s c h)
  end.

(** [signals.filter(Boolean)] *)
Definition present_of (signals : list (option nat)) : list nat :=
  omap (fun s => s) signals.

Definition anySignal (signals : list (option nat)) (h : Store)
  : option nat * Store :=
  let present := present_of signals in
  match present with
  | [] => (None, h)
  | [s] => (Some s, h)
  | _ =>
      let '(c, h1) := newAbortController h in
      (Some c, link c present h1)
  end.

(** Number of signals not yet triggered. *)
Definition live (h : Store) : nat :=
  length (filter (fun sig => aborted sig = false) h).

(** [c] listens to [s]: it exists, and either it is triggered already
    or [s] is untriggered with [c] among its listeners. *)
Definition listens (c s : nat) (h : Store) : Prop :=
  c < length h /\
  (is_aborted c h = true \/
   exists sig, h !! s = Some sig /\ aborted sig = false /\ c ∈ listeners sig).




End Abort.

(** ** JSON values as the controller sees them

    Payloads are opaque to the client; it only tests their truthiness,
    reads their [status] property and compares it with a string.  A
    number is kept as an integer: only whether it is zero matters. *)
Module Json.

#[local] Unset Elimination Schemes.
Inductive json :=
| JNull
| JBool (b : bool)
| JNumber (n : Z)
| JString (s : string)
| JArray (items : list json)
| JObject (fields : list (string * json)).
#[local] Set Elimination Schemes.

(** JavaScript truthiness of a decoded value. *)
Definition truthy (v : json) : bool :=
  match v with
  | JNull => false
  | JBool b => b
  | JNumber n => negb (n =? 0)%Z
  | JString s => nonempty s
  | JArray _ => true
  | JObject _ => true
  end.

(** Truthiness of a variable that may still be [undefined]. *)
Definition truthy_opt (o : option json) : bool :=
  match o with
  | Some v => truthy v
  | None => false
  end.

Fixpoint lookup_field (key : string) (fields : list (string * json)) : option json :=
  match fields with
  | [] => None
  | (k, v) :: rest => if (k =? key)%string then Some v else lookup_field key rest
  end.

(** [(v as any)[key]] for a truthy [v]; [None] stands for [undefined].
    Only objects decoded from JSON carry own properties such as
    [status]. *)
Definition get (key : string) (v : json) : option json :=
  match v with
  | JObject fields => lookup_field key fields
  | _ => None
  end.

(** [x !== s] for a string literal [s]. *)
Definition differs_from (s : string) (x : option json) : bool :=
  match x with
  | Some (JString t) => negb (t =? s)%string
  | _ => true
  end.

End Json.
Import Json.

(** ** Errors of [src/errors.ts], and foreign rejections *)
Inductive Error :=
| SeclaiError (message : string)
| SeclaiConfigurationError (message : string)
| SeclaiAPIStatusError
    (message : string) (statusCode : Z) (method url : string)
    (responseText : option string)
| SeclaiAPIValidationError
    (message : string) (statusCode : Z) (method url : string)
    (responseText : option string) (validationError : option json)
| Rejected (reason : string).

(** ** Streaming run controller: [Seclai.runStreamingAgentAndWait] *)
Module Controller.

(** What one [reader.read()] settles with. *)
Inductive ReadResult :=
| Chunk (value : option string)
| Closed
| ReadFails (reason : string).

(** A [Response] as the transport produced it.  [text_clone] and
    [json_clone] are what [response.clone().text()] and
    [response.clone().json()] settle with, [json_body] what
    [response.json()] settles with (on the left the reason of a
    rejection), and [body] is [null] or the results of the successive
    reads of its reader, the bytes of each chunk given as the text the
    stream decoder yields for them. *)
Record Response := mkResponse {
  status : Z;
  content_type : option string;
  text_clone : string + string;
  json_clone : string + json;
  json_body : string + json;
  body : option (list ReadResult)
}.

(** [response.ok] *)
Definition ok (r : Response) : bool :=
  (200 <=? status r)%Z && (status r <=? 299)%Z.

(** The environment of one call: what the fetcher settles with, and
    the await (counted from 0) during which the timeout timer runs its
    callback, if it does so before the call is over. *)
Record World := mkWorld {
  fetch_result : string + Response;
  timer_fires_at : option nat
}.

Record Request := mkRequest {
  req_url : string;
  req_method : string;
  req_headers : gmap string string;
  req_body : string;
  req_signal : option nat
}.

(** Mutable state one call works on. *)
Record State := mkState {
  store : Abort.Store;
  timedOut : bool;
  timerArmed : bool;
  awaits : nat;
  reads : nat;
  sent : list Request
}.

(** The client object. *)
Record Seclai := mkSeclai {
  apiKey : string;
  baseUrl : string;
  apiKeyHeader : string;
  defaultHeaders : gmap string string
}.

Record Options := mkOptions {
  timeoutMs : option Z;
  signal : option nat
}.

(** Computations that may throw and that work on [State]. *)
Definition M (A : Type) : Type := State -> (Error + A) * State.

Definition ret {A} (a : A) : M A := fun st => (inr a, st).
Definition throw {A} (e : Error) : M A := fun st => (inl e, st).
Definition bind {A B} (m : M A) (k : A -> M B) : M B :=
  fun st =>
    match m st with
    | (inr a, st') => k a st'
    | (inl e, st') => (inl e, st')
    end.

Declare Scope ctl_scope.
Delimit Scope ctl_scope with ctl.
Notation "x <- m ;; k" := (bind m (fun x => k))
  (at level 100, m at next level, right associativity) : ctl_scope.
Local Open Scope ctl_scope.

(** The pair of variables [final] and [lastSeen] the parser callback
    closes over. *)
Record Seen := mkSeen {
  final : option json;
  lastSeen : option json
}.

(** [safeText] and [safeJson]: a rejection becomes [undefined]. *)
Definition safe {A} (settled : string + A) : option A :=
  match settled with
  | inr a => Some a
  | inl _ => None
  end.

Definition is_event (name : string) (msg : SseMessage) : bool :=
  match event msg with
  | Some e => (e =? name)%string
  | None => false
  end.

Definition stream_ended : Error :=
  SeclaiError "Stream ended before receiving a 'done' event.".

Definition no_stream_body : Error :=
  SeclaiConfigurationError
    "Streaming response body is not available in this environment. Provide a fetch implementation that supports ReadableStream bodies.".

(** Lines 378-383: the resolution once reading is over. *)
Definition resolve (seen : Seen) : Error + json :=
  if truthy_opt (final seen) then
    match final seen with Some v => inr v | None => inl stream_ended end
  else
    match lastSeen seen with
    | Some v =>
        if truthy v && truthy_opt (get "status" v)
           && differs_from "pending" (get "status" v)
        then inr v
        else inl stream_ended
    | None => inl stream_ended
    end.

(** A script of reads that deliver the given texts, one per chunk. *)
Definition chunks (texts : list string) : list ReadResult :=
  map (fun t => Chunk (Some t)) texts.

(** The stream is closed after the reads before [tail]. *)
Definition closes (tail : list ReadResult) : Prop :=
  match tail with
  | [] => True
  | Closed :: _ => True
  | _ => False
  end.

(** The fallback condition with its truthiness tests. *)
Definition acceptable (v : json) : bool :=
  truthy v && truthy_opt (get "status" v)
  && differs_from "pending" (get "status" v).

(** The fallback condition read as: the status field is present and
    not equal to the pending sentinel. *)
Definition acceptable_as_stated (v : json) : bool :=
  match get "status" v with
  | Some s => differs_from "pending" (Some s)
  | None => false
  end.

Definition no_payload : Seen := {| final := None; lastSeen := None |}.

Section Platform.
(** Platform functions the controller calls: [JSON.parse] ([None]
    when it throws), [JSON.stringify], the conversion of a number in
    a template literal, and [new URL(path, base).toString()] for a
    URL that can be built.  The method from its first line, where
    [new URL] may throw, is [Streaming.runStreamingAgentAndWait]. *)
Variable JSON_parse : string -> option json.
Variable JSON_stringify : json -> string.
Variable Number_toString : Z -> string.
Variable URL_href : string -> string -> string.

(** The timer callback: [timedOut = true; timeoutController.abort()]. *)
Definition fire (timeoutSignal : nat) (st : State) : State :=
  {| store := Abort.abort timeoutSignal (store st);
     timedOut := true;
     timerArmed := false;
     awaits := awaits st;
     reads := reads st;
     sent := sent st |}.

(** Suspension at an [await]: a timer that is due runs its callback
    before the awaited promise settles. *)
Definition suspend (w : World) (timeoutSignal : nat) (st : State) : State :=
  let st' :=
    if timerArmed st && bool_decide (timer_fires_at w = Some (awaits st))
    then fire timeoutSignal st else st in
  {| store := store st'; timedOut := timedOut st';
     timerArmed := timerArmed st'; awaits := S (awaits st');
     reads := reads st'; sent := sent st' |}.

Definition await {A} (w : World) (timeoutSignal : nat) (settled : string + A)
  : M A :=
  fun st =>
    (match settled with
     | inr a => inr a
     | inl reason => inl (Rejected reason)
     end,
     suspend w timeoutSignal st).

Definition count_read : M unit :=
  fun st =>
    (inr tt,
     {| store := store st; timedOut := timedOut st;
        timerArmed := timerArmed st; awaits := awaits st;
        reads := S (reads st); sent := sent st |}).

Definition send (r : Request) : M unit :=
  fun st =>
    (inr tt,
     {| store := store st; timedOut := timedOut st;
        timerArmed := timerArmed st; awaits := awaits st;
        reads := reads st; sent := sent st ++ [r] |}).

(** [clearTimeout(timeoutId)] *)
Definition clearTimeout (st : State) : State :=
  {| store := store st; timedOut := timedOut st;
     timerArmed := false; awaits := awaits st;
     reads := reads st; sent := sent st |}.

(** The callback handed to [createSseParser]. *)
Definition onMessage (msg : SseMessage) (seen : Seen) : Seen :=
  if negb (nonempty (data msg)) then seen
  else if is_event "init" msg || is_event "done" msg then
    match JSON_parse (data msg) with
    | Some parsed =>
        {| lastSeen := Some parsed;
           final := if is_event "done" msg then Some parsed else final seen |}
    | None => seen
    end
  else seen.

(** The payload a message contributes as [lastSeen], if any. *)
Definition decoded (msg : SseMessage) : option json :=
  if nonempty (data msg) && (is_event "init" msg || is_event "done" msg)
  then JSON_parse (data msg) else None.

(** The payload a message contributes as [final], if any. *)
Definition done_payload (msg : SseMessage) : option json :=
  if is_event "done" msg then decoded msg else None.

(** The [while (!final)] loop over the reads of the body; a reader
    whose script is used up reports the stream as closed. *)
Fixpoint read_loop (w : World) (timeoutSignal : nat)
    (script : list ReadResult) (parser : Sse.Parser Seen)
  : M (Sse.Parser Seen) :=
  if truthy_opt (final (Sse.sink parser)) then ret parser
  else
    _ <- count_read ;;
    match script with
    | [] =>
        _ <- await w timeoutSignal (inr tt) ;;
        ret parser
    | r :: rest =>
        match r with
        | ReadFails reason => await w timeoutSignal (inl reason)
        | Closed =>
            _ <- await w timeoutSignal (inr tt) ;;
            ret parser
        | Chunk value =>
            _ <- await w timeoutSignal (inr tt) ;;
            match value with
            | Some text =>
                read_loop w timeoutSignal rest (Sse.feed onMessage text parser)
            | None => read_loop w timeoutSignal rest parser
            end
        end
    end.

(** One round of [reader.read()] and its [await], and [n] of them. *)
Definition read_await (w : World) (timeoutSignal : nat) (st : State) : State :=
  suspend w timeoutSignal (snd (count_read st)).

Fixpoint after_reads (w : World) (timeoutSignal : nat) (n : nat) (st : State)
  : State :=
  match n with
  | 0 => st
  | S n' => after_reads w timeoutSignal n' (read_await w timeoutSignal st)
  end.

(** No truthy payload is in [final] before any of the chunks but the
    last has been fed. *)
Definition quiet (p : Sse.Parser Seen) (texts : list string) : Prop :=
  forall pre post, texts = pre ++ post -> post <> [] ->
    truthy_opt (final (Sse.sink (Sse.feed_all onMessage pre p))) = false.

Definition stream_path (agentId : string) : string :=
  "/agents/" +:+ agentId +:+ "/runs/stream".

Definition request_url (client : Seclai) (agentId : string) : string :=
  URL_href (stream_path agentId) (baseUrl client).

Definition request_headers (client : Seclai) : gmap string string :=
  <["content-type" := "application/json"]>
    (<["accept" := "text/event-stream"]>
       (<[apiKeyHeader client := apiKey client]> (defaultHeaders client))).

(** The request of the call, and the state once it is handed to the
    fetcher. *)
Definition request_of (client : Seclai) (agentId : string) (body : json)
    (signal : option nat) : Request :=
  {| req_url := request_url client agentId;
     req_method := "POST";
     req_headers := request_headers client;
     req_body := JSON_stringify body;
     req_signal := signal |}.

Definition sending (client : Seclai) (agentId : string) (body : json)
    (signal : option nat) (st : State) : State :=
  snd (send (request_of client agentId body signal) st).

(** The error of the non-success branch, lines 314-334. *)
Definition status_failure (client : Seclai) (agentId : string)
    (response : Response) : Error :=
  let url := request_url client agentId in
  if (status response =? 422)%Z then
    SeclaiAPIValidationError "Validation error" (status response) "POST" url
      (safe (text_clone response)) (safe (json_clone response))
  else
    SeclaiAPIStatusError
      ("Request failed with status " +:+ Number_toString (status response))
      (status response) "POST" url (safe (text_clone response)).

(** The [try] block, lines 301-383. *)
Definition attempt (client : Seclai) (w : World) (agentId : string)
    (body : json) (timeoutSignal : nat) (signal : option nat) : M json :=
  let url := request_url client agentId in
  _ <- send (request_of client agentId body signal) ;;
  response <- await w timeoutSignal (fetch_result w) ;;
  let contentType := default "" (content_type response) in
  let isJson := includes "application/json" contentType in
  if negb (ok response) then
    responseText <- await w timeoutSignal (inr (safe (text_clone response))) ;;
    if (status response =? 422)%Z then
      validation <- await w timeoutSignal (inr (safe (json_clone response))) ;;
      throw (SeclaiAPIValidationError "Validation error" (status response)
               "POST" url responseText validation)
    else
      throw (SeclaiAPIStatusError
               ("Request failed with status " +:+ Number_toString (status response))
               (status response) "POST" url responseText)
  else if isJson then
    await w timeoutSignal (json_body response)
  else
    match Controller.body response with
    | None => throw no_stream_body
    | Some script =>
        parser <- read_loop w timeoutSignal script
                    (Sse.createSseParser no_payload) ;;
        let parser := Sse.end_ onMessage parser in
        fun st => (resolve (Sse.sink parser), st)
    end.

Definition timeout_budget (opts : option Options) : Z :=
  match opts with
  | Some o => default 60000%Z (timeoutMs o)
  | None => 60000%Z
  end.

Definition timed_out (ms : Z) : Error :=
  SeclaiError ("Timed out after " +:+ Number_toString ms
               +:+ "ms waiting for streaming agent run to complete.").

(** State of the call when the [try] block is entered: the timeout
    controller is created, the timer is armed and the caller's signal
    is combined with the controller's. *)
Definition prepare (opts : option Options) (h : Abort.Store)
  : nat * option nat * State :=
  let '(timeoutSignal, h1) := Abort.newAbortController h in
  let '(signal, h2) :=
    Abort.anySignal [opts ≫= Controller.signal; Some timeoutSignal] h1 in
  (timeoutSignal, signal,
   {| store := h2; timedOut := false; timerArmed := true;
      awaits := 0; reads := 0; sent := [] |}).

(** The [try] block run from the prepared state. *)
Definition attempted (client : Seclai) (w : World) (agentId : string)
    (body : json) (opts : option Options) (h : Abort.Store)
  : (Error + json) * State :=
  let '(timeoutSignal, signal, st) := prepare opts h in
  attempt client w agentId body timeoutSignal signal st.

(** The method once its URL is built (lines 284-391): [try],
    [catch] and [finally]. *)
Definition runStreamingAgentAndWait (client : Seclai) (w : World)
    (agentId : string) (body : json) (opts : option Options)
    (h : Abort.Store) : (Error + json) * State :=
  match attempted client w agentId body opts h with
  | (inr v, st) => (inr v, clearTimeout st)
  | (inl err, st) =>
      if timedOut st
      then (inl (timed_out (timeout_budget opts)), clearTimeout st)
      else (inl err, clearTimeout st)
  end.

End Platform.

(** The timeout flag is up exactly if the timer has run, and the timer
    is pending exactly if it has not. *)
Definition timer_inv (w : World) (st : State) : Prop :=
  (timedOut st = true <-> exists n, timer_fires_at w = Some n /\ n < awaits st)
  /\ timerArmed st = negb (timedOut st).

(** The signal handed to the fetcher follows the timeout controller,
    which is triggered once the flag is up. *)
Definition wired (timeoutSignal : nat) (signal : option nat) (st : State) : Prop :=
  timeoutSignal < length (store st)
  /\ (signal = Some timeoutSignal
      \/ exists c, signal = Some c /\ Abort.listens c timeoutSignal (store st))
  /\ (timedOut st = true -> Abort.is_aborted timeoutSignal (store st) = true).

(** Errors the [try] block can end with. *)
Definition arises (e : Error) : Prop :=
  match e with
  | SeclaiError _ => e = stream_ended
  | _ => True
  end.

End Controller.

(** ** A concrete platform for worked examples

    A reader and a printer for the fragment of JSON the examples use:
    objects, arrays, strings without escapes, integers without fraction
    or exponent, [true], [false] and [null].  Texts outside the fragment
    are not decoded. *)
Module Platform.

Definition is_ws (a : ascii) : bool :=
  Ascii.eqb a " " || Ascii.eqb a "009" || Ascii.eqb a LF || Ascii.eqb a CR.

Definition is_digit (a : ascii) : bool :=
  (48 <=? nat_of_ascii a)%nat && (nat_of_ascii a <=? 57)%nat.

Definition digit_value (a : ascii) : Z := Z.of_nat (nat_of_ascii a) - 48.

Definition quote : ascii := "034"%char.
Definition backslash : ascii := "092"%char.

Fixpoint skip_ws (s : string) : string :=
  match s with
  | String a s' => if is_ws a then skip_ws s' else s
  | EmptyString => s
  end.

(** Characters of a string literal up to its closing quote. *)
Fixpoint read_string (s : string) : option (string * string) :=
  match s with
  | EmptyString => None
  | String a s' =>
      if Ascii.eqb a quote then Some (EmptyString, s')
      else if Ascii.eqb a backslash || (nat_of_ascii a <? 32)%nat then None
      else match read_string s' with
           | Some (t, rest) => Some (String a t, rest)
           | None => None
           end
  end.

Fixpoint read_digits (acc : Z) (s : string) : Z * string :=
  match s with
  | String a s' =>
      if is_digit a then read_digits (10 * acc + digit_value a) s' else (acc, s)
  | EmptyString => (acc, s)
  end.

(** An integer literal: no leading zero, no fraction, no exponent. *)
Definition read_int (s : string) : option (Z * string) :=
  match s with
  | String a s' =>
      if is_digit a then
        let '(n, rest) := read_digits 0 s in
        let leading_zero :=
          Ascii.eqb a "0" && match s' with String b _ => is_digit b | _ => false end in
        let continues :=
          match rest with
          | String b _ => Ascii.eqb b "." || Ascii.eqb b "e" || Ascii.eqb b "E"
          | EmptyString => false
          end in
        if leading_zero || continues then None else Some (n, rest)
      else None
  | EmptyString => None
  end.

(** An object keeps one entry per key, with the value read last. *)
Fixpoint set_field (k : string) (v : json) (fields : list (string * json))
  : list (string * json) :=
  match fields with
  | [] => [(k, v)]
  | (k', v') :: rest =>
      if (k' =? k)%string then (k', v) :: rest
      else (k', v') :: set_field k v rest
  end.

Fixpoint read_value (fuel : nat) (s : string) : option (json * string) :=
  match fuel with
  | 0 => None
  | S fuel' =>
      match skip_ws s with
      | EmptyString => None
      | String a rest as t =>
          if Ascii.eqb a "{" then
            match skip_ws rest with
            | String b rest' =>
                if Ascii.eqb b "}" then Some (JObject [], rest')
                else read_members fuel' (String b rest') []
            | EmptyString => None
            end
          else if Ascii.eqb a "[" then
            match skip_ws rest with
            | String b rest' =>
                if Ascii.eqb b "]" then Some (JArray [], rest')
                else read_items fuel' (String b rest') []
            | EmptyString => None
            end
          else if Ascii.eqb a quote then
            match read_string rest with
            | Some (str, rest') => Some (JString str, rest')
            | None => None
            end
          else if String.prefix "true" t then Some (JBool true, slice_from 4 t)
          else if String.prefix "false" t then Some (JBool false, slice_from 5 t)
          else if String.prefix "null" t then Some (JNull, slice_from 4 t)
          else if Ascii.eqb a "-" then
            match read_int rest with
            | Some (n, rest') => Some (JNumber (- n), rest')
            | None => None
            end
          else
            match read_int t with
            | Some (n, rest') => Some (JNumber n, rest')
            | None => None
            end
      end
  end
with read_items (fuel : nat) (s : string) (acc : list json)
  : option (json * string) :=
  match fuel with
  | 0 => None
  | S fuel' =>
      match read_value fuel' s with
      | Some (v, rest) =>
          match skip_ws rest with
          | String a rest' =>
              if Ascii.eqb a "," then read_items fuel' rest' (acc ++ [v])
              else if Ascii.eqb a "]" then Some (JArray (acc ++ [v]), rest')
              else None
          | EmptyString => None
          end
      | None => None
      end
  end
with read_members (fuel : nat) (s : string) (acc : list (string * json))
  : option (json * string) :=
  match fuel with
  | 0 => None
  | S fuel' =>
      match skip_ws s with
      | String a rest =>
          if Ascii.eqb a quote then
            match read_string rest with
            | Some (key, rest1) =>
                match skip_ws rest1 with
                | String b rest2 =>
                    if Ascii.eqb b ":" then
                      match read_value fuel' rest2 with
                      | Some (v, rest3) =>
                          match skip_ws rest3 with
                          | String c rest4 =>
                              if Ascii.eqb c "," then
                                read_members fuel' rest4 (set_field key v acc)
                              else if Ascii.eqb c "}" then
                                Some (JObject (set_field key v acc), rest4)
                              else None
                          | EmptyString => None
                          end
                      | None => None
                      end
                    else None
                | EmptyString => None
                end
            | None => None
            end
          else None
      | EmptyString => None
      end
  end.

(** [JSON.parse] on the fragment; [None] when it throws. *)
Definition JSON_parse (text : string) : option json :=
  match read_value (2 * String.length text + 2) text with
  | Some (v, rest) =>
      match skip_ws rest with
      | EmptyString => Some v
      | String _ _ => None
      end
  | None => None
  end.

(** Decimal digits of a natural number, least significant first
    accumulated in front. *)
Fixpoint digits (fuel : nat) (n : N) (acc : string) : string :=
  match fuel with
  | 0 => acc
  | S fuel' =>
      let d := ascii_of_N (48 + n mod 10)%N in
      if (n <? 10)%N then String d acc
      else digits fuel' (n / 10)%N (String d acc)
  end.

(** Conversion of an integer in a template literal. *)
Definition Number_toString (z : Z) : string :=
  let n := Z.to_N (Z.abs z) in
  let ds := digits (S (N.to_nat (N.log2 n))) n EmptyString in
  if (z <? 0)%Z then String "-" ds else ds.

Definition quoted (s : string) : string :=
  String quote s +:+ String quote EmptyString.

(** [JSON.stringify] on the fragment. *)
Fixpoint JSON_stringify (v : json) : string :=
  match v with
  | JNull => "null"
  | JBool true => "true"
  | JBool false => "false"
  | JNumber n => Number_toString n
  | JString s => quoted s
  | JArray items =>
      "[" +:+ join "," (map JSON_stringify items) +:+ "]"
  | JObject fields =>
      "{" +:+ join ","
                (map (fun kv => quoted (fst kv) +:+ ":" +:+ JSON_stringify (snd kv))
                     fields)
      +:+ "}"
  end.

(** [new URL(path, base).toString()] for an absolute [path] and a
    [base] that is an origin without a trailing slash. *)
Definition URL_href (path base : string) : string := base +:+ path.

End Platform.

(** ** Worked scenarios: one client, one request, scripted responses *)
Module Scenario.
Import Controller.

Definition client : Seclai :=
  {| apiKey := "k";
     baseUrl := "https://example.invalid";
     apiKeyHeader := "x-api-key";
     defaultHeaders := ∅ |}.

Definition input : json := JObject [("input", JString "hello")].

(** A successful event-stream response with the given reads. *)
Definition sse_response (script : list ReadResult) : Response :=
  {| status := 200;
     content_type := Some "text/event-stream";
     text_clone := inl "body is a stream";
     json_clone := inl "body is a stream";
     json_body := inl "body is not JSON";
     body := Some script |}.

(** A response with a buffered body of the given status and type. *)
Definition plain_response (code : Z) (type : string)
    (text : string + string) (decoded : string + json) : Response :=
  {| status := code;
     content_type := Some type;
     text_clone := text;
     json_clone := decoded;
     json_body := decoded;
     body := Some [] |}.

Definition completed : json :=
  JObject [("run_id", JString "run_123"); ("status", JString "completed")].

Definition pending : json :=
  JObject [("run_id", JString "run_123"); ("status", JString "pending")].

Definition blank_status : json :=
  JObject [("run_id", JString "run_123"); ("status", JString "")].

Definition first_done : json :=
  JObject [("status", JString "completed"); ("output", JString "first")].

Definition second_done : json :=
  JObject [("status", JString "completed"); ("output", JString "second")].

Definition wire (v : json) : string := Platform.JSON_stringify v.

Definition answers (r : Response) (timer : option nat) : World :=
  {| fetch_result := inr r; timer_fires_at := timer |}.

(** An SSE message on the wire. *)
Definition frame (name : string) (payload : string) : string :=
  "event: " +:+ name +:+ nl +:+ "data: " +:+ payload +:+ nl +:+ nl.

Definition run (w : World) (opts : option Options) : (Error + json) * State :=
  runStreamingAgentAndWait Platform.JSON_parse Platform.JSON_stringify
    Platform.Number_toString Platform.URL_href client w "ag_123" input opts [].

End Scenario.

(** ** Generic request executor and resource methods: [Seclai.request] and
    the methods built on it *)
Module Executor.

(** A [URL] object as far as the client uses it: what [new URL(path,
    base)] holds apart from its query, and the list behind
    [url.searchParams]. *)
Record Url := mkUrl {
  location : string;
  searchParams : list (string * string)
}.

(** A query value; the client passes numbers, strings, [true], and
    [undefined] or [null] for a parameter to leave out. *)
Inductive Value :=
| VUndefined
| VNull
| VBool (b : bool)
| VNumber (n : Z)
| VString (s : string).

Definition absent (v : Value) : bool :=
  match v with
  | VUndefined | VNull => true
  | _ => false
  end.

(** [list.delete(name)] on the pairs of a parameter list or a form. *)
Definition delete_name {A} (name : string) (l : list (string * A))
  : list (string * A) :=
  filter (fun kv => fst kv <> name) l.

(** [searchParams.set(name, value)] and [form.set(name, value)]: the
    first pair of that name takes the value and the others go; with no
    such pair, one is appended. *)
Fixpoint set_name {A} (name : string) (value : A) (l : list (string * A))
  : list (string * A) :=
  match l with
  | [] => [(name, value)]
  | (k, v) :: rest =>
      if (k =? name)%string then (name, value) :: delete_name name rest
      else (k, v) :: set_name name value rest
  end.

(** [searchParams.get(name)]: the value of the first pair of that name. *)
Fixpoint get_name {A} (name : string) (l : list (string * A)) : option A :=
  match l with
  | [] => None
  | (k, v) :: rest => if (k =? name)%string then Some v else get_name name rest
  end.

(** Number of pairs of a name. *)
Definition count_name {A} (name : string) (l : list (string * A)) : nat :=
  length (filter (fun kv => fst kv = name) l).

(** The value of the last entry of a name that is neither [undefined]
    nor [null]. *)
Fixpoint last_present (name : string) (entries : list (string * Value))
  : option Value :=
  match entries with
  | [] => None
  | (k, v) :: rest =>
      match last_present name rest with
      | Some v' => Some v'
      | None => if (k =? name)%string && negb (absent v) then Some v else None
      end
  end.

(** A file handed to an upload method. *)
Inductive FileArg (Blob : Type) :=
| IsBlob (b : Blob)
| IsArrayBuffer (bytes : string)
| IsUint8Array (bytes : string).
Arguments IsBlob {Blob} b.
Arguments IsArrayBuffer {Blob} bytes.
Arguments IsUint8Array {Blob} bytes.

(** An entry of a [FormData]. *)
Inductive FormEntry (Blob : Type) :=
| FileEntry (b : Blob) (fileName : string)
| TextEntry (text : string).
Arguments FileEntry {Blob} b fileName.
Arguments TextEntry {Blob} text.

Inductive Body (Blob : Type) :=
| NoBody
| TextBody (text : string)
| FormBody (form : list (string * FormEntry Blob)).
Arguments NoBody {Blob}.
Arguments TextBody {Blob} text.
Arguments FormBody {Blob} form.

(** What the fetcher is called with. *)
Record Call (Blob : Type) := mkCall {
  call_method : string;
  call_url : Url;
  call_headers : gmap string string;
  call_body : Body Blob
}.
Arguments mkCall {Blob}.
Arguments call_method {Blob}.
Arguments call_url {Blob}.
Arguments call_headers {Blob}.
Arguments call_body {Blob}.

(** A [Response] as the transport produced it, with what each way of
    reading it settles with (on the left the reason of a rejection). *)
Record Reply := mkReply {
  status : Z;
  content_type : option string;
  text_clone : string + string;
  json_clone : string + json;
  has_body : bool;
  json_body : string + json;
  text_body : string + string
}.

(** [response.ok] *)
Definition ok (r : Reply) : bool :=
  (200 <=? status r)%Z && (status r <=? 299)%Z.

(** [Promise<unknown | string | null>] *)
Inductive Result :=
| RNull
| RJson (v : json)
| RText (s : string).

(** The [fetch]-compatible function of the client. *)
Definition FetchLike (Blob : Type) : Type := Call Blob -> string + Reply.

(** [export const SECLAI_API_URL] *)
Definition SECLAI_API_URL : string := "https://api.seclai.com".

(** [SeclaiOptions] *)
Record SeclaiOptions (Blob : Type) := mkSeclaiOptions {
  opt_apiKey : option string;
  opt_baseUrl : option string;
  opt_apiKeyHeader : option string;
  opt_defaultHeaders : option (gmap string string);
  opt_fetch : option (FetchLike Blob)
}.
Arguments opt_apiKey {Blob}.
Arguments opt_baseUrl {Blob}.
Arguments opt_apiKeyHeader {Blob}.
Arguments opt_defaultHeaders {Blob}.
Arguments opt_fetch {Blob}.

(** What the constructor finds in [globalThis]: [process.env] when
    there is one, and the global [fetch] when there is one. *)
Record Globals (Blob : Type) := mkGlobals {
  process_env : option (gmap string string);
  global_fetch : option (FetchLike Blob)
}.
Arguments process_env {Blob}.
Arguments global_fetch {Blob}.

(** [a ?? b] *)
Definition nullish {A} (a b : option A) : option A :=
  match a with
  | Some x => Some x
  | None => b
  end.

Definition getEnv {Blob} (g : Globals Blob) (name : string) : option string :=
  process_env g ≫= (fun env => env !! name).

Definition missing_api_key : Error :=
  SeclaiConfigurationError
    "Missing API key. Provide apiKey or set SECLAI_API_KEY.".

Definition missing_fetch : Error :=
  SeclaiConfigurationError
    "No fetch implementation available. Provide opts.fetch or run in an environment with global fetch.".

(** [new Seclai(opts)]: the client and its fetcher, or the error
    thrown. *)
Definition construct {Blob} (g : Globals Blob) (opts : SeclaiOptions Blob)
  : Error + (Controller.Seclai * FetchLike Blob) :=
  let apiKey := nullish (opt_apiKey opts) (getEnv g "SECLAI_API_KEY") in
  match apiKey with
  | None => inl missing_api_key
  | Some key =>
      if negb (nonempty key) then inl missing_api_key
      else
        match nullish (opt_fetch opts) (global_fetch g) with
        | None => inl missing_fetch
        | Some fetcher =>
            inr ({| Controller.apiKey := key;
                    Controller.baseUrl :=
                      default SECLAI_API_URL
                        (nullish (opt_baseUrl opts) (getEnv g "SECLAI_API_URL"));
                    Controller.apiKeyHeader :=
                      default "x-api-key" (opt_apiKeyHeader opts);
                    Controller.defaultHeaders :=
                      default ∅ (opt_defaultHeaders opts) |},
                 fetcher)
        end
  end.

(** Options of the paginated and ranged methods. *)
Record PageOpts := mkPageOpts { page : option Z; limit : option Z }.
Record RangeOpts := mkRangeOpts { range_start : option Z; range_end : option Z }.
Record StepOpts := mkStepOpts { includeStepOutputs : option bool }.

(** [accountId?: string | null]: not given, [null], or a string. *)
Record SourceOpts := mkSourceOpts {
  src_page : option Z;
  src_limit : option Z;
  sort : option string;
  order : option string;
  accountId : option (option string)
}.

Record UploadOpts (Blob : Type) := mkUploadOpts {
  file : FileArg Blob;
  title : option string;
  metadata : option json;
  fileName : option string;
  mimeType : option string
}.
Arguments file {Blob}.
Arguments title {Blob}.
Arguments metadata {Blob}.
Arguments fileName {Blob}.
Arguments mimeType {Blob}.

Section Platform.
(** Platform: the type of blobs and [new Blob([bytes], options)],
    [JSON.stringify], the conversion of a number to a string,
    [new URL(path, base)] (on the left the reason it throws with)
    and [url.toString()]. *)
Variable Blob : Type.
Variable Blob_new : string -> option string -> Blob.
Variable JSON_stringify : json -> string.
Variable Number_toString : Z -> string.
Variable URL_new : string -> string -> string + Url.
Variable URL_toString : Url -> string.

(** [String(value)] for a value that is present. *)
Definition String_of (v : Value) : string :=
  match v with
  | VUndefined => "undefined"
  | VNull => "null"
  | VBool true => "true"
  | VBool false => "false"
  | VNumber n => Number_toString n
  | VString s => s
  end.

(** The [for] loop of [buildURL] over [Object.entries(query)]. *)
Definition set_entry (url : Url) (entry : string * Value) : Url :=
  if absent (snd entry) then url
  else {| location := location url;
          searchParams :=
            set_name (fst entry) (String_of (snd entry)) (searchParams url) |}.

Definition buildURL (baseUrl path : string)
    (query : option (list (string * Value))) : string + Url :=
  match URL_new path baseUrl with
  | inl reason => inl reason
  | inr url =>
      inr (match query with
           | Some entries => fold_left set_entry entries url
           | None => url
           end)
  end.

(** The headers of [request]: the default headers, then the headers
    of the call, then the API key; and a content type for a JSON
    body when none is set. *)
Definition call_headers_of (client : Controller.Seclai)
    (headers : option (gmap string string)) (json : option json)
  : gmap string string :=
  let merged :=
    <[Controller.apiKeyHeader client := Controller.apiKey client]>
      (default ∅ headers ∪ Controller.defaultHeaders client) in
  match json with
  | Some _ =>
      <["content-type" := default "application/json" (merged !! "content-type")]>
        merged
  | None => merged
  end.

(** The error thrown for a response that is not [ok]. *)
Definition failure (method : string) (url : Url) (r : Reply) : Error :=
  let responseText := Controller.safe (text_clone r) in
  if (status r =? 422)%Z then
    SeclaiAPIValidationError "Validation error" (status r) method
      (URL_toString url) responseText (Controller.safe (json_clone r))
  else
    SeclaiAPIStatusError
      ("Request failed with status " +:+ Number_toString (status r))
      (status r) method (URL_toString url) responseText.

Definition settled {A B} (f : A -> B) (s : string + A) : Error + B :=
  match s with
  | inr a => inr (f a)
  | inl reason => inl (Rejected reason)
  end.

(** The [init] of [request] with its URL. *)
Definition call_of (client : Controller.Seclai) (method : string) (url : Url)
    (json : option json) (headers : option (gmap string string)) : Call Blob :=
  {| call_method := method;
     call_url := url;
     call_headers := call_headers_of client headers json;
     call_body :=
       match json with
       | Some v => TextBody (JSON_stringify v)
       | None => NoBody
       end |}.

(** [request(method, path, opts)]: the outcome, and the calls made
    to the fetcher. *)
Definition request (client : Controller.Seclai) (fetcher : FetchLike Blob)
    (method path : string) (query : option (list (string * Value)))
    (json : option json) (headers : option (gmap string string))
  : (Error + Result) * list (Call Blob) :=
  match buildURL (Controller.baseUrl client) path query with
  | inl reason => (inl (Rejected reason), [])
  | inr url =>
      let call := call_of client method url json headers in
      (match fetcher call with
       | inl reason => inl (Rejected reason)
       | inr response =>
           if (status response =? 204)%Z then inr RNull
           else
             let contentType := default "" (content_type response) in
             let isJson := includes "application/json" contentType in
             if negb (ok response) then inl (failure method url response)
             else if negb (has_body response) then inr RNull
             else if isJson then settled RJson (json_body response)
             else settled RText (text_body response)
       end,
       [call])
  end.

Section Methods.
Variable client : Controller.Seclai.
Variable fetcher : FetchLike Blob.

Definition runAgent (agentId : string) (body : json) :=
  request client fetcher "POST" ("/agents/" +:+ agentId +:+ "/runs")
    None (Some body) None.

Definition listAgentRuns (agentId : string) (opts : PageOpts) :=
  request client fetcher "GET" ("/agents/" +:+ agentId +:+ "/runs")
    (Some [("page", VNumber (default 1%Z (page opts)));
           ("limit", VNumber (default 50%Z (limit opts)))])
    None None.

(** The implementation behind both signatures of [getAgentRun]:
    [arg2] is a run identifier, an options object or [undefined]. *)
Definition getAgentRun (arg1 : string) (arg2 : option (string + StepOpts))
    (arg3 : option StepOpts) :=
  let hasOldSignature :=
    match arg2 with Some (inl _) => true | _ => false end in
  let runId := match arg2 with Some (inl r) => r | _ => arg1 end in
  let opts :=
    if hasOldSignature then default (mkStepOpts None) arg3
    else match arg2 with
         | Some (inr o) => o
         | _ => mkStepOpts None
         end in
  request client fetcher "GET" ("/agents/runs/" +:+ runId)
    (if default false (includeStepOutputs opts)
     then Some [("include_step_outputs", VBool true)] else None)
    None None.

Definition deleteAgentRun (arg1 : string) (arg2 : option string) :=
  let runId := default arg1 arg2 in
  request client fetcher "DELETE" ("/agents/runs/" +:+ runId) None None None.

Definition getContentDetail (version : string) (opts : RangeOpts) :=
  request client fetcher "GET" ("/contents/" +:+ version)
    (Some [("start", VNumber (default 0%Z (range_start opts)));
           ("end", VNumber (default 5000%Z (range_end opts)))])
    None None.

(** [deleteContent] awaits the request and returns nothing. *)
Definition deleteContent (version : string) : (Error + unit) * list (Call Blob) :=
  match request client fetcher "DELETE" ("/contents/" +:+ version)
          None None None with
  | (inr _, calls) => (inr tt, calls)
  | (inl e, calls) => (inl e, calls)
  end.

Definition listContentEmbeddings (version : string) (opts : PageOpts) :=
  request client fetcher "GET" ("/contents/" +:+ version +:+ "/embeddings")
    (Some [("page", VNumber (default 1%Z (page opts)));
           ("limit", VNumber (default 20%Z (limit opts)))])
    None None.

Definition listSources (opts : SourceOpts) :=
  request client fetcher "GET" "/sources/"
    (Some [("page", VNumber (default 1%Z (src_page opts)));
           ("limit", VNumber (default 20%Z (src_limit opts)));
           ("sort", VString (default "created_at" (sort opts)));
           ("order", VString (default "desc" (order opts)));
           ("account_id",
            match accountId opts with
            | Some (Some a) => VString a
            | _ => VUndefined
            end)])
    None None.

(** The blob of an upload: a [Blob] goes as it is; bytes are
    wrapped, with the MIME type when it is a non-empty string. *)
Definition blob_of (opts : UploadOpts Blob) : Blob :=
  let blobOpts :=
    match mimeType opts with
    | Some m => if nonempty m then Some m else None
    | None => None
    end in
  match file opts with
  | IsBlob b => b
  | IsArrayBuffer bytes => Blob_new bytes blobOpts
  | IsUint8Array bytes => Blob_new bytes blobOpts
  end.

Definition form_of (opts : UploadOpts Blob) : list (string * FormEntry Blob) :=
  let form := set_name "file" (FileEntry (blob_of opts)
                                 (default "upload" (fileName opts))) [] in
  let form :=
    match title opts with
    | Some t => set_name "title" (TextEntry t) form
    | None => form
    end in
  match metadata opts with
  | Some m => set_name "metadata" (TextEntry (JSON_stringify m)) form
  | None => form
  end.

Definition upload_call (url : Url) (opts : UploadOpts Blob) : Call Blob :=
  {| call_method := "POST";
     call_url := url;
     call_headers :=
       <[Controller.apiKeyHeader client := Controller.apiKey client]>
         (Controller.defaultHeaders client);
     call_body := FormBody (form_of opts) |}.

(** The body shared, line by line, by the two upload methods. *)
Definition upload (path : string) (opts : UploadOpts Blob)
  : (Error + json) * list (Call Blob) :=
  match buildURL (Controller.baseUrl client) path None with
  | inl reason => (inl (Rejected reason), [])
  | inr url =>
      let call := upload_call url opts in
      (match fetcher call with
       | inl reason => inl (Rejected reason)
       | inr response =>
           if negb (ok response) then inl (failure "POST" url response)
           else settled (fun v => v) (json_body response)
       end,
       [call])
  end.

Definition uploadFileToSource (sourceConnectionId : string)
    (opts : UploadOpts Blob) :=
  upload ("/sources/" +:+ sourceConnectionId +:+ "/upload") opts.

Definition uploadFileToContent (version : string) (opts : UploadOpts Blob) :=
  upload ("/contents/" +:+ version +:+ "/upload") opts.

End Methods.
End Platform.

End Executor.

(** ** The streaming call from its first line

    [Seclai.runStreamingAgentAndWait] with the construction of its URL
    (line 282), which comes before the timer is set and outside the
    [try]: what [new URL] throws reaches the caller as it is. *)
Module Streaming.
Import Controller.

(** The state of a call that never reaches its timer: nothing is
    sent, no timer is pending and the signals are as they were. *)
Definition idle (h : Abort.Store) : State :=
  {| store := h; timedOut := false; timerArmed := false;
     awaits := 0; reads := 0; sent := [] |}.

Section Platform.
Variable JSON_parse : string -> option json.
Variable JSON_stringify : json -> string.
Variable Number_toString : Z -> string.
Variable URL_new : string -> string -> string + Executor.Url.
Variable URL_toString : Executor.Url -> string.

(** [buildURL(this.baseUrl, `/agents/${agentId}/runs/stream`)] *)
Definition stream_url (client : Seclai) (agentId : string)
  : string + Executor.Url :=
  Executor.buildURL Number_toString URL_new (baseUrl client)
    ("/agents/" +:+ agentId +:+ "/runs/stream") None.

(** The [try] block, and the method after line 282, for the URL
    built. *)
Definition try_block (url : Executor.Url) :=
  Controller.attempted JSON_parse JSON_stringify Number_toString
    (fun _ _ => URL_toString url).

Definition after_url (url : Executor.Url) :=
  Controller.runStreamingAgentAndWait JSON_parse JSON_stringify
    Number_toString (fun _ _ => URL_toString url).

Definition runStreamingAgentAndWait (client : Seclai) (w : World)
    (agentId : string) (body : json) (opts : option Options)
    (h : Abort.Store) : (Error + json) * State :=
  match stream_url client agentId with
  | inl reason => (inl (Rejected reason), idle h)
  | inr url => after_url url client w agentId body opts h
  end.

End Platform.

End Streaming.

(** ** A concrete platform and client for the executor's examples *)
Module ExecutorScenario.
Import Executor.

(** A blob: its bytes and its type. *)
Definition Blob : Type := string * string.

(** [new Blob([bytes], options)] for a type that is already in lower
    case. *)
Definition Blob_new (bytes : string) (type : option string) : Blob :=
  (bytes, default "" type).

(** [new URL(path, base)] for an absolute [path] without a query and a
    [base] that is an origin without a trailing slash. *)
Definition URL_new (path base : string) : string + Url :=
  inr {| location := base +:+ path; searchParams := [] |}.

(** [url.toString()] for names and values that need no escaping. *)
Definition URL_toString (u : Url) : string :=
  match searchParams u with
  | [] => location u
  | params =>
      location u +:+ "?"
      +:+ join "&" (map (fun kv => fst kv +:+ "=" +:+ snd kv) params)
  end.

Definition client : Controller.Seclai :=
  {| Controller.apiKey := "k";
     Controller.baseUrl := "https://example.invalid";
     Controller.apiKeyHeader := "x-api-key";
     Controller.defaultHeaders := {[ "x-trace" := "on" ]} |}.

Definition reply (code : Z) (type : string) (text : string) (doc : string + json)
  : Reply :=
  {| status := code;
     content_type := Some type;
     text_clone := inr text;
     json_clone := doc;
     has_body := true;
     json_body := doc;
     text_body := inr text |}.

(** A fetcher that answers every call alike. *)
Definition always (r : Reply) : FetchLike Blob := fun _ => inr r.

Definition buildURL := Executor.buildURL Platform.Number_toString URL_new.

Definition request :=
  Executor.request Blob Platform.JSON_stringify Platform.Number_toString
    URL_new URL_toString.

Definition runAgent :=
  Executor.runAgent Blob Platform.JSON_stringify Platform.Number_toString
    URL_new URL_toString client.

Definition listAgentRuns :=
  Executor.listAgentRuns Blob Platform.JSON_stringify Platform.Number_toString
    URL_new URL_toString client.

Definition getAgentRun :=
  Executor.getAgentRun Blob Platform.JSON_stringify Platform.Number_toString
    URL_new URL_toString client.

Definition deleteAgentRun :=
  Executor.deleteAgentRun Blob Platform.JSON_stringify Platform.Number_toString
    URL_new URL_toString client.

Definition getContentDetail :=
  Executor.getContentDetail Blob Platform.JSON_stringify Platform.Number_toString
    URL_new URL_toString client.

Definition deleteContent :=
  Executor.deleteContent Blob Platform.JSON_stringify Platform.Number_toString
    URL_new URL_toString client.

Definition listContentEmbeddings :=
  Executor.listContentEmbeddings Blob Platform.JSON_stringify
    Platform.Number_toString URL_new URL_toString client.

Definition listSources :=
  Executor.listSources Blob Platform.JSON_stringify Platform.Number_toString
    URL_new URL_toString client.

Definition uploadFileToSource :=
  Executor.uploadFileToSource Blob Blob_new Platform.JSON_stringify
    Platform.Number_toString URL_new URL_toString client.

(** The URL of a path under the base URL of [client], with a query. *)
Definition at_path (path : string) (query : list (string * string)) : Url :=
  {| location := "https://example.invalid" +:+ path; searchParams := query |}.

Definition not_found : Reply :=
  reply 404 "text/plain" "missing" (inl "Unexpected token").

(** A 204 response: no body, nothing to decode. *)
Definition no_content : Reply :=
  {| status := 204;
     content_type := None;
     text_clone := inr "";
     json_clone := inl "Unexpected end of JSON input";
     has_body := false;
     json_body := inl "Unexpected end of JSON input";
     text_body := inr "" |}.

Definition document : UploadOpts Blob :=
  {| file := IsUint8Array "bytes";
     title := Some "Notes";
     metadata := None;
     fileName := None;
     mimeType := Some "text/plain" |}.

End ExecutorScenario.

(** ** The streaming call on the example client *)
Module StreamingScenario.
Import Controller.

(** [new URL(path, base)] for an absolute [path] without a query: it
    throws for a base without a scheme. *)
Definition URL_new (path base : string) : string + Executor.Url :=
  if String.prefix "https://" base
  then inr {| Executor.location := base +:+ path; Executor.searchParams := [] |}
  else inl "Invalid URL".

Definition run (client : Seclai) (w : World) (opts : option Options)
  : (Error + json) * State :=
  Streaming.runStreamingAgentAndWait Platform.JSON_parse Platform.JSON_stringify
    Platform.Number_toString URL_new ExecutorScenario.URL_toString
    client w "ag_123" Scenario.input opts [].


(** A 503 response whose body can be read. *)
Definition unavailable : Response :=
  Scenario.plain_response 503 "text/plain" (inr "unavailable") (inl "not JSON").

End StreamingScenario.

(** ** The version script, document by document:
    [scripts/set-version.mjs]

    The script works on two files, [package.json] and
    [.version-backup.json].  Here a file is given by the document
    [readJson] reads from it, [package.json] holding an object, and
    [writeJson] stores the document it is handed.  The script on the
    files themselves, which may be missing or hold text that is not
    JSON, is [SetVersionScript] below. *)
Module SetVersion.

Record Files := mkFiles {
  package_json : list (string * json);
  backup : option json
}.

Section Platform.
(** [String.prototype.trim] *)
Variable trim : string -> string.

(** [normalizeVersion(v)] for [v] a string or [undefined]. *)
Definition normalizeVersion (v : option string) : option string :=
  match v with
  | None => None
  | Some s =>
      let trimmed := trim s in
      if negb (nonempty trimmed) then None
      else Some (if startsWith "v" trimmed then slice_from 1 trimmed
                 else trimmed)
  end.

(** The version that [apply] writes, if it writes one: the
    normalized [VERSION] unless it is [undefined] or empty. *)
Definition effective (VERSION : option string) : option string :=
  match normalizeVersion VERSION with
  | Some v => if nonempty v then Some v else None
  | None => None
  end.

(** What [JSON.stringify] keeps of [{ version: pkg.version }]: a
    property that is [undefined] is left out. *)
Definition version_record (pkg : list (string * json)) : json :=
  JObject (match lookup_field "version" pkg with
           | Some v => [("version", v)]
           | None => []
           end).

(** The [apply] command, up to its [process.exit(0)]. *)
Definition apply (VERSION : option string) (fs : Files) : Files :=
  match normalizeVersion VERSION with
  | None => fs
  | Some envVersion =>
      if negb (nonempty envVersion) then fs
      else
        let pkg := package_json fs in
        {| backup :=
             match backup fs with
             | Some b => Some b
             | None => Some (version_record pkg)
             end;
           package_json :=
             Platform.set_field "version" (JString envVersion) pkg |}
  end.

(** The [restore] command on a backup that holds [b]; reading a
    property of [null] throws, before anything is written. *)
Definition restore_from (b : json) (fs : Files) : string + Files :=
  match b with
  | JNull => inl "TypeError"
  | _ =>
      inr {| package_json :=
               match get "version" b with
               | Some (JString s) =>
                   Platform.set_field "version" (JString s) (package_json fs)
               | _ => package_json fs
               end;
             backup := None |}
  end.

Definition restore (fs : Files) : string + Files :=
  match backup fs with
  | None => inr fs
  | Some b => restore_from b fs
  end.

End Platform.

End SetVersion.

(** ** The version script on its files: [scripts/set-version.mjs]

    The text of each of the two files, when the file exists.  A read
    fails for a file that is missing or whose text is not JSON; writing
    a file and removing one that exists succeed. *)
Module SetVersionScript.
Import SetVersion.

Inductive Path := PACKAGE_JSON | BACKUP.

Record Disk := mkDisk {
  package_file : option string;
  backup_file : option string
}.

Definition file (p : Path) (d : Disk) : option string :=
  match p with
  | PACKAGE_JSON => package_file d
  | BACKUP => backup_file d
  end.

Definition put (p : Path) (content : option string) (d : Disk) : Disk :=
  match p with
  | PACKAGE_JSON => {| package_file := content; backup_file := backup_file d |}
  | BACKUP => {| package_file := package_file d; backup_file := content |}
  end.

(** How a run ends: [process.exit(code)], or an exception that
    nothing catches, for which the exit code is 1. *)
Inductive Halt :=
| Exit (code : Z)
| Uncaught (error : string).

Definition exit_code (halt : Halt) : Z :=
  match halt with
  | Exit code => code
  | Uncaught _ => 1%Z
  end.

(** Statements of the script: they work on the disk and may end the
    run. *)
Definition Script (A : Type) : Type := Disk -> (Halt + A) * Disk.

Definition ret {A} (a : A) : Script A := fun d => (inr a, d).
Definition exit {A} (code : Z) : Script A := fun d => (inl (Exit code), d).
Definition throw {A} (error : string) : Script A :=
  fun d => (inl (Uncaught error), d).
Definition bind {A B} (m : Script A) (k : A -> Script B) : Script B :=
  fun d =>
    match m d with
    | (inr a, d') => k a d'
    | (inl halt, d') => (inl halt, d')
    end.

Declare Scope script_scope.
Delimit Scope script_scope with script.
Notation "x <- m ;; k" := (bind m (fun x => k))
  (at level 100, m at next level, right associativity) : script_scope.
Local Open Scope script_scope.

(** [fs.existsSync(path)] *)
Definition existsSync (p : Path) : Script bool :=
  fun d => (inr (match file p d with Some _ => true | None => false end), d).

(** [fs.unlinkSync(path)] *)
Definition unlinkSync (p : Path) : Script unit :=
  fun d =>
    match file p d with
    | Some _ => (inr tt, put p None d)
    | None => (inl (Uncaught "ENOENT"), d)
    end.

(** [x.version]: reading a property of [null] throws; only an object
    read from JSON has properties of its own. *)
Definition get_version (x : json) : Script (option json) :=
  match x with
  | JNull => throw "TypeError"
  | _ => ret (get "version" x)
  end.

(** [pkg.version = v], as [JSON.stringify] sees [pkg] afterwards: the
    script is a module, hence strict, and the assignment throws for
    [null] and for a boolean, a number or a string; on an array it
    adds a property that is not written. *)
Definition set_version (v : json) (pkg : json) : Script json :=
  match pkg with
  | JObject fields => ret (JObject (Platform.set_field "version" v fields))
  | JArray _ => ret pkg
  | _ => throw "TypeError"
  end.

(** What [JSON.stringify] keeps of [{ version: v }]. *)
Definition record_of (v : option json) : json :=
  JObject (match v with
           | Some x => [("version", x)]
           | None => []
           end).

Section Platform.
(** [String.prototype.trim], [JSON.parse] ([None] when it throws)
    and [JSON.stringify(value, null, 2)]. *)
Variable trim : string -> string.
Variable JSON_parse : string -> option json.
Variable JSON_format : json -> string.

Definition readJson (p : Path) : Script json :=
  fun d =>
    match file p d with
    | None => (inl (Uncaught "ENOENT"), d)
    | Some text =>
        match JSON_parse text with
        | Some v => (inr v, d)
        | None => (inl (Uncaught "SyntaxError"), d)
        end
    end.

(** The text [writeJson] writes for a document. *)
Definition written (value : json) : string := JSON_format value +:+ nl.

Definition writeJson (p : Path) (value : json) : Script unit :=
  fun d => (inr tt, put p (Some (written value)) d).

(** [JSON.parse] gives back the document that [writeJson] wrote. *)
Definition reads_back (value : json) : Prop :=
  JSON_parse (written value) = Some value.

(** The branch [command === "apply"]. *)
Definition apply_command (VERSION : option string) : Script unit :=
  match normalizeVersion trim VERSION with
  | None => exit 0
  | Some envVersion =>
      if negb (nonempty envVersion) then exit 0
      else
        pkg <- readJson PACKAGE_JSON ;;
        present <- existsSync BACKUP ;;
        _ <- (if negb present
              then v <- get_version pkg ;; writeJson BACKUP (record_of v)
              else ret tt) ;;
        pkg' <- set_version (JString envVersion) pkg ;;
        _ <- writeJson PACKAGE_JSON pkg' ;;
        exit 0
  end.

(** The branch [command === "restore"]. *)
Definition restore_command : Script unit :=
  present <- existsSync BACKUP ;;
  if negb present then exit 0
  else
    backup <- readJson BACKUP ;;
    pkg <- readJson PACKAGE_JSON ;;
    v <- get_version backup ;;
    _ <- (match v with
          | Some (JString s) =>
              pkg' <- set_version (JString s) pkg ;;
              writeJson PACKAGE_JSON pkg'
          | _ => ret tt
          end) ;;
    _ <- unlinkSync BACKUP ;;
    exit 0.

Definition script (command VERSION : option string) : Script unit :=
  match command with
  | Some c =>
      if (c =? "apply")%string then apply_command VERSION
      else if (c =? "restore")%string then restore_command
      else exit 2
  | None => exit 2
  end.

(** One run: the disk it leaves and its exit code. *)
Definition main (command VERSION : option string) (d : Disk) : Disk * Z :=
  match script command VERSION d with
  | (inl halt, d') => (d', exit_code halt)
  | (inr _, d') => (d', 0%Z)
  end.

(** Runs one after the other: the disk they leave and their exit
    codes. *)
Fixpoint run_all (runs : list (option string * option string)) (d : Disk)
  : Disk * list Z :=
  match runs with
  | [] => (d, [])
  | (command, VERSION) :: rest =>
      let '(d1, code) := main command VERSION d in
      let '(d2, codes) := run_all rest d1 in
      (d2, code :: codes)
  end.

(** The disk holds the documents [fs]. *)
Definition holds (d : Disk) (fs : Files) : Prop :=
  (exists text, package_file d = Some text
                /\ JSON_parse text = Some (JObject (package_json fs)))
  /\ match backup_file d with
     | None => backup fs = None
     | Some text => exists b, JSON_parse text = Some b /\ backup fs = Some b
     end.

End Platform.

End SetVersionScript.

(** ** The README script that follows the version script in
    [scripts/set-version.mjs]

    The script works on [README.md], which exists, and on its backup
    [.README.md.bak]. *)
Module SetReadmeVersion.

Record Docs := mkDocs {
  readme : string;
  readme_backup : option string
}.

Definition DOCS_LATEST : string :=
  "https://seclai.github.io/seclai-javascript/latest/".

Definition versioned (version : string) : string :=
  "https://seclai.github.io/seclai-javascript/" +:+ version +:+ "/".

Section Platform.
(** [text.replaceAll(pattern, replacement)] *)
Variable replaceAll : string -> string -> string -> string.

(** The [apply] mode: the files it leaves and the exit code. *)
Definition apply (VERSION : option string) (fs : Docs) : Docs * Z :=
  match VERSION with
  | None => (fs, 2%Z)
  | Some version =>
      if negb (nonempty version) then (fs, 2%Z)
      else
        let original := readme fs in
        ({| readme_backup :=
              match readme_backup fs with
              | Some b => Some b
              | None => Some original
              end;
            readme :=
              if includes DOCS_LATEST original
              then replaceAll DOCS_LATEST (versioned version) original
              else original |},
         0%Z)
  end.

Definition restore (fs : Docs) : Docs * Z :=
  match readme_backup fs with
  | Some b => ({| readme := b; readme_backup := None |}, 0%Z)
  | None => (fs, 0%Z)
  end.

Definition main (mode VERSION : option string) (fs : Docs) : Docs * Z :=
  match mode with
  | Some m =>
      if (m =? "apply")%string then apply VERSION fs
      else if (m =? "restore")%string then restore fs
      else (fs, 2%Z)
  | None => (fs, 2%Z)
  end.

(** Runs of the [apply] mode, one after the other. *)
Definition apply_all (versions : list (option string)) (fs : Docs) : Docs :=
  fold_left (fun files v => fst (apply v files)) versions fs.

End Platform.

End SetReadmeVersion.

(** ** A concrete platform for the examples of the version script *)
Module SetVersionScenario.
Import SetVersion.

(** White space among the characters of ASCII. *)
Definition is_space (a : ascii) : bool :=
  let n := nat_of_ascii a in
  ((9 <=? n)%nat && (n <=? 13)%nat) || (n =? 32)%nat.

Fixpoint trim_start (s : string) : string :=
  match s with
  | String a s' => if is_space a then trim_start s' else s
  | EmptyString => s
  end.

Fixpoint trim_end (s : string) : string :=
  match s with
  | EmptyString => EmptyString
  | String a s' =>
      match trim_end s' with
      | EmptyString => if is_space a then EmptyString else String a EmptyString
      | t => String a t
      end
  end.

(** [trim] on ASCII text. *)
Definition trim (s : string) : string := trim_end (trim_start s).

(** [JSON.stringify(value, null, 2)] on the fragment of JSON of the
    examples. *)
Fixpoint format (indent : string) (v : json) : string :=
  match v with
  | JArray items =>
      match items with
      | [] => "[]"
      | _ =>
          "[" +:+ nl
          +:+ join ("," +:+ nl)
                (map (fun x => indent +:+ "  " +:+ format (indent +:+ "  ") x)
                   items)
          +:+ nl +:+ indent +:+ "]"
      end
  | JObject fields =>
      match fields with
      | [] => "{}"
      | _ =>
          "{" +:+ nl
          +:+ join ("," +:+ nl)
                (map (fun kv =>
                        indent +:+ "  " +:+ Platform.quoted (fst kv) +:+ ": "
                        +:+ format (indent +:+ "  ") (snd kv))
                   fields)
          +:+ nl +:+ indent +:+ "}"
      end
  | _ => Platform.JSON_stringify v
  end.

Definition JSON_format (v : json) : string := format "" v.

Definition manifest : list (string * json) :=
  [("name", JString "seclai"); ("version", JString "0.0.0");
   ("private", JBool false)].

(** A package file written on one line, and no backup. *)
Definition compact : SetVersionScript.Disk :=
  {| SetVersionScript.package_file := Some (Platform.JSON_stringify (JObject manifest));
     SetVersionScript.backup_file := None |}.

(** A package file that holds a number, and no backup. *)
Definition numeric : SetVersionScript.Disk :=
  {| SetVersionScript.package_file := Some "5";
     SetVersionScript.backup_file := None |}.

Definition main :=
  SetVersionScript.main trim Platform.JSON_parse JSON_format.

Definition run_all :=
  SetVersionScript.run_all trim Platform.JSON_parse JSON_format.

Definition released : Files :=
  {| package_json := [("name", JString "seclai"); ("version", JString "0.0.0");
                      ("private", JBool false)];
     backup := None |}.

(** A package that declares no version. *)
Definition unversioned : Files :=
  {| package_json := [("name", JString "seclai")]; backup := None |}.

End SetVersionScenario.

(** ** Facts about the string primitives *)
Module JsStringFacts.

Lemma append_cons a (s t : string) : String a s +:+ t = String a (s +:+ t).
Proof. reflexivity. Qed.

Lemma append_empty_r (s : string) : s +:+ "" = s.
Proof. induction s as [|a s IH]; [reflexivity|]. rewrite append_cons, IH. reflexivity. Qed.

Lemma append_assoc (a b c : string) : (a +:+ b) +:+ c = a +:+ (b +:+ c).
Proof.
  induction a as [|x a IH]; [reflexivity|].
  rewrite !append_cons, IH. reflexivity.
Qed.

Lemma length_append (a b : string) :
  String.length (a +:+ b) = String.length a + String.length b.
Proof.
  induction a as [|x a IH]; [reflexivity|].
  rewrite append_cons. simpl. rewrite IH. reflexivity.
Qed.

Lemma indexOf_lt c s i : indexOf c s = Some i -> i < String.length s.
Proof.
  revert i. induction s as [|a s IH]; intros i; simpl; [discriminate|].
  destruct (Ascii.eqb a c).
  - intros [= <-]. lia.
  - destruct (indexOf c s) as [j|]; simpl; [|discriminate].
    intros [= <-]. specialize (IH j eq_refl). lia.
Qed.

Lemma indexOf_app_Some c a b i :
  indexOf c a = Some i -> indexOf c (a +:+ b) = Some i.
Proof.
  revert i. induction a as [|x a IH]; intros i; simpl; [discriminate|].
  destruct (Ascii.eqb x c); [trivial|].
  destruct (indexOf c a) as [j|]; simpl; [|discriminate].
  intros [= <-]. rewrite (IH j eq_refl). reflexivity.
Qed.

Lemma indexOf_app_None c a b :
  indexOf c a = None ->
  indexOf c (a +:+ b) = option_map (Nat.add (String.length a)) (indexOf c b).
Proof.
  induction a as [|x a IH]; simpl.
  - intros _. destruct (indexOf c b); reflexivity.
  - destruct (Ascii.eqb x c); [discriminate|].
    destruct (indexOf c a) as [j|]; simpl; [discriminate|].
    intros _. rewrite IH by reflexivity. destruct (indexOf c b); reflexivity.
Qed.

Lemma slice_to_app n a b :
  n <= String.length a -> slice_to n (a +:+ b) = slice_to n a.
Proof.
  revert n. induction a as [|x a IH]; intros [|n]; simpl; try reflexivity; try lia.
  intros Hn. rewrite IH by lia. reflexivity.
Qed.

Lemma slice_from_app n a b :
  n <= String.length a -> slice_from n (a +:+ b) = slice_from n a +:+ b.
Proof.
  revert n. induction a as [|x a IH]; intros [|n]; simpl; try reflexivity; try lia.
  intros Hn. apply IH. lia.
Qed.

Lemma length_slice_from n s :
  String.length (slice_from n s) = String.length s - n.
Proof.
  revert n. induction s as [|x s IH]; intros [|n]; simpl; try reflexivity.
  apply IH.
Qed.

End JsStringFacts.
Import JsStringFacts.

(** ** The parser does not depend on how the text is cut into chunks *)
Module SseFacts.
Import Sse.
Section Generic.
Context {T : Type} (onMessage : SseMessage -> T -> T).
Implicit Types p q : Parser T.

Lemma buffer_dispatch p : buffer (dispatch onMessage p) = buffer p.
Proof. unfold dispatch. destruct (_ && _); reflexivity. Qed.

Lemma buffer_feed_line line p : buffer (feed_line onMessage line p) = buffer p.
Proof.
  unfold feed_line.
  repeat match goal with
         | |- context [if ?b then _ else _] => destruct b
         end; auto using buffer_dispatch.
Qed.

Lemma dispatch_set_buffer b p :
  dispatch onMessage (set_buffer b p) = set_buffer b (dispatch onMessage p).
Proof. unfold dispatch, set_buffer. simpl. destruct (_ && _); reflexivity. Qed.

Lemma feed_line_set_buffer line b p :
  feed_line onMessage line (set_buffer b p)
  = set_buffer b (feed_line onMessage line p).
Proof.
  unfold feed_line.
  repeat match goal with
         | |- context [if ?c then _ else _] => destruct c
         end; auto using dispatch_set_buffer.
Qed.

Lemma set_buffer_set_buffer b b' p : set_buffer b (set_buffer b' p) = set_buffer b p.
Proof. reflexivity. Qed.

Lemma set_buffer_id p : set_buffer (buffer p) p = p.
Proof. destruct p; reflexivity. Qed.

(** The loop never lengthens the buffer. *)
Lemma feed_loop_buffer_le fuel p :
  String.length (buffer (feed_loop onMessage fuel p)) <= String.length (buffer p).
Proof.
  revert p. induction fuel as [|fuel IH]; intros p; simpl; [lia|].
  destruct (indexOf LF (buffer p)) as [i|] eqn:Hi; [|lia].
  etransitivity; [apply IH|].
  rewrite buffer_feed_line. simpl. rewrite length_slice_from. lia.
Qed.

(** Fuel above the buffer length is never exhausted: the loop leaves
    through its [return], with no line feed left in the buffer. *)
Lemma feed_loop_returns fuel p :
  String.length (buffer p) < fuel ->
  indexOf LF (buffer (feed_loop onMessage fuel p)) = None.
Proof.
  revert p. induction fuel as [|fuel IH]; intros p Hlt; [lia|]. simpl.
  destruct (indexOf LF (buffer p)) as [i|] eqn:Hi; [|exact Hi].
  apply IH. rewrite buffer_feed_line. simpl. rewrite length_slice_from.
  apply indexOf_lt in Hi. lia.
Qed.

Lemma feed_loop_fuel fuel fuel' p :
  String.length (buffer p) < fuel ->
  String.length (buffer p) < fuel' ->
  feed_loop onMessage fuel p = feed_loop onMessage fuel' p.
Proof.
  revert fuel' p. induction fuel as [|fuel IH]; intros [|fuel'] p H1 H2; try lia.
  simpl. destruct (indexOf LF (buffer p)) as [i|] eqn:Hi; [|reflexivity].
  apply indexOf_lt in Hi.
  apply IH; rewrite buffer_feed_line; simpl; rewrite length_slice_from; lia.
Qed.

Lemma feed_loop_no_newline fuel p :
  indexOf LF (buffer p) = None -> feed_loop onMessage fuel p = p.
Proof. intros H. destruct fuel; simpl; [|rewrite H]; reflexivity. Qed.

(** Running the loop on a buffer extended by [y] is running it on the
    buffer first and on the remainder extended by [y] afterwards. *)
Lemma feed_loop_step fuel p i :
  indexOf LF (buffer p) = Some i ->
  feed_loop onMessage (S fuel) p
  = feed_loop onMessage fuel
      (feed_line onMessage (slice_to i (buffer p))
         (set_buffer (slice_from (i + 1) (buffer p)) p)).
Proof. intros H. simpl. rewrite H. reflexivity. Qed.

Lemma feed_loop_app fuel p y :
  String.length (buffer p +:+ y) < fuel ->
  feed_loop onMessage fuel (set_buffer (buffer p +:+ y) p)
  = feed_loop onMessage fuel
      (set_buffer (buffer (feed_loop onMessage fuel p) +:+ y)
         (feed_loop onMessage fuel p)).
Proof.
  revert p. induction fuel as [|fuel IH]; intros p Hlt; [lia|].
  rewrite length_append in Hlt.
  destruct (indexOf LF (buffer p)) as [i|] eqn:Hi.
  - pose proof (indexOf_lt _ _ _ Hi) as Hil.
    set (p1 := feed_line onMessage (slice_to i (buffer p))
                 (set_buffer (slice_from (i + 1) (buffer p)) p)).
    assert (Hb1 : buffer p1 = slice_from (i + 1) (buffer p)).
    { unfold p1. rewrite buffer_feed_line. reflexivity. }
    assert (Hl1 : String.length (buffer p1) + String.length y < fuel).
    { rewrite Hb1, length_slice_from. lia. }
    rewrite (feed_loop_step fuel p i Hi). fold p1.
    rewrite (feed_loop_step fuel (set_buffer (buffer p +:+ y) p) i)
      by (cbn [buffer set_buffer]; apply indexOf_app_Some, Hi).
    cbn [buffer set_buffer].
    rewrite slice_to_app, slice_from_app by lia.
    rewrite set_buffer_set_buffer.
    replace (feed_line onMessage (slice_to i (buffer p))
               (set_buffer (slice_from (i + 1) (buffer p) +:+ y) p))
      with (set_buffer (buffer p1 +:+ y) p1).
    2:{ rewrite Hb1. unfold p1.
        rewrite <- (feed_line_set_buffer _ (slice_from (i + 1) (buffer p) +:+ y)).
        rewrite set_buffer_set_buffer. reflexivity. }
    rewrite IH by (rewrite length_append; lia).
    apply feed_loop_fuel; cbn [buffer set_buffer]; rewrite length_append;
      pose proof (feed_loop_buffer_le fuel p1); lia.
  - rewrite (feed_loop_no_newline _ p Hi). reflexivity.
Qed.

Lemma feed_feed a b p :
  feed onMessage b (feed onMessage a p) = feed onMessage (a +:+ b) p.
Proof.
  set (p0 := set_buffer (buffer p +:+ a) p).
  set (q := feed onMessage a p).
  set (F := S (String.length ((buffer p +:+ a) +:+ b))).
  assert (Hle : String.length (buffer q) <= String.length (buffer p +:+ a)).
  { unfold q, feed. etransitivity; [apply feed_loop_buffer_le|]. reflexivity. }
  assert (Hq : feed_loop onMessage F p0 = q).
  { unfold q, feed. fold p0. apply feed_loop_fuel; unfold F, p0;
      cbn [buffer set_buffer]; rewrite ?length_append; lia. }
  transitivity (feed_loop onMessage F (set_buffer (buffer q +:+ b) q)).
  - unfold feed at 1. apply feed_loop_fuel; unfold F;
      cbn [buffer set_buffer]; rewrite !length_append in *; lia.
  - rewrite <- Hq at 1 2. rewrite <- feed_loop_app
      by (unfold F, p0; cbn [buffer set_buffer]; lia).
    unfold feed, F, p0. cbn [buffer set_buffer].
    rewrite append_assoc. reflexivity.
Qed.

(** After any [feed] the buffer holds no complete line. *)
Lemma feed_returns c p : indexOf LF (buffer (feed onMessage c p)) = None.
Proof. unfold feed. apply feed_loop_returns. lia. Qed.

Lemma feed_empty p : indexOf LF (buffer p) = None -> feed onMessage "" p = p.
Proof.
  intros H. unfold feed. rewrite append_empty_r, set_buffer_id.
  apply feed_loop_no_newline, H.
Qed.

Lemma feed_all_concat chunks p :
  indexOf LF (buffer p) = None ->
  feed_all onMessage chunks p = feed onMessage (String.concat "" chunks) p.
Proof.
  revert p. induction chunks as [|c chunks IH]; intros p Hp.
  - simpl. symmetry. apply feed_empty, Hp.
  - change (feed_all onMessage (c :: chunks) p)
      with (feed_all onMessage chunks (feed onMessage c p)).
    rewrite IH by apply feed_returns. rewrite feed_feed. f_equal.
    destruct chunks as [|c' chunks]; simpl; [apply append_empty_r|reflexivity].
Qed.

End Generic.

Lemma emitted_concat chunks : emitted chunks = emitted [String.concat "" chunks].
Proof.
  unfold emitted, fresh. rewrite !feed_all_concat by reflexivity. reflexivity.
Qed.

End SseFacts.

(** ** The parser refines the line-level grammar *)
Module SseRefinement.
Import Sse SseSpec SseFacts.

Lemma split_lines_no_newline s :
  indexOf LF s = None -> split_lines s = ([], s).
Proof.
  induction s as [|a s IH]; simpl; [reflexivity|].
  destruct (Ascii.eqb a LF); [discriminate|].
  destruct (indexOf LF s); simpl; [discriminate|].
  intros _. rewrite IH by reflexivity. reflexivity.
Qed.

Lemma split_lines_first s i :
  indexOf LF s = Some i ->
  split_lines s
  = (slice_to i s :: complete_lines (slice_from (i + 1) s),
     trailing (slice_from (i + 1) s)).
Proof.
  unfold complete_lines, trailing.
  revert i. induction s as [|a s IH]; intros i; simpl; [discriminate|].
  destruct (Ascii.eqb a LF).
  - intros [= <-]. simpl. destruct (split_lines s). reflexivity.
  - destruct (indexOf LF s) as [j|]; simpl; [|discriminate].
    intros [= <-]. rewrite (IH j eq_refl). simpl. reflexivity.
Qed.

Lemma cut_indexOf c s :
  cut c s
  = (match indexOf c s with None => s | Some i => slice_to i s end,
     match indexOf c s with None => None | Some i => Some (slice_from (i + 1) s) end).
Proof.
  induction s as [|a s IH]; simpl; [reflexivity|].
  destruct (Ascii.eqb a c); [reflexivity|].
  rewrite IH. destruct (indexOf c s); reflexivity.
Qed.

Lemma strip_space_startsWith v :
  strip_space v = if startsWith " " v then slice_from 1 v else v.
Proof. destruct v as [|a v]; simpl; [reflexivity|]. destruct (Ascii.eqb a " "); reflexivity. Qed.

Lemma guard_nonempty_name_dispatch p :
  guard_nonempty_name (fst (abs p))
  = negb (not_eventName (eventName p) && (length (dataLines p) =? 0)%nat).
Proof.
  unfold guard_nonempty_name, not_eventName. simpl.
  destruct (eventName p) as [[|a e]|], (dataLines p); reflexivity.
Qed.

Lemma abs_dispatch p :
  abs (dispatch record_msg p) = flush guard_nonempty_name (abs p).
Proof.
  unfold flush. pose proof (guard_nonempty_name_dispatch p) as Hg.
  unfold dispatch. simpl in *. rewrite Hg.
  destruct (_ && _); reflexivity.
Qed.

Lemma abs_feed_line line p :
  abs (feed_line record_msg line p) = step guard_nonempty_name (abs p) line.
Proof.
  unfold step, classify, feed_line. fold (strip_cr line).
  destruct (strip_cr line) as [|a l] eqn:Hl.
  - simpl. apply abs_dispatch.
  - change (String a l =? "")%string with false. cbn iota.
    change (startsWith ":" (String a l)) with (Ascii.eqb a ":").
    destruct (Ascii.eqb a ":"); [reflexivity|].
    rewrite cut_indexOf.
    destruct (indexOf ":" (String a l)) as [i|].
    + rewrite strip_space_startsWith. simpl abs at 2.
      cbv beta iota.
      destruct (slice_to i (String a l) =? "event")%string; [reflexivity|].
      destruct (slice_to i (String a l) =? "data")%string; reflexivity.
    + simpl abs at 2. cbv beta iota.
      change (startsWith " " "") with false. cbv iota.
      destruct (String a l =? "event")%string; [reflexivity|].
      destruct (String a l =? "data")%string; reflexivity.
Qed.

(** The loop of [feed] handles exactly the complete lines of the buffer
    and leaves the unterminated remainder in it. *)
Lemma feed_loop_lines fuel p :
  String.length (buffer p) < fuel ->
  abs (feed_loop record_msg fuel p)
  = fold_left (step guard_nonempty_name) (complete_lines (buffer p)) (abs p)
  /\ buffer (feed_loop record_msg fuel p) = trailing (buffer p).
Proof.
  revert p. induction fuel as [|fuel IH]; intros p Hlt; [lia|].
  destruct (indexOf LF (buffer p)) as [i|] eqn:Hi.
  - rewrite (feed_loop_step _ _ _ _ Hi).
    unfold complete_lines, trailing. rewrite (split_lines_first _ _ Hi).
    cbn [fst snd fold_left].
    set (p1 := feed_line record_msg _ _).
    assert (Hb1 : buffer p1 = slice_from (i + 1) (buffer p)).
    { unfold p1. rewrite buffer_feed_line. reflexivity. }
    destruct (IH p1) as [Ha Hb].
    { rewrite Hb1, length_slice_from. apply indexOf_lt in Hi. lia. }
    rewrite Ha, Hb, Hb1. split; [|reflexivity].
    f_equal. unfold p1. rewrite abs_feed_line. reflexivity.
  - rewrite (feed_loop_no_newline _ _ _ Hi).
    unfold complete_lines, trailing. rewrite (split_lines_no_newline _ Hi).
    split; reflexivity.
Qed.

Lemma feed_all_lines chunks :
  let p := feed_all record_msg chunks fresh in
  abs p = run guard_nonempty_name (complete_lines (String.concat "" chunks))
  /\ buffer p = trailing (String.concat "" chunks).
Proof.
  cbv zeta. rewrite feed_all_concat by reflexivity.
  unfold feed. apply (feed_loop_lines _ (set_buffer _ fresh)). simpl. lia.
Qed.

End SseRefinement.

(** ** Any callback sees the recorded messages, in order *)
Module SseLog.
Import Sse SseFacts.
Section Callback.
Context {T : Type} (onMessage : SseMessage -> T -> T) (s0 : T).

Abbreviation replay := (Sse.replay onMessage s0).
Abbreviation sim := (Sse.sim onMessage s0).

Lemma sim_create : sim (createSseParser s0) fresh.
Proof. repeat split. Qed.

Lemma sim_set_buffer b p l : sim p l -> sim (set_buffer b p) (set_buffer b l).
Proof. intros (_ & ? & ? & ?). repeat split; assumption. Qed.

Lemma sim_dispatch p l :
  sim p l -> sim (dispatch onMessage p) (dispatch record_msg l).
Proof.
  intros (Hb & He & Hd & Hs). unfold dispatch. rewrite He, Hd.
  destruct (_ && _); [repeat split; assumption|].
  repeat split; simpl; try assumption.
  unfold record_msg, replay. rewrite fold_left_app. simpl.
  rewrite Hs. reflexivity.
Qed.

Lemma sim_feed_line line p l :
  sim p l -> sim (feed_line onMessage line p) (feed_line record_msg line l).
Proof.
  intros H. pose proof H as (Hb & He & Hd & Hs). unfold feed_line.
  repeat match goal with
         | |- context [if ?c then _ else _] => destruct c
         end; auto using sim_dispatch;
    repeat split; simpl; congruence.
Qed.

Lemma sim_feed_loop fuel p l :
  sim p l -> sim (feed_loop onMessage fuel p) (feed_loop record_msg fuel l).
Proof.
  revert p l. induction fuel as [|fuel IH]; intros p l H; simpl; [exact H|].
  pose proof H as (Hb & _). rewrite Hb.
  destruct (indexOf LF (buffer l)); [|exact H].
  apply IH, sim_feed_line, sim_set_buffer, H.
Qed.

Lemma sim_feed c p l :
  sim p l -> sim (feed onMessage c p) (feed record_msg c l).
Proof.
  intros H. pose proof H as (Hb & _). unfold feed.
  cbn [buffer set_buffer]. rewrite Hb.
  apply sim_feed_loop, sim_set_buffer, H.
Qed.

Lemma sim_feed_all cs p l :
  sim p l -> sim (feed_all onMessage cs p) (feed_all record_msg cs l).
Proof.
  revert p l. induction cs as [|c cs IH]; intros p l H; simpl; [exact H|].
  apply IH, sim_feed, H.
Qed.

Lemma sink_feed_all cs :
  sink (feed_all onMessage cs (createSseParser s0)) = replay (dispatched cs).
Proof. apply (sim_feed_all cs _ _ sim_create). Qed.

Lemma sink_end_feed_all cs :
  sink (end_ onMessage (feed_all onMessage cs (createSseParser s0)))
  = replay (emitted cs).
Proof. apply (sim_dispatch _ _ (sim_feed_all cs _ _ sim_create)). Qed.

End Callback.

(** The record only grows. *)
Lemma dispatch_grows l :
  exists new, sink (dispatch record_msg l) = sink l ++ new.
Proof.
  unfold dispatch. destruct (_ && _).
  - exists []. rewrite app_nil_r. reflexivity.
  - eexists. reflexivity.
Qed.

Lemma feed_line_grows line l :
  exists new, sink (feed_line record_msg line l) = sink l ++ new.
Proof.
  unfold feed_line.
  repeat match goal with
         | |- context [if ?c then _ else _] => destruct c
         end; auto using dispatch_grows;
    exists []; rewrite app_nil_r; reflexivity.
Qed.

Lemma feed_loop_grows fuel l :
  exists new, sink (feed_loop record_msg fuel l) = sink l ++ new.
Proof.
  revert l. induction fuel as [|fuel IH]; intros l; simpl.
  - exists []. rewrite app_nil_r. reflexivity.
  - destruct (indexOf LF (buffer l)).
    + destruct (IH (feed_line record_msg (slice_to n (buffer l))
                      (set_buffer (slice_from (n + 1) (buffer l)) l)))
        as [new Hnew].
      destruct (feed_line_grows (slice_to n (buffer l))
                  (set_buffer (slice_from (n + 1) (buffer l)) l))
        as [new' Hnew'].
      exists (new' ++ new). rewrite Hnew, Hnew'. simpl.
      rewrite app_assoc. reflexivity.
    + exists []. rewrite app_nil_r. reflexivity.
Qed.

Lemma feed_grows c l :
  exists new, sink (feed record_msg c l) = sink l ++ new.
Proof. unfold feed. apply (feed_loop_grows _ (set_buffer _ l)). Qed.

Lemma feed_all_grows cs l :
  exists new, sink (feed_all record_msg cs l) = sink l ++ new.
Proof.
  revert l. induction cs as [|c cs IH]; intros l; simpl.
  - exists []. rewrite app_nil_r. reflexivity.
  - destruct (IH (feed record_msg c l)) as [new Hnew].
    destruct (feed_grows c l) as [new' Hnew'].
    exists (new' ++ new). rewrite Hnew, Hnew', app_assoc. reflexivity.
Qed.

(** Messages dispatched while a prefix of the chunks is fed are a
    prefix of the messages of the whole run, [end()] included. *)
Lemma dispatched_app cs cs' :
  exists new, dispatched (cs ++ cs') = dispatched cs ++ new.
Proof.
  unfold dispatched, feed_all. rewrite fold_left_app.
  apply (feed_all_grows cs').
Qed.

Lemma emitted_dispatched cs :
  exists new, emitted cs = dispatched cs ++ new.
Proof. apply dispatch_grows. Qed.

End SseLog.

(** ** The abort coordinator keeps the combined signal in step with its inputs *)
Module AbortFacts.
Import Abort.

Lemma is_aborted_insert_mark (c x : nat) (h : Store) :
  c < length h ->
  is_aborted x (<[c := mark]> h) = if decide (x = c) then true else is_aborted x h.
Proof.
  intros Hc. unfold is_aborted. destruct (decide (x = c)) as [->|Hne].
  - rewrite list_lookup_insert_eq by lia. reflexivity.
  - rewrite list_lookup_insert_ne by congruence. reflexivity.
Qed.

Lemma live_insert_mark (c : nat) (h : Store) sig :
  h !! c = Some sig -> aborted sig = false ->
  S (live (<[c := mark]> h)) = live h.
Proof.
  unfold live. revert c. induction h as [|x h IH]; intros [|c] Hl Ha; simpl in *;
    try discriminate.
  - injection Hl as ->. rewrite !filter_cons. simpl.
    destruct (decide (true = false)) as [?|_]; [discriminate|].
    destruct (decide (aborted sig = false)) as [_|?]; [reflexivity|contradiction].
  - rewrite !filter_cons. destruct (decide (aborted x = false)); simpl;
      rewrite <- (IH c Hl Ha); reflexivity.
Qed.

(** Whatever a single marking step preserves, [abort_fuel] preserves. *)
Lemma abort_fuel_preserves (P : Store -> Prop) :
  (forall h c sig, h !! c = Some sig -> aborted sig = false ->
                   P h -> P (<[c := mark]> h)) ->
  forall fuel c h, P h -> P (abort_fuel fuel c h).
Proof.
  intros Hstep. induction fuel as [|fuel IH]; intros c h HP; simpl; [exact HP|].
  destruct (h !! c) as [sig|] eqn:Hl; [|exact HP].
  destruct (aborted sig) eqn:Ha; [exact HP|].
  pose proof (Hstep h c sig Hl Ha HP) as HP1.
  generalize dependent (<[c := mark]> h).
  generalize (listeners sig) as L.
  induction L as [|t L IHL]; intros h1 HP1; simpl; [exact HP1|].
  apply IHL, IH, HP1.
Qed.

Lemma abort_fuel_length fuel c h : length (abort_fuel fuel c h) = length h.
Proof.
  apply (abort_fuel_preserves (fun h' => length h' = length h)); [|reflexivity].
  intros h' c' sig _ _ Hlen. rewrite length_insert. exact Hlen.
Qed.

Lemma abort_fuel_monotone fuel c h x :
  is_aborted x h = true -> is_aborted x (abort_fuel fuel c h) = true.
Proof.
  apply (abort_fuel_preserves (fun h' => is_aborted x h' = true)).
  intros h' c' sig Hl _ Hx.
  rewrite is_aborted_insert_mark by (eapply lookup_lt_Some, Hl).
  destruct (decide (x = c')); [reflexivity|exact Hx].
Qed.

Lemma abort_fuel_live fuel c h : live (abort_fuel fuel c h) <= live h.
Proof.
  apply (abort_fuel_preserves (fun h' => live h' <= live h)); [|lia].
  intros h' c' sig Hl Ha Hle. pose proof (live_insert_mark _ _ _ Hl Ha). lia.
Qed.

Lemma fold_abort_preserves (P : Store -> Prop) fuel :
  (forall c h, P h -> P (abort_fuel fuel c h)) ->
  forall L h, P h ->
    P (fold_left (fun h' target => abort_fuel fuel target h') L h).
Proof.
  intros Hstep L. induction L as [|t L IH]; intros h HP; simpl; [exact HP|].
  apply IH, Hstep, HP.
Qed.

(** With any fuel at all, [abort] triggers its own signal. *)
Lemma abort_fuel_self fuel c h :
  0 < fuel -> c < length h -> is_aborted c (abort_fuel fuel c h) = true.
Proof.
  intros Hf Hc. destruct fuel as [|fuel]; [lia|]. simpl.
  destruct (lookup_lt_is_Some_2 h c Hc) as [sig Hl]. rewrite Hl.
  destruct (aborted sig) eqn:Ha.
  - unfold is_aborted. rewrite Hl. exact Ha.
  - apply (fold_abort_preserves (fun h' => is_aborted c h' = true)).
    + intros c' h' Hx. apply abort_fuel_monotone, Hx.
    + rewrite is_aborted_insert_mark by exact Hc.
      destruct (decide (c = c)); [reflexivity|congruence].
Qed.

Lemma fold_abort_reaches fuel c L h :
  0 < fuel -> c ∈ L -> c < length h ->
  is_aborted c (fold_left (fun h' target => abort_fuel fuel target h') L h) = true.
Proof.
  intros Hf. revert h. induction L as [|t L IH]; intros h Hin Hc; simpl.
  - apply elem_of_nil in Hin. contradiction.
  - apply elem_of_cons in Hin as [<-|Hin].
    + apply (fold_abort_preserves (fun h' => is_aborted c h' = true)).
      * intros c' h' Hx. apply abort_fuel_monotone, Hx.
      * apply abort_fuel_self; assumption.
    + apply IH; [exact Hin|]. rewrite abort_fuel_length. exact Hc.
Qed.

(** With fuel above the number of untriggered signals, aborting any
    controller keeps the link between [s] and [c]: if [s] is triggered
    during the call, so is [c]. *)
Lemma abort_fuel_listens c s fuel x h :
  live h < fuel -> listens c s h -> listens c s (abort_fuel fuel x h).
Proof.
  revert x h. induction fuel as [|fuel IH]; intros x h Hlive [Hc HK]; [lia|].
  simpl. destruct (h !! x) as [sigx|] eqn:Hlx; [|split; assumption].
  destruct (aborted sigx) eqn:Hax; [split; assumption|].
  pose proof (live_insert_mark _ _ _ Hlx Hax) as Hl1.
  pose proof (lookup_lt_Some _ _ _ Hlx) as Hxlt.
  assert (Hfold : forall L h1, live h1 < fuel -> listens c s h1 ->
            listens c s
              (fold_left (fun h' target => abort_fuel fuel target h') L h1)).
  { intros L. induction L as [|t L IHL]; intros h1 Hlv HK1; simpl; [exact HK1|].
    apply IHL; [|apply IH; assumption].
    pose proof (abort_fuel_live fuel t h1). lia. }
  destruct HK as [Hca|(sig & Hls & Has & Hin)].
  - apply Hfold; [lia|]. split; [rewrite length_insert; exact Hc|]. left.
    rewrite is_aborted_insert_mark by exact Hxlt.
    destruct (decide (c = x)); [reflexivity|exact Hca].
  - destruct (decide (x = s)) as [->|Hne].
    + assert (sigx = sig) as -> by congruence.
      split.
      * rewrite (fold_abort_preserves (fun h' => length h' = length h)).
        -- exact Hc.
        -- intros c' h' Hlen. rewrite abort_fuel_length. exact Hlen.
        -- apply length_insert.
      * left. apply fold_abort_reaches; [lia|exact Hin|].
        rewrite length_insert. exact Hc.
    + apply Hfold; [lia|]. split; [rewrite length_insert; exact Hc|]. right.
      exists sig. rewrite list_lookup_insert_ne by congruence. auto.
Qed.

Lemma live_le_length h : live h <= length h.
Proof. unfold live. apply length_filter. Qed.

Lemma abort_listens c s x h : listens c s h -> listens c s (abort x h).
Proof.
  apply abort_fuel_listens. pose proof (live_le_length h). lia.
Qed.

Lemma addEventListener_length s c h : length (addEventListener s c h) = length h.
Proof.
  unfold addEventListener. destruct (h !! s) as [sig|]; [|reflexivity].
  destruct (bool_decide _); [reflexivity|apply length_insert].
Qed.

Lemma addEventListener_is_aborted s c h x :
  is_aborted x (addEventListener s c h) = is_aborted x h.
Proof.
  unfold addEventListener. destruct (h !! s) as [sig|] eqn:Hl; [|reflexivity].
  destruct (bool_decide _); [reflexivity|]. unfold is_aborted.
  destruct (decide (x = s)) as [->|Hne].
  - rewrite list_lookup_insert_eq by (eapply lookup_lt_Some, Hl).
    rewrite Hl. reflexivity.
  - rewrite list_lookup_insert_ne by congruence. reflexivity.
Qed.


(** Registering [c] on an untriggered signal makes [c] listen to it. *)
Lemma addEventListener_links c s h :
  c < length h -> s < length h -> is_aborted s h = false ->
  listens c s (addEventListener s c h).
Proof.
  intros Hc Hs Ha. split; [rewrite addEventListener_length; exact Hc|]. right.
  destruct (lookup_lt_is_Some_2 h s Hs) as [sig Hl].
  unfold is_aborted in Ha. rewrite Hl in Ha.
  unfold addEventListener. rewrite Hl.
  destruct (bool_decide (c ∈ listeners sig)) eqn:Hd.
  - apply bool_decide_eq_true in Hd. eauto.
  - rewrite list_lookup_insert_eq by exact Hs.
    eexists. split; [reflexivity|]. simpl. split; [exact Ha|].
    apply elem_of_app. right. apply list_elem_of_singleton. reflexivity.
Qed.



(** A triggered input whose link holds means a triggered combination. *)
Lemma listens_triggered c s h :
  listens c s h -> is_aborted s h = true -> is_aborted c h = true.
Proof.
  intros [_ [Hca|(sig & Hls & Has & _)]] Hs; [exact Hca|].
  unfold is_aborted in Hs. rewrite Hls in Hs. congruence.
Qed.

(** The loop of [anySignal]. *)
Lemma link_length c present h : length (link c present h) = length h.
Proof.
  revert h. induction present as [|s rest IH]; intros h; simpl; [reflexivity|].
  destruct (is_aborted s h).
  - apply abort_fuel_length.
  - rewrite IH. apply addEventListener_length.
Qed.




End AbortFacts.

(** ** The controller: what the callback keeps, and how the loop reads *)
Module ControllerFacts.
Import Sse SseFacts SseLog Controller.
#[local] Arguments Controller.suspend : simpl never.
Section Platform.
Variable JSON_parse : string -> option json.
Variable JSON_stringify : json -> string.
Variable Number_toString : Z -> string.
Variable URL_href : string -> string -> string.

Abbreviation onMessage := (Controller.onMessage JSON_parse).
Abbreviation decoded := (Controller.decoded JSON_parse).
Abbreviation done_payload := (Controller.done_payload JSON_parse).
Abbreviation read_loop := (Controller.read_loop JSON_parse).
Abbreviation attempt := (Controller.attempt JSON_parse JSON_stringify Number_toString URL_href).
Abbreviation attempted := (Controller.attempted JSON_parse JSON_stringify Number_toString URL_href).
Abbreviation run := (Controller.runStreamingAgentAndWait JSON_parse JSON_stringify Number_toString URL_href).
Abbreviation quiet := (Controller.quiet JSON_parse).
Abbreviation sending := (Controller.sending JSON_stringify URL_href).
Abbreviation request_of := (Controller.request_of JSON_stringify URL_href).

Lemma onMessage_final msg seen :
  final (onMessage msg seen)
  = match done_payload msg with Some v => Some v | None => final seen end.
Proof.
  unfold Controller.onMessage, Controller.done_payload, Controller.decoded.
  destruct (nonempty (data msg)); simpl.
  - destruct (is_event "done" msg); simpl.
    + rewrite orb_true_r. destruct (JSON_parse (data msg)); reflexivity.
    + rewrite orb_false_r.
      destruct (is_event "init" msg); [|reflexivity].
      destruct (JSON_parse (data msg)); reflexivity.
  - destruct (is_event "done" msg); reflexivity.
Qed.

Lemma onMessage_lastSeen msg seen :
  lastSeen (onMessage msg seen)
  = match decoded msg with Some v => Some v | None => lastSeen seen end.
Proof.
  unfold Controller.onMessage, Controller.decoded.
  destruct (nonempty (data msg)); simpl; [|reflexivity].
  destruct (_ || _); [|reflexivity].
  destruct (JSON_parse (data msg)); reflexivity.
Qed.

Lemma replay_snoc seen msgs m :
  replay onMessage seen (msgs ++ [m]) = onMessage m (replay onMessage seen msgs).
Proof. unfold replay. rewrite fold_left_app. reflexivity. Qed.

(** [final] is the last payload a [done] message contributed. *)
Lemma replay_final msgs :
  final (replay onMessage no_payload msgs) = last (omap done_payload msgs).
Proof.
  induction msgs as [|m msgs IH] using rev_ind; [reflexivity|].
  rewrite replay_snoc, onMessage_final, omap_app. simpl.
  destruct (done_payload m) as [v|]; simpl.
  - rewrite last_snoc. reflexivity.
  - rewrite app_nil_r. exact IH.
Qed.

(** [lastSeen] is the last payload any message contributed. *)
Lemma replay_lastSeen msgs :
  lastSeen (replay onMessage no_payload msgs) = last (omap decoded msgs).
Proof.
  induction msgs as [|m msgs IH] using rev_ind; [reflexivity|].
  rewrite replay_snoc, onMessage_lastSeen, omap_app. simpl.
  destruct (decoded m) as [v|]; simpl.
  - rewrite last_snoc. reflexivity.
  - rewrite app_nil_r. exact IH.
Qed.

Lemma last_untruthy (vs : list json) :
  Forall (fun v => truthy v = false) vs -> truthy_opt (last vs) = false.
Proof.
  induction vs as [|v vs IH] using rev_ind; intros H; [reflexivity|].
  rewrite last_snoc. rewrite Forall_app, Forall_singleton in H.
  destruct H as [_ H]. exact H.
Qed.

Lemma done_payloads_untruthy msgs :
  Forall (fun m => truthy_opt (done_payload m) = false) msgs ->
  Forall (fun v => truthy v = false) (omap done_payload msgs).
Proof.
  induction 1 as [|m msgs Hm _ IH]; simpl; [constructor|].
  destruct (done_payload m) as [v|]; [constructor|]; assumption.
Qed.

Lemma quiet_cons p t texts :
  quiet p (t :: texts) ->
  truthy_opt (final (sink p)) = false /\ quiet (feed onMessage t p) texts.
Proof.
  intros H. split.
  - apply (H [] (t :: texts)); [reflexivity|discriminate].
  - intros pre post -> Hne. apply (H (t :: pre) post); [reflexivity|exact Hne].
Qed.

Lemma read_loop_chunks w ts texts rest p st :
  quiet p texts ->
  read_loop w ts (chunks texts ++ rest) p st
  = read_loop w ts rest (feed_all onMessage texts p)
      (after_reads w ts (length texts) st).
Proof.
  revert p st. induction texts as [|t texts IH]; intros p st Hq; [reflexivity|].
  apply quiet_cons in Hq as [Hp Hq]. simpl.
  rewrite Hp. unfold bind at 1. simpl. unfold bind at 1. simpl.
  rewrite IH by exact Hq. reflexivity.
Qed.

Lemma read_loop_closed w ts tail p st :
  closes tail -> truthy_opt (final (sink p)) = false ->
  read_loop w ts tail p st = (inr p, read_await w ts st).
Proof.
  intros Hc Hp. destruct tail as [|[v| |e] tail]; simpl in Hc; try contradiction;
    simpl; rewrite Hp; reflexivity.
Qed.

Lemma read_loop_captured w ts script p st :
  truthy_opt (final (sink p)) = true ->
  read_loop w ts script p st = (inr p, st).
Proof. intros Hp. destruct script; simpl; rewrite Hp; reflexivity. Qed.

(** A run in which no [done] message carries a truthy payload never
    leaves the loop early. *)
Lemma quiet_of_messages texts :
  Forall (fun m => truthy_opt (done_payload m) = false) (dispatched texts) ->
  quiet (createSseParser no_payload) texts
  /\ truthy_opt (final (sink (feed_all onMessage texts (createSseParser no_payload))))
     = false.
Proof.
  intros H. split.
  - intros pre post -> _. rewrite sink_feed_all, replay_final.
    destruct (dispatched_app pre post) as [new Hnew]. rewrite Hnew in H.
    rewrite Forall_app in H. destruct H as [H _].
    apply last_untruthy, done_payloads_untruthy, H.
  - rewrite sink_feed_all, replay_final.
    apply last_untruthy, done_payloads_untruthy, H.
Qed.

(** *** The [try] block, case by case *)

Lemma attempt_rejected client w agentId body ts signal st reason :
  fetch_result w = inl reason ->
  attempt client w agentId body ts signal st
  = (inl (Rejected reason), suspend w ts (sending client agentId body signal st)).
Proof. intros H. unfold Controller.attempt, bind, await. simpl. rewrite H. reflexivity. Qed.

Lemma attempt_not_ok client w agentId body ts signal st response :
  fetch_result w = inr response -> ok response = false ->
  let st1 := suspend w ts (suspend w ts (sending client agentId body signal st)) in
  attempt client w agentId body ts signal st
  = if (status response =? 422)%Z then
      (inl (SeclaiAPIValidationError "Validation error" (status response) "POST"
              (request_url URL_href client agentId)
              (safe (text_clone response)) (safe (json_clone response))),
       suspend w ts st1)
    else
      (inl (SeclaiAPIStatusError
              ("Request failed with status " +:+ Number_toString (status response))
              (status response) "POST" (request_url URL_href client agentId)
              (safe (text_clone response))),
       st1).
Proof.
  intros H Hok. unfold Controller.attempt, bind, await. simpl.
  rewrite H, Hok. simpl. destruct (status response =? 422)%Z; reflexivity.
Qed.

Lemma attempt_json client w agentId body ts signal st response :
  fetch_result w = inr response -> ok response = true ->
  includes "application/json" (default "" (content_type response)) = true ->
  attempt client w agentId body ts signal st
  = (match json_body response with
     | inr v => inr v
     | inl reason => inl (Rejected reason)
     end,
     suspend w ts (suspend w ts (sending client agentId body signal st))).
Proof.
  intros H Hok Hj. unfold Controller.attempt, bind, await. simpl.
  rewrite H, Hok, Hj. reflexivity.
Qed.

Lemma attempt_no_body client w agentId body ts signal st response :
  fetch_result w = inr response -> ok response = true ->
  includes "application/json" (default "" (content_type response)) = false ->
  Controller.body response = None ->
  attempt client w agentId body ts signal st
  = (inl no_stream_body, suspend w ts (sending client agentId body signal st)).
Proof.
  intros H Hok Hj Hb. unfold Controller.attempt, bind, await. simpl.
  rewrite H, Hok, Hj, Hb. reflexivity.
Qed.

Lemma attempt_stream client w agentId body ts signal st response script :
  fetch_result w = inr response -> ok response = true ->
  includes "application/json" (default "" (content_type response)) = false ->
  Controller.body response = Some script ->
  attempt client w agentId body ts signal st
  = match read_loop w ts script (createSseParser no_payload)
            (suspend w ts (sending client agentId body signal st)) with
    | (inr p, st') => (resolve (sink (end_ onMessage p)), st')
    | (inl e, st') => (inl e, st')
    end.
Proof.
  intros H Hok Hj Hb. unfold Controller.attempt, bind, await. simpl.
  rewrite H, Hok, Hj, Hb. simpl.
  destruct (read_loop _ _ _ _ _) as [[e|p] st']; reflexivity.
Qed.


(** *** The timeout flag records whether the timer has run *)

Lemma suspend_inv w ts st : timer_inv w st -> timer_inv w (suspend w ts st).
Proof.
  intros [Hiff Harm]. unfold suspend.
  destruct (timerArmed st) eqn:Ha; simpl.
  - destruct (timedOut st) eqn:Ht; [discriminate|].
    destruct (bool_decide (timer_fires_at w = Some (awaits st))) eqn:Hd; simpl.
    + apply bool_decide_eq_true in Hd. split; [|reflexivity].
      split; [|reflexivity]. intros _. exists (awaits st). split; [exact Hd|simpl; lia].
    + apply bool_decide_eq_false in Hd. rewrite Ha, Ht. split; [|reflexivity].
      split; [discriminate|]. intros (n & Hn & Hlt).
      destruct (decide (n = awaits st)) as [->|Hne]; [contradiction|].
      apply Hiff. exists n. split; [exact Hn|simpl in *; lia].
  - rewrite Ha. destruct (timedOut st) eqn:Ht; [|discriminate].
    split; [|reflexivity]. split; [|reflexivity]. intros _.
    destruct (proj1 Hiff eq_refl) as (n & Hn & Hlt). exists n. split; [exact Hn|simpl in *; lia].
Qed.

(** Whatever suspending at an await and counting a read preserve, the
    loop and the [try] block preserve. *)
Lemma read_loop_preserves (P : State -> Prop) w ts :
  (forall s, P s -> P (suspend w ts s)) ->
  (forall s, P s -> P (snd (count_read s))) ->
  forall script p st, P st -> P (snd (read_loop w ts script p st)).
Proof.
  intros Hsus Hcnt script.
  assert (Hra : forall s, P s -> P (read_await w ts s))
    by (intros s Hs; apply Hsus, Hcnt, Hs).
  induction script as [|r script IH]; intros p st H; simpl.
  - destruct (truthy_opt _); [exact H|]. apply Hra, H.
  - destruct (truthy_opt _); [exact H|].
    destruct r as [[t|]| |reason]; unfold bind; simpl;
      try (apply IH); apply Hra, H.
Qed.

Lemma attempt_preserves (P : State -> Prop) client w agentId body ts signal st :
  (forall s, P s -> P (suspend w ts s)) ->
  (forall s, P s -> P (snd (count_read s))) ->
  P (sending client agentId body signal st) ->
  P (snd (attempt client w agentId body ts signal st)).
Proof.
  intros Hsus Hcnt H0.
  assert (Hs : P (suspend w ts (sending client agentId body signal st)))
    by (apply Hsus, H0).
  destruct (fetch_result w) as [reason|response] eqn:Hf.
  { rewrite (attempt_rejected _ _ _ _ _ _ _ _ Hf). exact Hs. }
  destruct (ok response) eqn:Hok.
  2:{ rewrite (attempt_not_ok _ _ _ _ _ _ _ _ Hf Hok). cbv zeta.
      destruct (status response =? 422)%Z; cbn [snd]; auto. }
  destruct (includes "application/json" (default "" (content_type response))) eqn:Hj.
  { rewrite (attempt_json _ _ _ _ _ _ _ _ Hf Hok Hj). cbn [snd]. auto. }
  destruct (Controller.body response) as [script|] eqn:Hb.
  2:{ rewrite (attempt_no_body _ _ _ _ _ _ _ _ Hf Hok Hj Hb). exact Hs. }
  rewrite (attempt_stream _ _ _ _ _ _ _ _ _ Hf Hok Hj Hb).
  pose proof (read_loop_preserves P w ts Hsus Hcnt script
                (createSseParser no_payload) _ Hs) as Hl.
  destruct (read_loop _ _ _ _ _) as [[e|p] st']; exact Hl.
Qed.

(** The loop itself throws nothing but what a read rejects with. *)
Lemma read_loop_error w ts script p st e :
  fst (read_loop w ts script p st) = inl e -> exists reason, e = Rejected reason.
Proof.
  revert p st. induction script as [|r script IH]; intros p st; simpl.
  - destruct (truthy_opt _); discriminate.
  - destruct (truthy_opt _); [discriminate|].
    destruct r as [[t|]| |reason]; unfold bind; simpl;
      try (apply IH); try discriminate.
    intros [= <-]. eauto.
Qed.

Lemma resolve_error seen e : resolve seen = inl e -> e = stream_ended.
Proof.
  unfold resolve. destruct (truthy_opt (final seen)).
  - destruct (final seen); congruence.
  - destruct (lastSeen seen) as [v|]; [|congruence].
    destruct (_ && _); congruence.
Qed.

Lemma attempt_arises client w agentId body ts signal st e :
  fst (attempt client w agentId body ts signal st) = inl e -> arises e.
Proof.
  destruct (fetch_result w) as [reason|response] eqn:Hf.
  { rewrite (attempt_rejected _ _ _ _ _ _ _ _ Hf). intros [= <-]. exact I. }
  destruct (ok response) eqn:Hok.
  2:{ rewrite (attempt_not_ok _ _ _ _ _ _ _ _ Hf Hok). cbv zeta.
      destruct (status response =? 422)%Z; intros [= <-]; exact I. }
  destruct (includes "application/json" (default "" (content_type response))) eqn:Hj.
  { rewrite (attempt_json _ _ _ _ _ _ _ _ Hf Hok Hj). cbn [fst].
    destruct (json_body response); intros [= <-]. exact I. }
  destruct (Controller.body response) as [script|] eqn:Hb.
  2:{ rewrite (attempt_no_body _ _ _ _ _ _ _ _ Hf Hok Hj Hb). intros [= <-]. exact I. }
  rewrite (attempt_stream _ _ _ _ _ _ _ _ _ Hf Hok Hj Hb).
  pose proof (read_loop_error w ts script (createSseParser no_payload)
                (suspend w ts (sending client agentId body signal st))) as He.
  destruct (read_loop _ _ _ _ _) as [[e'|p] st']; cbn [fst] in *.
  - intros [= <-]. destruct (He e' eq_refl) as [reason ->]. exact I.
  - intros Hr. apply resolve_error in Hr. subst e. reflexivity.
Qed.

Lemma sent_suspend w ts st : sent (suspend w ts st) = sent st.
Proof. unfold suspend. destruct (_ && _); reflexivity. Qed.

Lemma attempt_spec client w agentId body ts signal st :
  timer_inv w st ->
  let out := attempt client w agentId body ts signal st in
  timer_inv w (snd out)
  /\ sent (snd out) = sent st ++ [request_of client agentId body signal]
  /\ forall e, fst out = inl e -> arises e.
Proof.
  intros Hinv. cbv zeta. split; [|split].
  - apply attempt_preserves; auto using suspend_inv.
  - apply (attempt_preserves
             (fun s => sent s = sent st ++ [request_of client agentId body signal]));
      [intros s <-; apply sent_suspend|auto|reflexivity].
  - intros e. apply attempt_arises.
Qed.

(** The signal of the request stays wired to the timeout controller. *)
Lemma suspend_wired w ts signal st :
  wired ts signal st -> wired ts signal (suspend w ts st).
Proof.
  intros (Hts & Hsig & Hfl). unfold suspend.
  destruct (timerArmed st && bool_decide (timer_fires_at w = Some (awaits st)));
    [|repeat split; assumption].
  unfold fire. cbn [store timedOut]. unfold wired. cbn [store timedOut].
  unfold Abort.abort. rewrite AbortFacts.abort_fuel_length.
  split; [exact Hts|]. split.
  - destruct Hsig as [->|(c & -> & Hl)]; [left; reflexivity|].
    right. exists c. split; [reflexivity|]. apply AbortFacts.abort_listens, Hl.
  - intros _. apply AbortFacts.abort_fuel_self; [lia|exact Hts].
Qed.

Lemma wired_triggered ts signal st :
  wired ts signal st -> timedOut st = true ->
  exists c, signal = Some c /\ Abort.is_aborted c (store st) = true.
Proof.
  intros (Hts & Hsig & Hfl) Ht. specialize (Hfl Ht).
  destruct Hsig as [->|(c & -> & Hl)]; [eauto|].
  exists c. split; [reflexivity|].
  apply (AbortFacts.listens_triggered _ ts); assumption.
Qed.

Lemma anySignal_two s t h :
  Abort.anySignal [Some s; Some t] h
  = (Some (length h),
     Abort.link (length h) [s; t]
       (h ++ [ {| Abort.aborted := false; Abort.listeners := [] |} ])).
Proof. reflexivity. Qed.

Lemma anySignal_one t h : Abort.anySignal [None; Some t] h = (Some t, h).
Proof. reflexivity. Qed.

Lemma prepare_wired opts h :
  wired (fst (fst (prepare opts h))) (snd (fst (prepare opts h)))
    (snd (prepare opts h)).
Proof.
  unfold prepare, Abort.newAbortController.
  set (h1 := h ++ [ {| Abort.aborted := false; Abort.listeners := [] |} ]).
  assert (Hlen : length h1 = S (length h))
    by (unfold h1; rewrite length_app; simpl; lia).
  assert (Hfresh : Abort.is_aborted (length h) h1 = false).
  { unfold Abort.is_aborted, h1. rewrite lookup_app_r by lia.
    rewrite Nat.sub_diag. reflexivity. }
  destruct (opts ≫= Controller.signal) as [s|].
  - rewrite anySignal_two. cbn [fst snd]. unfold wired. cbn [store timedOut].
    set (h2 := h1 ++ [ {| Abort.aborted := false; Abort.listeners := [] |} ]).
    assert (Hlen2 : length h2 = S (length h1))
      by (unfold h2; rewrite length_app; simpl; lia).
    assert (Hfresh2 : Abort.is_aborted (length h) h2 = false).
    { unfold Abort.is_aborted, h2. rewrite lookup_app_l by lia. exact Hfresh. }
    rewrite AbortFacts.link_length.
    split; [lia|]. split; [|discriminate].
    right. exists (length h1). split; [reflexivity|].
    cbn [Abort.link]. destruct (Abort.is_aborted s h2) eqn:Hs.
    + split; [unfold Abort.abort; rewrite AbortFacts.abort_fuel_length; lia|].
      left. apply AbortFacts.abort_fuel_self; lia.
    + rewrite AbortFacts.addEventListener_is_aborted, Hfresh2.
      apply AbortFacts.addEventListener_links.
      * rewrite AbortFacts.addEventListener_length. lia.
      * rewrite AbortFacts.addEventListener_length. lia.
      * rewrite AbortFacts.addEventListener_is_aborted. exact Hfresh2.
  - rewrite anySignal_one. cbn [fst snd]. unfold wired. cbn [store timedOut].
    split; [lia|]. split; [left; reflexivity|discriminate].
Qed.

Lemma prepare_inv w opts h :
  timer_inv w (snd (prepare opts h)) /\ sent (snd (prepare opts h)) = [].
Proof.
  unfold prepare. destruct (Abort.newAbortController h) as [ts h1].
  destruct (Abort.anySignal _ h1) as [sig h2]. simpl.
  split; [|reflexivity]. split; [|reflexivity].
  split; [discriminate|]. intros (n & _ & Hlt). simpl in Hlt. lia.
Qed.

Lemma attempted_unfold client w agentId body opts h :
  attempted client w agentId body opts h
  = attempt client w agentId body (fst (fst (prepare opts h)))
      (snd (fst (prepare opts h))) (snd (prepare opts h)).
Proof.
  unfold Controller.attempted. destruct (prepare opts h) as [[ts sig] st]. reflexivity.
Qed.

Lemma run_unfold client w agentId body opts h :
  run client w agentId body opts h
  = let out := attempted client w agentId body opts h in
    (match fst out with
     | inr v => inr v
     | inl err =>
         if timedOut (snd out)
         then inl (timed_out Number_toString (timeout_budget opts))
         else inl err
     end,
     clearTimeout (snd out)).
Proof.
  unfold Controller.runStreamingAgentAndWait.
  destruct (attempted client w agentId body opts h) as [[e|v] st]; simpl;
    [destruct (timedOut st)|]; reflexivity.
Qed.

(** When the flag is up, the signal handed to the fetcher is triggered. *)
Lemma attempted_signal client w agentId body opts h :
  timedOut (snd (attempted client w agentId body opts h)) = true ->
  exists c,
    sent (snd (attempted client w agentId body opts h))
    = [request_of client agentId body (Some c)]
    /\ Abort.is_aborted c (store (snd (attempted client w agentId body opts h)))
       = true.
Proof.
  rewrite attempted_unfold. intros Ht.
  destruct (prepare_inv w opts h) as [Hinv Hsent].
  destruct (attempt_spec client w agentId body (fst (fst (prepare opts h)))
              (snd (fst (prepare opts h))) _ Hinv) as (_ & Hs & _).
  assert (Hw : wired (fst (fst (prepare opts h))) (snd (fst (prepare opts h)))
                 (snd (attempt client w agentId body (fst (fst (prepare opts h)))
                         (snd (fst (prepare opts h))) (snd (prepare opts h))))).
  { apply attempt_preserves.
    - intros s. apply suspend_wired.
    - intros s Hs'. exact Hs'.
    - exact (prepare_wired opts h). }
  destruct (wired_triggered _ _ _ Hw Ht) as (c & Hc & Ha).
  exists c. split; [rewrite Hs, Hsent, Hc; reflexivity|exact Ha].
Qed.

(** When the timer does not run during the call, the flag stays down. *)
Lemma attempted_no_timer client w agentId body opts h :
  timer_fires_at w = None ->
  timedOut (snd (attempted client w agentId body opts h)) = false.
Proof.
  intros Hnone. rewrite attempted_unfold.
  destruct (prepare_inv w opts h) as [Hinv _].
  destruct (attempt_spec client w agentId body (fst (fst (prepare opts h)))
              (snd (fst (prepare opts h))) _ Hinv) as ([Hiff _] & _).
  destruct (timedOut _); [|reflexivity].
  destruct (proj1 Hiff eq_refl) as (n & Hn & _). congruence.
Qed.

Lemma run_no_timer client w agentId body opts h :
  timer_fires_at w = None ->
  fst (run client w agentId body opts h)
  = fst (attempted client w agentId body opts h).
Proof.
  intros Hnone. rewrite run_unfold. cbv zeta. simpl.
  rewrite (attempted_no_timer _ _ _ _ _ _ Hnone).
  destruct (fst (attempted client w agentId body opts h)); reflexivity.
Qed.

(** *** A stream that is read to its end *)

Lemma reads_suspend w ts st : reads (suspend w ts st) = reads st.
Proof. unfold suspend. destruct (_ && _); reflexivity. Qed.

Lemma reads_after_reads w ts n st :
  reads (after_reads w ts n st) = n + reads st.
Proof.
  revert st. induction n as [|n IH]; intros st; simpl; [reflexivity|].
  rewrite IH. unfold read_await. rewrite reads_suspend. simpl. lia.
Qed.

Lemma reads_prepare opts h : reads (snd (prepare opts h)) = 0.
Proof.
  unfold prepare. destruct (Abort.newAbortController h) as [ts h1].
  destruct (Abort.anySignal _ h1) as [sg h2]. reflexivity.
Qed.

Lemma attempted_stream_closed client w agentId body opts h response texts tail :
  fetch_result w = inr response -> ok response = true ->
  includes "application/json" (default "" (content_type response)) = false ->
  Controller.body response = Some (chunks texts ++ tail) ->
  closes tail ->
  Forall (fun m => truthy_opt (done_payload m) = false) (dispatched texts) ->
  fst (attempted client w agentId body opts h)
  = resolve (replay onMessage no_payload (emitted texts))
  /\ reads (snd (attempted client w agentId body opts h)) = S (length texts).
Proof.
  intros Hf Hok Hj Hb Hc Hq. rewrite attempted_unfold.
  rewrite (attempt_stream _ _ _ _ _ _ _ _ _ Hf Hok Hj Hb).
  destruct (quiet_of_messages texts Hq) as [Hquiet Hlast].
  rewrite (read_loop_chunks _ _ _ _ _ _ Hquiet).
  rewrite (read_loop_closed _ _ _ _ _ Hc Hlast).
  rewrite sink_end_feed_all. split; [reflexivity|]. cbn [snd].
  unfold read_await at 1. rewrite reads_suspend. cbn [count_read snd reads].
  rewrite reads_after_reads, reads_suspend. unfold sending, send. cbn [snd reads].
  rewrite reads_prepare. lia.
Qed.


(** *** A stream in which a payload is captured *)

Lemma quiet_snoc texts text :
  Forall (fun m => truthy_opt (done_payload m) = false) (dispatched texts) ->
  quiet (createSseParser no_payload) (texts ++ [text]).
Proof.
  intros H pre post Heq Hne.
  destruct post as [|x post _] using rev_ind; [contradiction|].
  rewrite app_assoc in Heq. apply app_inj_tail in Heq as [-> _].
  rewrite sink_feed_all, replay_final.
  destruct (dispatched_app pre post) as [new Hnew]. rewrite Hnew in H.
  rewrite Forall_app in H. destruct H as [H _].
  apply last_untruthy, done_payloads_untruthy, H.
Qed.

Lemma attempted_stream_captured client w agentId body opts h response
    texts text rest :
  fetch_result w = inr response -> ok response = true ->
  includes "application/json" (default "" (content_type response)) = false ->
  Controller.body response = Some (chunks (texts ++ [text]) ++ rest) ->
  Forall (fun m => truthy_opt (done_payload m) = false) (dispatched texts) ->
  truthy_opt (last (omap done_payload (dispatched (texts ++ [text])))) = true ->
  fst (attempted client w agentId body opts h)
  = resolve (replay onMessage no_payload (emitted (texts ++ [text])))
  /\ reads (snd (attempted client w agentId body opts h)) = S (length texts).
Proof.
  intros Hf Hok Hj Hb Hq Hcap. rewrite attempted_unfold.
  rewrite (attempt_stream _ _ _ _ _ _ _ _ _ Hf Hok Hj Hb).
  rewrite (read_loop_chunks _ _ _ _ _ _ (quiet_snoc _ text Hq)).
  rewrite read_loop_captured
    by (rewrite sink_feed_all, replay_final; exact Hcap).
  rewrite sink_end_feed_all. split; [reflexivity|]. cbn [snd].
  rewrite reads_after_reads, reads_suspend. unfold sending, send. cbn [snd reads].
  rewrite reads_prepare, length_app. simpl. lia.
Qed.

End Platform.
End ControllerFacts.

(** ** Name-value lists: [set] and [get] *)
Module NameFacts.
Import Executor.
Section Pairs.
Context {A : Type}.
Implicit Types l : list (string * A).

Lemma get_delete_ne name k l :
  k <> name -> get_name k (delete_name name l) = get_name k l.
Proof.
  intros Hne. unfold delete_name.
  induction l as [|[k' v'] l IH]; [reflexivity|].
  rewrite filter_cons. simpl. destruct (decide (k' <> name)) as [Hk|Hk].
  - simpl. rewrite IH. reflexivity.
  - apply dec_stable in Hk. subst k'.
    rewrite IH. destruct (String.eqb_spec name k); [congruence|reflexivity].
Qed.

Lemma get_set_eq name (v : A) l : get_name name (set_name name v l) = Some v.
Proof.
  induction l as [|[k' v'] l IH]; simpl.
  - rewrite String.eqb_refl. reflexivity.
  - destruct (String.eqb_spec k' name); simpl.
    + rewrite String.eqb_refl. reflexivity.
    + destruct (String.eqb_spec k' name); [contradiction|exact IH].
Qed.

Lemma get_set_ne name k (v : A) l :
  k <> name -> get_name k (set_name name v l) = get_name k l.
Proof.
  intros Hne. induction l as [|[k' v'] l IH]; simpl.
  - destruct (String.eqb_spec name k); [congruence|reflexivity].
  - destruct (String.eqb_spec k' name) as [->|Hk]; simpl.
    + destruct (String.eqb_spec name k); [congruence|].
      apply get_delete_ne, Hne.
    + rewrite IH. reflexivity.
Qed.

Lemma count_delete_eq name l : count_name name (delete_name name l) = 0.
Proof.
  unfold count_name, delete_name. induction l as [|[k' v'] l IH]; [reflexivity|].
  rewrite filter_cons. simpl. destruct (decide (k' <> name)) as [Hk|Hk]; [|exact IH].
  rewrite filter_cons. simpl. destruct (decide (k' = name)); [contradiction|exact IH].
Qed.

Lemma count_delete_ne name k l :
  k <> name -> count_name k (delete_name name l) = count_name k l.
Proof.
  intros Hne. unfold count_name, delete_name.
  induction l as [|[k' v'] l IH]; [reflexivity|].
  rewrite (filter_cons (fun kv => kv.1 <> name)). simpl.
  destruct (decide (k' <> name)) as [Hk|Hk].
  - rewrite !(filter_cons (fun kv => kv.1 = k)). simpl.
    destruct (decide (k' = k)); simpl; rewrite IH; reflexivity.
  - apply dec_stable in Hk. subst k'.
    rewrite (filter_cons (fun kv => kv.1 = k)). simpl.
    destruct (decide (name = k)); [congruence|exact IH].
Qed.

(** After [set], the name occurs exactly once. *)
Lemma count_set_eq name (v : A) l : count_name name (set_name name v l) = 1.
Proof.
  induction l as [|[k' v'] l IH]; simpl.
  - unfold count_name. rewrite filter_cons. simpl.
    destruct (decide (name = name)); [reflexivity|congruence].
  - destruct (String.eqb_spec k' name) as [->|Hk].
    + unfold count_name. rewrite filter_cons. simpl.
      destruct (decide (name = name)); [|congruence]. simpl.
      fold (count_name name (delete_name name l)).
      rewrite count_delete_eq. reflexivity.
    + unfold count_name in *. rewrite filter_cons. simpl.
      destruct (decide (k' = name)); [contradiction|exact IH].
Qed.

Lemma count_set_ne name k (v : A) l :
  k <> name -> count_name k (set_name name v l) = count_name k l.
Proof.
  intros Hne. induction l as [|[k' v'] l IH]; simpl.
  - unfold count_name. rewrite filter_cons. simpl.
    destruct (decide (name = k)); [congruence|reflexivity].
  - destruct (String.eqb_spec k' name) as [->|Hk].
    + unfold count_name. rewrite !filter_cons. simpl.
      destruct (decide (name = k)); [congruence|].
      fold (count_name k (delete_name name l)). fold (count_name k l).
      apply count_delete_ne, Hne.
    + unfold count_name in *. rewrite !filter_cons. simpl.
      destruct (decide (k' = k)); simpl; rewrite IH; reflexivity.
Qed.

End Pairs.
End NameFacts.

(** ** The request executor *)
Module ExecutorFacts.
Import Executor NameFacts.
Section Platform.
Variable Blob : Type.
Variable Blob_new : string -> option string -> Blob.
Variable JSON_stringify : json -> string.
Variable Number_toString : Z -> string.
Variable URL_new : string -> string -> string + Url.
Variable URL_toString : Url -> string.

Abbreviation String_of := (Executor.String_of Number_toString).
Abbreviation set_entry := (Executor.set_entry Number_toString).
Abbreviation buildURL := (Executor.buildURL Number_toString URL_new).

Lemma set_entry_location u e : location (set_entry u e) = location u.
Proof. unfold Executor.set_entry. destruct (absent (snd e)); reflexivity. Qed.

Lemma set_entry_get u k v name :
  get_name name (searchParams (set_entry u (k, v)))
  = if (k =? name)%string && negb (absent v) then Some (String_of v)
    else get_name name (searchParams u).
Proof.
  unfold Executor.set_entry. simpl. destruct (absent v); simpl.
  - rewrite andb_false_r. reflexivity.
  - rewrite andb_true_r. destruct (String.eqb_spec k name) as [->|Hne].
    + apply get_set_eq.
    + apply get_set_ne. congruence.
Qed.

Lemma set_entry_count u k v name :
  count_name name (searchParams (set_entry u (k, v)))
  = if (k =? name)%string && negb (absent v) then 1
    else count_name name (searchParams u).
Proof.
  unfold Executor.set_entry. simpl. destruct (absent v); simpl.
  - rewrite andb_false_r. reflexivity.
  - rewrite andb_true_r. destruct (String.eqb_spec k name) as [->|Hne].
    + apply count_set_eq.
    + apply count_set_ne. congruence.
Qed.

Lemma fold_set_entry_location entries u :
  location (fold_left set_entry entries u) = location u.
Proof.
  revert u. induction entries as [|e entries IH]; intros u; simpl; [reflexivity|].
  rewrite IH. apply set_entry_location.
Qed.

Lemma fold_set_entry_get entries u name :
  get_name name (searchParams (fold_left set_entry entries u))
  = match last_present name entries with
    | Some v => Some (String_of v)
    | None => get_name name (searchParams u)
    end.
Proof.
  revert u. induction entries as [|[k v] entries IH]; intros u; simpl; [reflexivity|].
  rewrite IH. destruct (last_present name entries); [reflexivity|].
  rewrite set_entry_get. destruct (_ && _); reflexivity.
Qed.

Lemma fold_set_entry_count entries u name :
  count_name name (searchParams (fold_left set_entry entries u))
  = match last_present name entries with
    | Some _ => 1
    | None => count_name name (searchParams u)
    end.
Proof.
  revert u. induction entries as [|[k v] entries IH]; intros u; simpl; [reflexivity|].
  rewrite IH. destruct (last_present name entries); [reflexivity|].
  rewrite set_entry_count. destruct (_ && _); reflexivity.
Qed.

Abbreviation request :=
  (Executor.request Blob JSON_stringify Number_toString URL_new URL_toString).
Abbreviation call_of := (Executor.call_of Blob JSON_stringify).

Lemma buildURL_found baseUrl path query u :
  URL_new path baseUrl = inr u ->
  exists url,
    buildURL baseUrl path query = inr url
    /\ location url = location u
    /\ forall name,
         get_name name (searchParams url)
         = match query ≫= last_present name with
           | Some v => Some (String_of v)
           | None => get_name name (searchParams u)
           end
         /\ count_name name (searchParams url)
            = match query ≫= last_present name with
              | Some _ => 1
              | None => count_name name (searchParams u)
              end.
Proof.
  intros Hu. unfold Executor.buildURL. rewrite Hu.
  destruct query as [entries|]; simpl.
  - eexists. split; [reflexivity|]. split; [apply fold_set_entry_location|].
    intros name. split; [apply fold_set_entry_get|apply fold_set_entry_count].
  - eexists. split; [reflexivity|]. split; [reflexivity|].
    intros name. split; reflexivity.
Qed.

Lemma request_calls client fetcher method path query json headers url :
  buildURL (Controller.baseUrl client) path query = inr url ->
  snd (request client fetcher method path query json headers)
  = [call_of client method url json headers].
Proof. intros Hu. unfold Executor.request. rewrite Hu. reflexivity. Qed.

(** The call of a request without a body, from the URL that
    [new URL] gives. *)
Lemma request_plain client fetcher method path query u :
  URL_new path (Controller.baseUrl client) = inr u ->
  exists call,
    snd (request client fetcher method path query None None) = [call]
    /\ call_method call = method
    /\ call_body call = NoBody
    /\ location (call_url call) = location u
    /\ forall name,
         get_name name (searchParams (call_url call))
         = match query ≫= last_present name with
           | Some v => Some (String_of v)
           | None => get_name name (searchParams u)
           end
         /\ count_name name (searchParams (call_url call))
            = match query ≫= last_present name with
              | Some _ => 1
              | None => count_name name (searchParams u)
              end.
Proof.
  intros Hu.
  destruct (buildURL_found _ _ query _ Hu) as (url & Hb & Hl & Hq).
  exists (call_of client method url None None).
  split; [apply request_calls, Hb|]. repeat split; try assumption; apply Hq.
Qed.


Lemma ok_not_204 r : ok r = false -> (status r =? 204)%Z = false.
Proof. unfold ok. intros H. lia. Qed.

End Platform.
End ExecutorFacts.

(** ** The parser, one complete line at a time *)
Module SseLineFacts.
Import Sse SseFacts.

Lemma indexOf_nl_end (b : string) :
  indexOf LF b = None -> indexOf LF (b +:+ nl) = Some (String.length b).
Proof.
  intros H. rewrite (indexOf_app_None _ _ _ H). simpl.
  rewrite Nat.add_0_r. reflexivity.
Qed.

Lemma slice_to_length (b c : string) : slice_to (String.length b) (b +:+ c) = b.
Proof. induction b as [|a b IH]; simpl; [destruct c|rewrite IH]; reflexivity. Qed.

Lemma slice_from_length (b c : string) :
  slice_from (String.length b) (b +:+ c) = c.
Proof. induction b as [|a b IH]; simpl; [reflexivity|exact IH]. Qed.

Lemma slice_from_past (b : string) :
  slice_from (String.length b + 1) (b +:+ nl) = "".
Proof. induction b as [|a b IH]; simpl; [reflexivity|exact IH]. Qed.

Lemma indexOf_snoc_CR (l : string) :
  indexOf LF l = None -> indexOf LF (l +:+ String CR "") = None.
Proof. intros H. rewrite (indexOf_app_None _ _ _ H). reflexivity. Qed.

Lemma endsWith_snoc (c : ascii) (l : string) :
  endsWith c (l +:+ String c "") = true.
Proof.
  induction l as [|a l IH]; simpl; [apply Ascii.eqb_refl|].
  destruct (l +:+ String c "") eqn:E; [destruct l; discriminate|exact IH].
Qed.

Lemma drop_last_snoc (c : ascii) (l : string) :
  drop_last (l +:+ String c "") = l.
Proof.
  induction l as [|a l IH]; simpl; [reflexivity|].
  destruct (l +:+ String c "") eqn:E; [destruct l; discriminate|].
  rewrite IH. reflexivity.
Qed.

Section Generic.
Context {T : Type} (onMessage : SseMessage -> T -> T).
Implicit Types p q : Parser T.

(** A chunk without a line feed only lengthens the buffer. *)
Lemma feed_partial c p :
  indexOf LF (buffer p +:+ c) = None ->
  feed onMessage c p = set_buffer (buffer p +:+ c) p.
Proof. intros H. unfold feed. apply feed_loop_no_newline. exact H. Qed.

(** A line feed completes the line held in the buffer. *)
Lemma feed_newline p :
  indexOf LF (buffer p) = None ->
  feed onMessage nl p = feed_line onMessage (buffer p) (set_buffer "" p).
Proof.
  intros H. unfold feed.
  rewrite (feed_loop_step onMessage _ _ (String.length (buffer p)))
    by (cbn [buffer set_buffer]; apply indexOf_nl_end, H).
  cbn [buffer set_buffer]. rewrite slice_to_length, slice_from_past.
  rewrite set_buffer_set_buffer.
  apply feed_loop_no_newline. rewrite buffer_feed_line. reflexivity.
Qed.

Lemma feed_one_line line p :
  buffer p = "" -> indexOf LF line = None ->
  feed onMessage (line +:+ nl) p = feed_line onMessage line p.
Proof.
  intros Hb Hl. destruct p as [b e d s]. simpl in Hb. subst b.
  rewrite <- feed_feed.
  rewrite (feed_partial line) by exact Hl.
  rewrite feed_newline by exact Hl. reflexivity.
Qed.

Lemma feed_line_crlf line p :
  endsWith CR line = false ->
  feed_line onMessage (line +:+ String CR "") p = feed_line onMessage line p.
Proof.
  intros H. unfold feed_line. rewrite endsWith_snoc, drop_last_snoc, H.
  reflexivity.
Qed.

Lemma feed_all_app cs cs' p :
  feed_all onMessage (cs ++ cs') p
  = feed_all onMessage cs' (feed_all onMessage cs p).
Proof. unfold feed_all. apply fold_left_app. Qed.

(** Whole lines fed one per chunk to a parser with an empty buffer. *)
Lemma feed_all_whole_lines (ending : string -> string) lines p :
  buffer p = "" ->
  (forall l q, buffer q = "" -> l ∈ lines ->
               feed onMessage (ending l) q = feed_line onMessage l q) ->
  feed_all onMessage (map ending lines) p
  = fold_left (fun q l => feed_line onMessage l q) lines p.
Proof.
  revert p. induction lines as [|l lines IH]; intros p Hb Hstep; [reflexivity|].
  cbn [map feed_all fold_left].
  rewrite Hstep by (auto; left).
  apply IH; [rewrite buffer_feed_line; exact Hb|].
  intros l' q Hq Hin. apply Hstep; [exact Hq|right; exact Hin].
Qed.

(** A blank line, then [end()]: the second dispatch finds nothing. *)
Lemma end_after_blank text p :
  indexOf LF (buffer p) = None ->
  end_ onMessage (feed onMessage ((text +:+ nl) +:+ nl) p)
  = feed onMessage ((text +:+ nl) +:+ nl) p.
Proof.
  intros Hp. rewrite <- feed_feed.
  set (q := feed onMessage (text +:+ nl) p).
  assert (Hq : buffer q = "").
  { unfold q. rewrite <- feed_feed. rewrite feed_newline by apply feed_returns.
    rewrite buffer_feed_line. reflexivity. }
  rewrite feed_newline by (rewrite Hq; reflexivity).
  rewrite Hq. change (feed_line onMessage "" (set_buffer "" q))
    with (dispatch onMessage (set_buffer "" q)).
  unfold end_.
  set (r := set_buffer "" q).
  destruct (not_eventName (eventName r) && (length (dataLines r) =? 0)%nat) eqn:Hg.
  - assert (Hr : dispatch onMessage r = r)
      by (unfold dispatch; rewrite Hg; reflexivity).
    rewrite !Hr. reflexivity.
  - assert (Hr : dispatch onMessage r
                 = {| buffer := buffer r; eventName := None; dataLines := [];
                      sink := onMessage
                                {| data := join nl (dataLines r);
                                   event := eventName r |} (sink r) |})
      by (unfold dispatch; rewrite Hg; reflexivity).
    rewrite !Hr. reflexivity.
Qed.

End Generic.
End SseLineFacts.

(** ** The coordinator leaves the signals it is given alone *)
Module AbortFrameFacts.
Import Abort AbortFacts.

Abbreviation untouched := ({| aborted := false; listeners := [] |}).




End AbortFrameFacts.

(** ** The controller: the request it sends and the ways it fails *)
Module ControllerMoreFacts.
Import Sse SseFacts SseLog Controller ControllerFacts.
#[local] Arguments Controller.suspend : simpl never.
Section Platform.
Variable JSON_parse : string -> option json.
Variable JSON_stringify : json -> string.
Variable Number_toString : Z -> string.
Variable URL_href : string -> string -> string.

Abbreviation onMessage := (Controller.onMessage JSON_parse).
Abbreviation done_payload := (Controller.done_payload JSON_parse).
Abbreviation read_loop := (Controller.read_loop JSON_parse).
Abbreviation attempt :=
  (Controller.attempt JSON_parse JSON_stringify Number_toString URL_href).
Abbreviation attempted :=
  (Controller.attempted JSON_parse JSON_stringify Number_toString URL_href).
Abbreviation run :=
  (Controller.runStreamingAgentAndWait JSON_parse JSON_stringify Number_toString
     URL_href).
Abbreviation sending := (Controller.sending JSON_stringify URL_href).
Abbreviation request_of := (Controller.request_of JSON_stringify URL_href).
Abbreviation status_failure := (Controller.status_failure Number_toString URL_href).




Lemma read_loop_fails w ts reason rest p st :
  truthy_opt (final (sink p)) = false ->
  read_loop w ts (ReadFails reason :: rest) p st
  = (inl (Rejected reason), read_await w ts st).
Proof. intros Hp. simpl. rewrite Hp. reflexivity. Qed.


(** The flag after the one await of a call that ends at the response. *)
Lemma timedOut_first_await client w agentId body opts h :
  timedOut (suspend w (fst (fst (prepare opts h)))
              (sending client agentId body (snd (fst (prepare opts h)))
                 (snd (prepare opts h))))
  = bool_decide (timer_fires_at w = Some 0).
Proof.
  unfold prepare. destruct (Abort.newAbortController h) as [ts h1].
  destruct (Abort.anySignal _ h1) as [sg h2]. cbn [fst snd].
  unfold suspend, Controller.sending, send. cbn.
  destruct (bool_decide (timer_fires_at w = Some 0)); reflexivity.
Qed.

Lemma awaits_suspend w ts st : awaits (suspend w ts st) = S (awaits st).
Proof. unfold suspend. destruct (_ && _); reflexivity. Qed.

Lemma awaits_prepare opts h : awaits (snd (prepare opts h)) = 0.
Proof.
  unfold prepare. destruct (Abort.newAbortController h) as [ts h1].
  destruct (Abort.anySignal _ h1) as [sg h2]. reflexivity.
Qed.

(** The awaits of a call that ends at a response with a status
    outside 200..299: the fetcher and the text of the response, and
    its JSON for status 422. *)
Lemma attempted_not_ok_awaits client w agentId body opts h response :
  fetch_result w = inr response -> ok response = false ->
  awaits (snd (attempted client w agentId body opts h))
  = if (status response =? 422)%Z then 3 else 2.
Proof.
  intros Hf Hok.
  rewrite (attempted_unfold JSON_parse JSON_stringify Number_toString URL_href).
  rewrite (attempt_not_ok _ _ _ _ _ _ _ _ _ _ _ _ Hf Hok). cbv zeta.
  destruct (status response =? 422)%Z; cbn [snd];
    rewrite !awaits_suspend; unfold Controller.sending, send; cbn [snd awaits];
    rewrite awaits_prepare; reflexivity.
Qed.

(** The flag at the end of the [try] block says whether the timer
    has run. *)
Lemma attempted_timedOut client w agentId body opts h :
  timedOut (snd (attempted client w agentId body opts h)) = true
  <-> exists n, timer_fires_at w = Some n
                /\ n < awaits (snd (attempted client w agentId body opts h)).
Proof.
  rewrite (attempted_unfold JSON_parse JSON_stringify Number_toString URL_href).
  destruct (prepare_inv w opts h) as [Hinv _].
  destruct (attempt_spec JSON_parse JSON_stringify Number_toString URL_href
              client w agentId body (fst (fst (prepare opts h)))
              (snd (fst (prepare opts h))) _ Hinv) as ([Hiff _] & _).
  exact Hiff.
Qed.

(** What the [catch] block makes of the outcome of the [try] block. *)
Lemma run_outcome client w agentId body opts h :
  fst (run client w agentId body opts h)
  = match fst (attempted client w agentId body opts h) with
    | inr v => inr v
    | inl e =>
        inl (if timedOut (snd (attempted client w agentId body opts h))
             then SeclaiError
                    ("Timed out after " +:+ Number_toString (timeout_budget opts)
                     +:+ "ms waiting for streaming agent run to complete.")
             else e)
    end.
Proof.
  rewrite (run_unfold JSON_parse JSON_stringify Number_toString URL_href).
  cbv zeta. cbn [fst].
  destruct (fst (attempted client w agentId body opts h)); [|reflexivity].
  destruct (timedOut _); reflexivity.
Qed.

Lemma run_timer_cancelled client w agentId body opts h :
  timerArmed (snd (run client w agentId body opts h)) = false.
Proof.
  rewrite (run_unfold JSON_parse JSON_stringify Number_toString URL_href).
  reflexivity.
Qed.

End Platform.
End ControllerMoreFacts.

(** ** The version script *)
Module SetVersionFacts.
Import SetVersion.

Lemma lookup_set_field k v fields :
  lookup_field k (Platform.set_field k v fields) = Some v.
Proof.
  induction fields as [|[k' v'] fields IH]; simpl.
  - rewrite String.eqb_refl. reflexivity.
  - destruct (k' =? k)%string eqn:E; simpl; rewrite E; [reflexivity|exact IH].
Qed.


(** Assigning a property twice leaves the second value, in place. *)
Lemma set_field_twice k v v' fields :
  Platform.set_field k v (Platform.set_field k v' fields)
  = Platform.set_field k v fields.
Proof.
  induction fields as [|[k0 v0] fields IH]; simpl.
  - rewrite String.eqb_refl. reflexivity.
  - destruct (k0 =? k)%string eqn:E; simpl; rewrite E; [reflexivity|].
    rewrite IH. reflexivity.
Qed.

(** Assigning a property the value it has changes nothing. *)
Lemma set_field_same k v fields :
  lookup_field k fields = Some v -> Platform.set_field k v fields = fields.
Proof.
  induction fields as [|[k0 v0] fields IH]; simpl; [discriminate|].
  destruct (k0 =? k)%string eqn:E.
  - intros [= ->]. reflexivity.
  - intros H. rewrite (IH H). reflexivity.
Qed.

Section Platform.
Variable trim : string -> string.

Abbreviation normalizeVersion := (SetVersion.normalizeVersion trim).
Abbreviation apply := (SetVersion.apply trim).

Abbreviation effective := (SetVersion.effective trim).

Lemma apply_effective VERSION fs :
  apply VERSION fs
  = match effective VERSION with
    | None => fs
    | Some v =>
        {| package_json := Platform.set_field "version" (JString v) (package_json fs);
           backup := match backup fs with
                     | Some b => Some b
                     | None => Some (version_record (package_json fs))
                     end |}
    end.
Proof.
  unfold SetVersion.apply, SetVersion.effective.
  destruct (normalizeVersion VERSION) as [v|]; [|reflexivity].
  destruct (nonempty v); reflexivity.
Qed.

End Platform.
End SetVersionFacts.

(** ** The version script on its files, run by run *)
Module SetVersionScriptFacts.
Import SetVersion SetVersionFacts SetVersionScript.
Section Platform.
Variable trim : string -> string.
Variable JSON_parse : string -> option json.
Variable JSON_format : json -> string.

Abbreviation effective := (SetVersion.effective trim).
Abbreviation written := (SetVersionScript.written JSON_format).
Abbreviation reads_back := (SetVersionScript.reads_back JSON_parse JSON_format).
Abbreviation main := (SetVersionScript.main trim JSON_parse JSON_format).
Abbreviation run_all := (SetVersionScript.run_all trim JSON_parse JSON_format).

Lemma apply_command_effective VERSION :
  apply_command trim JSON_parse JSON_format VERSION
  = match effective VERSION with
    | None => exit 0
    | Some envVersion =>
        bind (readJson JSON_parse PACKAGE_JSON) (fun pkg =>
        bind (existsSync BACKUP) (fun present =>
        bind (if negb present
              then bind (get_version pkg)
                     (fun v => writeJson JSON_format BACKUP (record_of v))
              else ret tt) (fun _ =>
        bind (set_version (JString envVersion) pkg) (fun pkg' =>
        bind (writeJson JSON_format PACKAGE_JSON pkg') (fun _ => exit 0)))))
    end.
Proof.
  unfold apply_command, SetVersion.effective.
  destruct (normalizeVersion trim VERSION) as [v|]; [|reflexivity].
  destruct (nonempty v); reflexivity.
Qed.

Lemma main_apply VERSION d :
  main (Some "apply") VERSION d
  = match apply_command trim JSON_parse JSON_format VERSION d with
    | (inl halt, d') => (d', exit_code halt)
    | (inr _, d') => (d', 0%Z)
    end.
Proof. reflexivity. Qed.

Lemma main_restore VERSION d :
  main (Some "restore") VERSION d
  = match restore_command JSON_parse JSON_format d with
    | (inl halt, d') => (d', exit_code halt)
    | (inr _, d') => (d', 0%Z)
    end.
Proof. reflexivity. Qed.

(** A run of [apply] without a version to write touches nothing. *)
Lemma main_apply_skip VERSION d :
  effective VERSION = None -> main (Some "apply") VERSION d = (d, 0%Z).
Proof.
  intros He. rewrite main_apply, apply_command_effective, He. reflexivity.
Qed.

(** The first run of [apply] that writes. *)
Lemma main_apply_first VERSION v d text fields :
  effective VERSION = Some v ->
  package_file d = Some text ->
  backup_file d = None ->
  JSON_parse text = Some (JObject fields) ->
  main (Some "apply") VERSION d
  = ({| package_file :=
          Some (written (JObject (Platform.set_field "version" (JString v) fields)));
        backup_file :=
          Some (written (record_of (lookup_field "version" fields))) |},
     0%Z).
Proof.
  intros He Hp Hb Ht. rewrite main_apply, apply_command_effective, He.
  destruct d as [pf bf]. cbn in Hp, Hb. subst pf bf.
  unfold bind, readJson, existsSync. cbn. rewrite Ht. reflexivity.
Qed.

(** A later run of [apply]: the backup stays. *)
Lemma main_apply_again VERSION v d text kept fields :
  effective VERSION = Some v ->
  package_file d = Some text ->
  backup_file d = Some kept ->
  JSON_parse text = Some (JObject fields) ->
  main (Some "apply") VERSION d
  = ({| package_file :=
          Some (written (JObject (Platform.set_field "version" (JString v) fields)));
        backup_file := Some kept |},
     0%Z).
Proof.
  intros He Hp Hb Ht. rewrite main_apply, apply_command_effective, He.
  destruct d as [pf bf]. cbn in Hp, Hb. subst pf bf.
  unfold bind, readJson, existsSync. cbn. rewrite Ht. reflexivity.
Qed.

Lemma main_restore_none VERSION d :
  backup_file d = None -> main (Some "restore") VERSION d = (d, 0%Z).
Proof.
  intros Hb. rewrite main_restore. destruct d as [pf bf]. cbn in Hb. subst bf.
  reflexivity.
Qed.

(** [restore] from a backup that holds a string version. *)
Lemma main_restore_string VERSION d text kept fields b s :
  package_file d = Some text ->
  backup_file d = Some kept ->
  JSON_parse kept = Some b ->
  b <> JNull ->
  get "version" b = Some (JString s) ->
  JSON_parse text = Some (JObject fields) ->
  main (Some "restore") VERSION d
  = ({| package_file :=
          Some (written (JObject (Platform.set_field "version" (JString s) fields)));
        backup_file := None |},
     0%Z).
Proof.
  intros Hp Hb Hk Hn Hv Ht. rewrite main_restore.
  destruct d as [pf bf]. cbn in Hp, Hb. subst pf bf.
  unfold restore_command, bind, readJson, existsSync. cbn.
  rewrite Hk. cbn. rewrite Ht. cbn. unfold get_version.
  destruct b; try contradiction; cbn in Hv |- *; try discriminate.
  rewrite Hv. reflexivity.
Qed.

(** [restore] from a backup without a string version: the package
    file is not written. *)
Lemma main_restore_other VERSION d text kept pkg b :
  package_file d = Some text ->
  backup_file d = Some kept ->
  JSON_parse kept = Some b ->
  b <> JNull ->
  (forall s, get "version" b <> Some (JString s)) ->
  JSON_parse text = Some pkg ->
  main (Some "restore") VERSION d
  = ({| package_file := Some text; backup_file := None |}, 0%Z).
Proof.
  intros Hp Hb Hk Hn Hv Ht. rewrite main_restore.
  destruct d as [pf bf]. cbn in Hp, Hb. subst pf bf.
  unfold restore_command, bind, readJson, existsSync. cbn.
  rewrite Hk. cbn. rewrite Ht. cbn. unfold get_version.
  destruct b; try contradiction; cbn;
    try reflexivity.
  destruct (lookup_field "version" fields) as [x|] eqn:Hx; [|reflexivity].
  destruct x; try reflexivity. exfalso. apply (Hv s). cbn. exact Hx.
Qed.

Lemma run_all_cons command VERSION rest d :
  run_all ((command, VERSION) :: rest) d
  = (fst (run_all rest (fst (main command VERSION d))),
     snd (main command VERSION d)
     :: snd (run_all rest (fst (main command VERSION d)))).
Proof.
  cbn [SetVersionScript.run_all].
  destruct (main command VERSION d) as [d1 code]. cbn [fst snd].
  destruct (run_all rest d1) as [d2 codes]. reflexivity.
Qed.

(** Runs of [apply] and one [restore], once a version has been
    written. *)
Lemma run_all_from_written versions fields original v :
  lookup_field "version" fields = Some (JString original) ->
  reads_back (JObject [("version", JString original)]) ->
  reads_back (JObject (Platform.set_field "version" (JString v) fields)) ->
  Forall (fun v' =>
            reads_back (JObject (Platform.set_field "version" (JString v') fields)))
    (omap effective versions) ->
  run_all (map (fun V => (Some "apply", V)) versions ++ [(Some "restore", None)])
    {| package_file :=
         Some (written (JObject (Platform.set_field "version" (JString v) fields)));
       backup_file := Some (written (JObject [("version", JString original)])) |}
  = ({| package_file := Some (written (JObject fields)); backup_file := None |},
     repeat 0%Z (S (length versions))).
Proof.
  intros Hv Hback. revert v.
  induction versions as [|V versions IH]; intros v Hdoc Hall.
  - cbn [map app]. rewrite run_all_cons.
    erewrite main_restore_string;
      [|reflexivity|reflexivity|exact Hback|discriminate|reflexivity|exact Hdoc].
    cbn. rewrite set_field_twice, (set_field_same _ _ _ Hv). reflexivity.
  - cbn [map app]. rewrite run_all_cons.
    change (omap effective (V :: versions))
      with (match effective V with
            | Some y => y :: omap effective versions
            | None => omap effective versions
            end) in Hall.
    destruct (effective V) as [v'|] eqn:He.
    + apply Forall_cons in Hall as [Hv' Hall].
      erewrite main_apply_again; [|exact He|reflexivity|reflexivity|exact Hdoc].
      cbn [fst snd]. rewrite set_field_twice.
      rewrite (IH v' Hv' Hall). reflexivity.
    + rewrite (main_apply_skip V _ He). cbn [fst snd].
      rewrite (IH v Hdoc Hall). reflexivity.
Qed.

End Platform.
End SetVersionScriptFacts.

(** * The claims of the specification *)

(** ** SSE frame parser *)
Module SseClaims.
Import Sse SseSpec SseFacts SseRefinement.

Lemma dispatch_idempotent {T} (onMessage : SseMessage -> T -> T) (p : Parser T) :
  dispatch onMessage (dispatch onMessage p) = dispatch onMessage p.
Proof.
  destruct (not_eventName (eventName p) && (length (dataLines p) =? 0)%nat) eqn:Hg.
  - assert (Hp : dispatch onMessage p = p) by (unfold dispatch; rewrite Hg; reflexivity).
    rewrite !Hp. reflexivity.
  - assert (Hq : dispatch onMessage p
                 = {| buffer := buffer p; eventName := None; dataLines := [];
                      sink := onMessage
                                {| data := join nl (dataLines p);
                                   event := eventName p |} (sink p) |})
      by (unfold dispatch; rewrite Hg; reflexivity).
    rewrite !Hq. reflexivity.
Qed.

Lemma emitted_lines chunks :
  emitted chunks
  = messages_then_end guard_nonempty_name (String.concat "" chunks).
Proof.
  unfold emitted, end_, messages_then_end.
  destruct (feed_all_lines chunks) as [Ha _]. cbv zeta in Ha.
  rewrite <- Ha, <- abs_dispatch. reflexivity.
Qed.

(** C1, as stated, fails: after the single chunk
    ["event: done\ndata: {}"] the call of [end()] does not hand over
    the message with data ["{}"]. *)
Lemma flush_on_end_as_stated_fails :
  emitted ["event: done" +:+ nl +:+ "data: {}"]
  <> [ {| event := Some "done"; data := "{}" |} ].
Proof. vm_compute. discriminate. Qed.

(** C1, amended: after the single chunk ["event: done\ndata: {}"],
    [end()] emits exactly one message [{event: "done", data: ""}]; the
    unterminated line ["data: {}"] stays in the buffer, since [end()]
    dispatches what the complete lines fed so far have accumulated (for
    every sequence of chunks); and a second [end()] emits nothing, for
    every parser and callback. *)
Theorem flush_on_end_complete_lines :
  let text := "event: done" +:+ nl +:+ "data: {}" in
  let p := end_ record_msg (feed record_msg text fresh) in
  emitted [text] = [ {| event := Some "done"; data := "" |} ]
  /\ buffer p = "data: {}"
  /\ sink (end_ record_msg p) = sink p
  /\ (forall chunks,
        emitted chunks
        = messages_then_end guard_nonempty_name (String.concat "" chunks))
  /\ (forall T (onMessage : SseMessage -> T -> T) (q : Parser T),
        end_ onMessage (end_ onMessage q) = end_ onMessage q).
Proof.
  cbv zeta. split; [vm_compute; reflexivity|].
  split; [vm_compute; reflexivity|].
  split; [vm_compute; reflexivity|].
  split; [exact emitted_lines|].
  intros T onMessage q. apply dispatch_idempotent.
Qed.

(** C2: feeding a text chunk by chunk, however it is cut, and calling
    [end()] emits the same messages in the same order as feeding it
    whole and calling [end()]; the parser ends in the same state, for
    every callback. *)
Theorem chunk_boundary_invariance (chunks : list string) :
  emitted chunks = emitted [String.concat "" chunks]
  /\ forall T (onMessage : SseMessage -> T -> T) (s0 : T),
       end_ onMessage (feed_all onMessage chunks (createSseParser s0))
       = end_ onMessage
           (feed onMessage (String.concat "" chunks) (createSseParser s0)).
Proof.
  split.
  - apply emitted_concat.
  - intros T onMessage s0. rewrite feed_all_concat by reflexivity. reflexivity.
Qed.

(** C3, as stated, fails: in ["event:\n\n"] the blank line comes after
    an event name has been set (to the empty string), and no message is
    emitted there. *)
Lemma dispatch_as_stated_fails :
  let text := "event:" +:+ nl +:+ nl in
  eventName (feed record_msg ("event:" +:+ nl) fresh) = Some ""
  /\ dispatched [text] = []
  /\ messages guard_as_stated text = [ {| event := Some ""; data := "" |} ]
  /\ dispatched [text] <> messages guard_as_stated text.
Proof. vm_compute. repeat split. discriminate. Qed.

(** C3, amended: for every fed input a message is emitted exactly at
    each complete empty line at which the pending event name is a
    non-empty string or at least one data line is pending (an empty
    line with no data line and an unset or empty event name emits
    nothing and clears nothing); its data is the newline-join, in
    arrival order, of the data values since the previous emitted
    message and its event is the value of the last event line since
    then (absent when there was none); the rest of the state is the
    pending event name, the pending data lines and the unterminated
    remainder; and ["event: x\ndata: a\ndata: b\n\n"] yields exactly
    [{event: "x", data: "a\nb"}]. *)
Theorem dispatch_on_blank_line (chunks : list string) :
  let text := String.concat "" chunks in
  let p := feed_all record_msg chunks fresh in
  dispatched chunks = messages guard_nonempty_name text
  /\ eventName p = pendingEvent (fst (run guard_nonempty_name (complete_lines text)))
  /\ dataLines p = pendingData (fst (run guard_nonempty_name (complete_lines text)))
  /\ buffer p = trailing text
  /\ dispatched ["event: x" +:+ nl +:+ "data: a" +:+ nl +:+ "data: b" +:+ nl +:+ nl]
     = [ {| event := Some "x"; data := "a" +:+ nl +:+ "b" |} ]
  /\ emitted ["event: x" +:+ nl +:+ "data: a" +:+ nl +:+ "data: b" +:+ nl +:+ nl]
     = [ {| event := Some "x"; data := "a" +:+ nl +:+ "b" |} ].
Proof.
  cbv zeta. destruct (feed_all_lines chunks) as [Ha Hb]. cbv zeta in Ha, Hb.
  unfold dispatched, messages. rewrite <- Ha. simpl.
  repeat split; try assumption; vm_compute; reflexivity.
Qed.

End SseClaims.

(** ** Abort coordinator *)
Module AbortClaims.
Import Abort AbortFacts.




End AbortClaims.



(** ** Streaming run controller *)
Module ControllerClaims.
Import Sse SseFacts SseLog Controller ControllerFacts ControllerMoreFacts.
Section Platform.
Variable JSON_parse : string -> option json.
Variable JSON_stringify : json -> string.
Variable Number_toString : Z -> string.
Variable URL_href : string -> string -> string.

Abbreviation onMessage := (Controller.onMessage JSON_parse).
Abbreviation decoded := (Controller.decoded JSON_parse).
Abbreviation done_payload := (Controller.done_payload JSON_parse).
Abbreviation attempted :=
  (Controller.attempted JSON_parse JSON_stringify Number_toString URL_href).
Abbreviation run :=
  (Controller.runStreamingAgentAndWait JSON_parse JSON_stringify Number_toString URL_href).
Abbreviation status_failure := (Controller.status_failure Number_toString URL_href).
Abbreviation request_of := (Controller.request_of JSON_stringify URL_href).

Lemma timed_out_not_stream_ended ms : timed_out Number_toString ms <> stream_ended.
Proof. unfold timed_out, stream_ended. simpl. discriminate. Qed.

(** Once the URL is built: a failure reaches the caller as the
    timeout error exactly when the [try] block failed after the timer
    had run its callback, which is when the timer fired during an
    await of the call and which leaves the combined signal handed to
    the fetcher triggered; a failure with the timer not fired reaches
    the caller unchanged, a success is returned as it is, and on every
    outcome the timer is cancelled. *)
Lemma resurfacing_after_url (client : Seclai) (w : World) (agentId : string)
    (body : json) (opts : option Options) (h : Abort.Store) :
  let out := attempted client w agentId body opts h in
  let res := run client w agentId body opts h in
  let timeout := timed_out Number_toString (timeout_budget opts) in
  timerArmed (snd res) = false
  /\ (timedOut (snd out) = true
      <-> exists n, timer_fires_at w = Some n /\ n < awaits (snd out))
  /\ (timedOut (snd out) = true ->
      exists c, sent (snd out) = [request_of client agentId body (Some c)]
                /\ Abort.is_aborted c (store (snd out)) = true)
  /\ (fst res = inl timeout
      <-> (exists e, fst out = inl e) /\ timedOut (snd out) = true)
  /\ (forall e, fst out = inl e -> timedOut (snd out) = false -> fst res = inl e)
  /\ (forall v, fst out = inr v -> fst res = inr v)
  /\ timeout_budget None = 60000%Z
  /\ (forall sg, timeout_budget (Some {| timeoutMs := None; signal := sg |}) = 60000%Z)
  /\ (forall ms sg, timeout_budget (Some {| timeoutMs := Some ms; signal := sg |}) = ms).
Proof.
  cbv zeta. rewrite run_unfold. cbv zeta. cbn [fst snd].
  pose proof (attempted_signal JSON_parse JSON_stringify Number_toString URL_href
                client w agentId body opts h) as Hsig.
  pose proof (attempted_unfold JSON_parse JSON_stringify Number_toString URL_href
                client w agentId body opts h) as Hu.
  destruct (prepare_inv w opts h) as [Hinv _].
  destruct (attempt_spec JSON_parse JSON_stringify Number_toString URL_href
              client w agentId body (fst (fst (prepare opts h)))
              (snd (fst (prepare opts h))) _ Hinv) as ([Hiff _] & _ & Harises).
  rewrite <- Hu in Hiff, Harises.
  destruct (attempted client w agentId body opts h) as [[e|v] st] eqn:Hout;
    cbn [fst snd] in *.
  - split; [reflexivity|]. split; [exact Hiff|]. split; [exact Hsig|].
    split; [|split; [|split; [|repeat split]]].
    + split.
      * intros Hres. split; [eauto|].
        destruct (timedOut st); [reflexivity|]. injection Hres as Hres.
        specialize (Harises e eq_refl). rewrite Hres in Harises.
        exfalso. exact (timed_out_not_stream_ended _ Harises).
      * intros [_ ->]. reflexivity.
    + intros e' [= <-] ->. reflexivity.
    + discriminate.
  - split; [reflexivity|]. split; [exact Hiff|]. split; [exact Hsig|].
    split; [|split; [|split; [|repeat split]]].
    + split; [discriminate|]. intros [(e & He) _]. discriminate.
    + discriminate.
    + intros v' [= <-]. reflexivity.
Qed.

(** C8: a response with a success status whose content type indicates
    JSON resolves with its decoded body, without a single read of the
    response stream. *)
Theorem json_short_circuit (client : Seclai) (w : World) (agentId : string)
    (body : json) (opts : option Options) (h : Abort.Store)
    (response : Response) (v : json) :
  fetch_result w = inr response ->
  ok response = true ->
  includes "application/json" (default "" (content_type response)) = true ->
  json_body response = inr v ->
  fst (run client w agentId body opts h) = inr v
  /\ reads (snd (run client w agentId body opts h)) = 0.
Proof.
  intros Hf Hok Hj Hv. rewrite run_unfold. cbv zeta. cbn [fst snd].
  rewrite attempted_unfold.
  rewrite (attempt_json _ _ _ _ _ _ _ _ _ _ _ _ Hf Hok Hj). rewrite Hv.
  cbn [fst snd]. split; [reflexivity|].
  unfold clearTimeout. cbn [reads]. rewrite !reads_suspend.
  unfold sending, send. cbn [snd reads]. apply reads_prepare.
Qed.


(** C9, amended: a response with a non-success status makes the
    [try] block throw the validation error with the decoded validation
    payload for status 422, and for every other status the status
    error with the status code, the method POST, the URL the request
    was sent to and the response text; a body that cannot be decoded
    leaves the field absent instead of throwing. The call fails with
    that error when the timeout timer has not run by then, and with
    the timeout error when it has, which is when it fires during the
    await of the fetcher or of one of the one or two reads of the
    error body. *)
Theorem error_status_reporting (client : Seclai) (w : World) (agentId : string)
    (body : json) (opts : option Options) (h : Abort.Store)
    (response : Response) :
  fetch_result w = inr response ->
  ok response = false ->
  let out := attempted client w agentId body opts h in
  let res := run client w agentId body opts h in
  let url := URL_href ("/agents/" +:+ agentId +:+ "/runs/stream") (baseUrl client) in
  let failure :=
    if (status response =? 422)%Z
    then SeclaiAPIValidationError "Validation error" (status response) "POST" url
           (safe (text_clone response)) (safe (json_clone response))
    else SeclaiAPIStatusError
           ("Request failed with status " +:+ Number_toString (status response))
           (status response) "POST" url (safe (text_clone response)) in
  let timeout :=
    SeclaiError ("Timed out after " +:+ Number_toString (timeout_budget opts)
                 +:+ "ms waiting for streaming agent run to complete.") in
  fst out = inl failure
  /\ fst res = inl (if timedOut (snd out) then timeout else failure)
  /\ (timedOut (snd out) = true
      <-> exists n, timer_fires_at w = Some n
                    /\ n < (if (status response =? 422)%Z then 3 else 2))
  /\ (timer_fires_at w = None -> fst res = inl failure)
  /\ (exists r, sent (snd res) = [r]
                /\ req_url r = url
                /\ req_method r = "POST")
  /\ (forall reason, text_clone response = inl reason ->
                     safe (text_clone response) = None)
  /\ (forall reason, json_clone response = inl reason ->
                     safe (json_clone response) = None)
  /\ (forall text, text_clone response = inr text ->
                   safe (text_clone response) = Some text)
  /\ (forall payload, json_clone response = inr payload ->
                      safe (json_clone response) = Some payload).
Proof.
  intros Hf Hok. cbv zeta.
  assert (Hout : fst (attempted client w agentId body opts h)
                 = inl (status_failure client agentId response)).
  { rewrite attempted_unfold.
    rewrite (attempt_not_ok _ _ _ _ _ _ _ _ _ _ _ _ Hf Hok). cbv zeta.
    unfold status_failure. destruct (status response =? 422)%Z; reflexivity. }
  assert (Hres : fst (run client w agentId body opts h)
                 = inl (if timedOut (snd (attempted client w agentId body opts h))
                        then SeclaiError
                               ("Timed out after "
                                +:+ Number_toString (timeout_budget opts)
                                +:+ "ms waiting for streaming agent run to complete.")
                        else status_failure client agentId response)).
  { rewrite (run_outcome JSON_parse JSON_stringify Number_toString URL_href).
    rewrite Hout. reflexivity. }
  split; [exact Hout|]. split; [exact Hres|]. split; [|split; [|split]].
  - rewrite (attempted_timedOut JSON_parse JSON_stringify Number_toString URL_href).
    rewrite (attempted_not_ok_awaits JSON_parse JSON_stringify Number_toString
               URL_href _ _ _ _ _ _ _ Hf Hok).
    reflexivity.
  - intros Hnone. rewrite Hres.
    rewrite (attempted_no_timer _ _ _ _ _ _ _ _ _ _ Hnone). reflexivity.
  - rewrite run_unfold. cbv zeta. cbn [snd]. rewrite attempted_unfold.
    destruct (prepare_inv w opts h) as [Hinv Hsent].
    destruct (attempt_spec JSON_parse JSON_stringify Number_toString URL_href
                client w agentId body (fst (fst (prepare opts h)))
                (snd (fst (prepare opts h))) _ Hinv) as (_ & Hs & _).
    eexists. unfold clearTimeout. cbn [sent]. rewrite Hs, Hsent.
    split; [reflexivity|]. split; reflexivity.
  - repeat split; intros x Hx; rewrite Hx; reflexivity.
Qed.

Lemma onMessage_empty_data msg seen :
  data msg = "" -> onMessage msg seen = seen.
Proof. intros H. unfold Controller.onMessage. rewrite H. reflexivity. Qed.

(** C10, amended: an [init] or [done] message with empty data
    leaves [final] and [lastSeen] as they were, whatever its event
    name; and a stream that delivers ["event: done\ndata:\n\n"], cut
    into chunks in any way, and then closes makes the [try] block
    throw the stream-ended error, so that the call never succeeds: it
    fails with the stream-ended error when the timeout timer has not
    run by then, and with the timeout error when it has. *)
Theorem empty_data_ignored (client : Seclai) (w : World) (agentId : string)
    (body : json) (opts : option Options) (h : Abort.Store)
    (response : Response) (texts : list string) (tail : list ReadResult) :
  fetch_result w = inr response ->
  ok response = true ->
  includes "application/json" (default "" (content_type response)) = false ->
  Controller.body response = Some (chunks texts ++ tail) ->
  closes tail ->
  String.concat "" texts = "event: done" +:+ nl +:+ "data:" +:+ nl +:+ nl ->
  let out := attempted client w agentId body opts h in
  let res := run client w agentId body opts h in
  let timeout :=
    SeclaiError ("Timed out after " +:+ Number_toString (timeout_budget opts)
                 +:+ "ms waiting for streaming agent run to complete.") in
  (forall msg seen, data msg = "" -> onMessage msg seen = seen)
  /\ emitted texts = [ {| event := Some "done"; data := "" |} ]
  /\ fst out = inl stream_ended
  /\ fst res = inl (if timedOut (snd out) then timeout else stream_ended)
  /\ (forall v, fst res <> inr v)
  /\ (timedOut (snd out) = true
      <-> exists n, timer_fires_at w = Some n /\ n < awaits (snd out))
  /\ (timer_fires_at w = None -> fst res = inl stream_ended).
Proof.
  intros Hf Hok Hj Hb Hc Htext. cbv zeta.
  split; [exact onMessage_empty_data|].
  assert (Hem : emitted texts = [ {| event := Some "done"; data := "" |} ]).
  { rewrite emitted_concat, Htext. vm_compute. reflexivity. }
  split; [exact Hem|].
  destruct (emitted_dispatched texts) as [new Hnew].
  assert (Hq : Forall (fun m => truthy_opt (done_payload m) = false) (emitted texts)).
  { rewrite Hem. repeat constructor. }
  assert (Hq' : Forall (fun m => truthy_opt (done_payload m) = false) (dispatched texts)).
  { rewrite Hnew in Hq. rewrite Forall_app in Hq. apply Hq. }
  assert (Hout : fst (attempted client w agentId body opts h) = inl stream_ended).
  { destruct (attempted_stream_closed JSON_parse JSON_stringify Number_toString
                URL_href client w agentId body opts h response texts tail
                Hf Hok Hj Hb Hc Hq') as [-> _].
    rewrite Hem. reflexivity. }
  assert (Hres : fst (run client w agentId body opts h)
                 = inl (if timedOut (snd (attempted client w agentId body opts h))
                        then SeclaiError
                               ("Timed out after "
                                +:+ Number_toString (timeout_budget opts)
                                +:+ "ms waiting for streaming agent run to complete.")
                        else stream_ended)).
  { rewrite (run_outcome JSON_parse JSON_stringify Number_toString URL_href).
    rewrite Hout. reflexivity. }
  split; [exact Hout|]. split; [exact Hres|]. split; [|split].
  - intros v. rewrite Hres. discriminate.
  - apply (attempted_timedOut JSON_parse JSON_stringify Number_toString URL_href).
  - intros Hnone. rewrite Hres.
    rewrite (attempted_no_timer _ _ _ _ _ _ _ _ _ _ Hnone). reflexivity.
Qed.


Lemma resolve_uncaptured msgs :
  Forall (fun m => truthy_opt (done_payload m) = false) msgs ->
  resolve (replay onMessage no_payload msgs)
  = match last (omap decoded msgs) with
    | Some v => if acceptable v then inr v else inl stream_ended
    | None => inl stream_ended
    end.
Proof.
  intros H. unfold resolve.
  rewrite replay_final, replay_lastSeen.
  rewrite (last_untruthy _ (done_payloads_untruthy _ _ H)). reflexivity.
Qed.

(** C4, amended: when the stream closes and no [done] message carried
    a truthy payload, and the timeout has not fired, the call succeeds
    with the last decoded [init]/[done] payload if and only if there is
    one, it is truthy, and its status field is truthy (present and not
    null, false, zero or the empty string) and not equal to "pending";
    otherwise it fails with the stream-ended error, in particular when
    the status of that payload is "pending". *)
Theorem last_seen_fallback (client : Seclai) (w : World) (agentId : string)
    (body : json) (opts : option Options) (h : Abort.Store)
    (response : Response) (texts : list string) (tail : list ReadResult) :
  fetch_result w = inr response ->
  ok response = true ->
  includes "application/json" (default "" (content_type response)) = false ->
  Controller.body response = Some (chunks texts ++ tail) ->
  closes tail ->
  Forall (fun m => truthy_opt (done_payload m) = false) (emitted texts) ->
  timer_fires_at w = None ->
  let res := fst (run client w agentId body opts h) in
  let last_payload := last (omap decoded (emitted texts)) in
  (forall v, res = inr v <-> last_payload = Some v /\ acceptable v = true)
  /\ ((forall v, res <> inr v) -> res = inl stream_ended)
  /\ (forall v, last_payload = Some v ->
                get "status" v = Some (JString "pending") ->
                res = inl stream_ended).
Proof.
  intros Hf Hok Hj Hb Hc Hq Hnone. cbv zeta.
  rewrite (run_no_timer _ _ _ _ _ _ _ _ _ _ Hnone).
  destruct (emitted_dispatched texts) as [new Hnew].
  assert (Hq' : Forall (fun m => truthy_opt (done_payload m) = false) (dispatched texts)).
  { rewrite Hnew in Hq. rewrite Forall_app in Hq. apply Hq. }
  destruct (attempted_stream_closed JSON_parse JSON_stringify Number_toString URL_href
              client w agentId body opts h response texts tail Hf Hok Hj Hb Hc Hq')
    as [-> _].
  rewrite (resolve_uncaptured _ Hq).
  destruct (last (omap decoded (emitted texts))) as [v0|].
  - destruct (acceptable v0) eqn:Hacc.
    + split; [|split].
      * intros v. split; [intros [= <-]; auto|intros [[= <-] _]; reflexivity].
      * intros Hno. exfalso. exact (Hno v0 eq_refl).
      * intros v [= <-] Hst. unfold acceptable in Hacc. rewrite Hst in Hacc.
        simpl in Hacc. rewrite andb_false_r in Hacc. discriminate.
    + split; [|split].
      * intros v. split; [discriminate|]. intros [[= <-] Hv]. congruence.
      * reflexivity.
      * reflexivity.
  - split; [|split].
    + intros v. split; [discriminate|]. intros [Hv _]. discriminate.
    + reflexivity.
    + reflexivity.
Qed.

(** C6, amended: once the chunk just read has left a truthy [done]
    payload in [final], the controller reads no further chunk, whatever
    the rest of the stream holds; it resolves from the messages of the
    chunks read so far, [end()] included, with the payload of the last
    [done] message decoded among them when that payload is truthy,
    which is the first one when no other was decoded from them. *)
Theorem terminal_short_circuit (client : Seclai) (w : World) (agentId : string)
    (body : json) (opts : option Options) (h : Abort.Store)
    (response : Response) (texts : list string) (text : string)
    (rest : list ReadResult) :
  fetch_result w = inr response ->
  ok response = true ->
  includes "application/json" (default "" (content_type response)) = false ->
  Controller.body response = Some (chunks (texts ++ [text]) ++ rest) ->
  Forall (fun m => truthy_opt (done_payload m) = false) (dispatched texts) ->
  truthy_opt (last (omap done_payload (dispatched (texts ++ [text])))) = true ->
  let res := run client w agentId body opts h in
  let payloads := omap done_payload (emitted (texts ++ [text])) in
  reads (snd res) = S (length texts)
  /\ (forall v, last payloads = Some v -> truthy v = true -> fst res = inr v)
  /\ (forall v, payloads = [v] -> fst res = inr v).
Proof.
  intros Hf Hok Hj Hb Hq Hcap. cbv zeta. rewrite run_unfold. cbv zeta.
  cbn [fst snd].
  destruct (attempted_stream_captured JSON_parse JSON_stringify Number_toString
              URL_href client w agentId body opts h response texts text rest
              Hf Hok Hj Hb Hq Hcap) as [Hres Hreads].
  split; [exact Hreads|].
  assert (Hlast : forall v,
            last (omap done_payload (emitted (texts ++ [text]))) = Some v ->
            truthy v = true ->
            fst (attempted client w agentId body opts h) = inr v).
  { intros v Hv Ht. rewrite Hres. unfold resolve. rewrite replay_final, Hv.
    simpl. rewrite Ht. reflexivity. }
  split.
  - intros v Hv Ht. rewrite (Hlast v Hv Ht). reflexivity.
  - intros v Hv.
    destruct (emitted_dispatched (texts ++ [text])) as [new Hnew].
    rewrite Hnew, omap_app in Hv.
    destruct (last (omap done_payload (dispatched (texts ++ [text]))))
      as [x|] eqn:Hx; [|discriminate].
    simpl in Hcap.
    assert (x = v) as ->.
    { apply last_Some in Hx as [l' Hl']. rewrite Hl' in Hv.
      rewrite <- app_assoc in Hv. simpl in Hv.
      destruct l' as [|y l']; simpl in Hv.
      - congruence.
      - injection Hv as _ Hv. destruct l'; discriminate. }
    rewrite (Hlast v); [reflexivity| |exact Hcap].
    rewrite Hnew, omap_app, Hv. reflexivity.
Qed.

End Platform.
End ControllerClaims.

(** ** The streaming call from its first line *)
Module StreamingClaims.
Import Controller ControllerFacts ControllerMoreFacts Streaming.
Section Platform.
Variable JSON_parse : string -> option json.
Variable JSON_stringify : json -> string.
Variable Number_toString : Z -> string.
Variable URL_new : string -> string -> string + Executor.Url.
Variable URL_toString : Executor.Url -> string.

Abbreviation try_block :=
  (Streaming.try_block JSON_parse JSON_stringify Number_toString URL_toString).
Abbreviation run :=
  (Streaming.runStreamingAgentAndWait JSON_parse JSON_stringify Number_toString
     URL_new URL_toString).

(** C5, amended: a failure of the call reaches the caller as the
    error "Timed out after {budget}ms waiting for streaming agent run
    to complete.", the budget being [timeoutMs] and 60000 when it is
    not given, exactly when the [try] block failed after the timeout
    timer had run its callback, whatever made the block fail; that is
    when the timer fired during an await of the call, and it leaves
    the signal handed to the fetcher triggered. Every error that
    arises with the timer not fired reaches the caller unchanged, the
    error of [new URL] included, which is thrown before the timer is
    set and before anything is sent; a success is returned as it is;
    and no timer is left pending on any outcome. *)
Theorem timeout_resurfacing (client : Seclai) (w : World) (agentId : string)
    (body : json) (opts : option Options) (h : Abort.Store) :
  let res := run client w agentId body opts h in
  let path := "/agents/" +:+ agentId +:+ "/runs/stream" in
  let timeout :=
    SeclaiError ("Timed out after " +:+ Number_toString (timeout_budget opts)
                 +:+ "ms waiting for streaming agent run to complete.") in
  timerArmed (snd res) = false
  /\ (forall reason,
        URL_new path (baseUrl client) = inl reason ->
        res = (inl (Rejected reason), idle h))
  /\ (forall url,
        URL_new path (baseUrl client) = inr url ->
        let out := try_block url client w agentId body opts h in
        (timedOut (snd out) = true
         <-> exists n, timer_fires_at w = Some n /\ n < awaits (snd out))
        /\ (timedOut (snd out) = true ->
            exists r c, sent (snd out) = [r]
                        /\ req_url r = URL_toString url
                        /\ req_signal r = Some c
                        /\ Abort.is_aborted c (store (snd out)) = true)
        /\ (fst res = inl timeout
            <-> (exists e, fst out = inl e) /\ timedOut (snd out) = true)
        /\ (forall e, fst out = inl e -> timedOut (snd out) = false ->
                      fst res = inl e)
        /\ (forall v, fst out = inr v -> fst res = inr v))
  /\ (timer_fires_at w = None -> fst res <> inl timeout)
  /\ timeout_budget None = 60000%Z
  /\ (forall sg, timeout_budget (Some {| timeoutMs := None; signal := sg |}) = 60000%Z)
  /\ (forall ms sg, timeout_budget (Some {| timeoutMs := Some ms; signal := sg |}) = ms).
Proof.
  cbv zeta. unfold Streaming.runStreamingAgentAndWait, Streaming.stream_url,
    Executor.buildURL.
  destruct (URL_new ("/agents/" +:+ agentId +:+ "/runs/stream") (baseUrl client))
    as [reason|url] eqn:Hurl.
  - split; [reflexivity|]. split; [intros r [= <-]; reflexivity|].
    split; [discriminate|]. split; [discriminate|]. repeat split.
  - unfold Streaming.after_url.
    destruct (ControllerClaims.resurfacing_after_url
                JSON_parse JSON_stringify Number_toString
                (fun _ _ => URL_toString url) client w agentId body opts h)
      as (Harmed & Hiff & Hsig & Hres & Herr & Hval & Hb1 & Hb2 & Hb3).
    split; [exact Harmed|]. split; [discriminate|]. split; [|split].
    + intros url' [= <-]. unfold Streaming.try_block.
      split; [exact Hiff|]. split; [|split; [exact Hres|split; [exact Herr|exact Hval]]].
      intros Ht. destruct (Hsig Ht) as (c & Hsent & Hab).
      eexists _, c. split; [exact Hsent|]. repeat split. exact Hab.
    + intros Hnone Hto. apply Hres in Hto as [_ Hto].
      rewrite (attempted_no_timer _ _ _ _ _ _ _ _ _ _ Hnone) in Hto. discriminate.
    + split; [exact Hb1|]. split; [exact Hb2|exact Hb3].
Qed.

End Platform.
End StreamingClaims.

(** ** The controller claims on concrete streams *)
Module Worked.
Import Controller Scenario.

(** A JSON answer to the streaming request. *)
Lemma json_short_circuit_witness :
  let response :=
    plain_response 200 "application/json; charset=utf-8"
      (inr (wire completed)) (inr completed) in
  fst (run (answers response None) None) = inr completed
  /\ reads (snd (run (answers response None) None)) = 0.
Proof.
  apply (ControllerClaims.json_short_circuit
           Platform.JSON_parse Platform.JSON_stringify
           Platform.Number_toString Platform.URL_href
           client _ "ag_123" input None []
           (plain_response 200 "application/json; charset=utf-8"
              (inr (wire completed)) (inr completed)) completed);
    reflexivity.
Defined.

(** C9, as stated, fails: the response has status 503 and the timer
    fires while the text of the error body is awaited; the call fails
    with the timeout error, not with the status error that the [try]
    block throws. *)
Lemma status_error_as_stated_fails :
  let response :=
    plain_response 503 "text/plain" (inr "unavailable") (inl "not JSON") in
  let w := answers response (Some 1) in
  let status_error :=
    SeclaiAPIStatusError "Request failed with status 503" 503 "POST"
      "https://example.invalid/agents/ag_123/runs/stream" (Some "unavailable") in
  fst (attempted Platform.JSON_parse Platform.JSON_stringify
         Platform.Number_toString Platform.URL_href client w "ag_123" input None [])
  = inl status_error
  /\ fst (run w None)
     = inl (SeclaiError
              "Timed out after 60000ms waiting for streaming agent run to complete.")
  /\ fst (run w None) <> inl status_error.
Proof. vm_compute. repeat split. discriminate. Qed.

(** A 503 answer whose body cannot be read. *)
Lemma error_status_reporting_witness :
  let response :=
    plain_response 503 "text/plain" (inl "body unreadable") (inl "not JSON") in
  let w := answers response None in
  fst (run w None)
  = inl (SeclaiAPIStatusError "Request failed with status 503" 503 "POST"
           "https://example.invalid/agents/ag_123/runs/stream" None).
Proof.
  cbv zeta.
  destruct (ControllerClaims.error_status_reporting
              Platform.JSON_parse Platform.JSON_stringify
              Platform.Number_toString Platform.URL_href
              client
              (answers (plain_response 503 "text/plain" (inl "body unreadable")
                          (inl "not JSON")) None)
              "ag_123" input None []
              (plain_response 503 "text/plain" (inl "body unreadable")
                 (inl "not JSON"))
              eq_refl eq_refl) as (_ & _ & _ & Hquiet & _).
  exact (Hquiet eq_refl).
Defined.

(** C10, as stated, fails: the stream delivers the empty [done]
    message and closes, and the timer fires while the first read is
    awaited; the call fails with the timeout error, not with the
    stream-ended error. *)
Lemma empty_done_as_stated_fails :
  let text := "event: done" +:+ nl +:+ "data:" +:+ nl +:+ nl in
  let w := answers (sse_response (chunks [text] ++ [Closed])) (Some 1) in
  Sse.emitted [text] = [ {| event := Some "done"; data := "" |} ]
  /\ fst (run w None)
     = inl (SeclaiError
              "Timed out after 60000ms waiting for streaming agent run to complete.")
  /\ fst (run w None) <> inl stream_ended.
Proof. vm_compute. repeat split. discriminate. Qed.

(** The empty [done] message, cut in the middle of its data line. *)
Lemma empty_data_ignored_witness :
  let texts := ["event: done" +:+ nl +:+ "da"; "ta:" +:+ nl; nl] in
  let w := answers (sse_response (chunks texts ++ [Closed])) None in
  Sse.emitted texts = [ {| event := Some "done"; data := "" |} ]
  /\ fst (run w None) = inl stream_ended
  /\ forall timer v,
       fst (run (answers (sse_response (chunks texts ++ [Closed])) timer) None)
       <> inr v.
Proof.
  cbv zeta. split; [|split].
  - vm_compute. reflexivity.
  - destruct (ControllerClaims.empty_data_ignored
                Platform.JSON_parse Platform.JSON_stringify
                Platform.Number_toString Platform.URL_href
                client
                (answers
                   (sse_response
                      (chunks ["event: done" +:+ nl +:+ "da"; "ta:" +:+ nl; nl]
                       ++ [Closed])) None)
                "ag_123" input None []
                (sse_response
                   (chunks ["event: done" +:+ nl +:+ "da"; "ta:" +:+ nl; nl]
                    ++ [Closed]))
                ["event: done" +:+ nl +:+ "da"; "ta:" +:+ nl; nl] [Closed]
                eq_refl eq_refl eq_refl eq_refl I eq_refl)
      as (_ & _ & _ & _ & _ & _ & Hquiet).
    exact (Hquiet eq_refl).
  - intros timer.
    destruct (ControllerClaims.empty_data_ignored
                Platform.JSON_parse Platform.JSON_stringify
                Platform.Number_toString Platform.URL_href
                client
                (answers
                   (sse_response
                      (chunks ["event: done" +:+ nl +:+ "da"; "ta:" +:+ nl; nl]
                       ++ [Closed])) timer)
                "ag_123" input None []
                (sse_response
                   (chunks ["event: done" +:+ nl +:+ "da"; "ta:" +:+ nl; nl]
                    ++ [Closed]))
                ["event: done" +:+ nl +:+ "da"; "ta:" +:+ nl; nl] [Closed]
                eq_refl eq_refl eq_refl eq_refl I eq_refl)
      as (_ & _ & _ & _ & Hnever & _).
    exact Hnever.
Defined.

(** C4, as stated, fails: the stream emits only [init] with the
    status field present and equal to the empty string, so not equal
    to "pending", and closes; the call fails. *)
Lemma fallback_as_stated_fails :
  let texts := [frame "init" (wire blank_status)] in
  let w := answers (sse_response (chunks texts ++ [Closed])) None in
  last (omap (decoded Platform.JSON_parse) (Sse.emitted texts)) = Some blank_status
  /\ acceptable_as_stated blank_status = true
  /\ fst (run w None) = inl stream_ended.
Proof. vm_compute. repeat split. Qed.

(** Only [init] with status "pending", then the stream closes. *)
Lemma last_seen_fallback_witness :
  let texts := [frame "init" (wire pending)] in
  let w := answers (sse_response (chunks texts ++ [Closed])) None in
  last (omap (decoded Platform.JSON_parse) (Sse.emitted texts)) = Some pending
  /\ fst (run w None) = inl stream_ended.
Proof.
  cbv zeta. split; [vm_compute; reflexivity|].
  refine (proj2 (proj2
    (ControllerClaims.last_seen_fallback
       Platform.JSON_parse Platform.JSON_stringify
       Platform.Number_toString Platform.URL_href
       client
       (answers (sse_response (chunks [frame "init" (wire pending)] ++ [Closed])) None)
       "ag_123" input None []
       (sse_response (chunks [frame "init" (wire pending)] ++ [Closed]))
       [frame "init" (wire pending)] [Closed]
       eq_refl eq_refl eq_refl eq_refl I _ eq_refl)) pending _ _).
  - vm_compute. repeat constructor.
  - vm_compute. reflexivity.
  - vm_compute. reflexivity.
Defined.

(** C6, as stated, fails: one chunk carries two [done] messages; the
    call resolves with the payload of the second, not of the first. *)
Lemma first_done_as_stated_fails :
  let text := frame "done" (wire first_done) +:+ frame "done" (wire second_done) in
  let w := answers (sse_response (chunks [text] ++ [Closed])) None in
  omap (done_payload Platform.JSON_parse) (Sse.emitted [text])
  = [first_done; second_done]
  /\ fst (run w None) = inr second_done
  /\ fst (run w None) <> inr first_done.
Proof. vm_compute. repeat split. discriminate. Qed.

(** [init], then [done] in the second chunk, then more bytes and a
    failing read that are never asked for. *)
Lemma terminal_short_circuit_witness :
  let texts := [frame "init" (wire pending)] in
  let text := frame "done" (wire completed) in
  let rest := [Chunk (Some (frame "done" (wire second_done))); ReadFails "reset"] in
  let w := answers (sse_response (chunks (texts ++ [text]) ++ rest)) None in
  reads (snd (run w None)) = 2
  /\ fst (run w None) = inr completed.
Proof.
  cbv zeta.
  pose proof
    (ControllerClaims.terminal_short_circuit
       Platform.JSON_parse Platform.JSON_stringify
       Platform.Number_toString Platform.URL_href
       client
       (answers (sse_response
                   (chunks ([frame "init" (wire pending)]
                            ++ [frame "done" (wire completed)])
                    ++ [Chunk (Some (frame "done" (wire second_done)));
                        ReadFails "reset"])) None)
       "ag_123" input None []
       (sse_response
          (chunks ([frame "init" (wire pending)] ++ [frame "done" (wire completed)])
           ++ [Chunk (Some (frame "done" (wire second_done))); ReadFails "reset"]))
       [frame "init" (wire pending)] (frame "done" (wire completed))
       [Chunk (Some (frame "done" (wire second_done))); ReadFails "reset"]
       eq_refl eq_refl eq_refl eq_refl) as H.
  cbv zeta in H.
  assert (H1 : Forall
                 (fun m => truthy_opt (done_payload Platform.JSON_parse m) = false)
                 (Sse.dispatched [frame "init" (wire pending)]))
    by (vm_compute; repeat constructor).
  assert (H2 : truthy_opt
                 (last (omap (done_payload Platform.JSON_parse)
                          (Sse.dispatched ([frame "init" (wire pending)]
                                           ++ [frame "done" (wire completed)]))))
               = true)
    by (vm_compute; reflexivity).
  destruct (H H1 H2) as (Hreads & _ & Hone).
  split; [exact Hreads|]. apply Hone. vm_compute. reflexivity.
Defined.

End Worked.

(** ** The streaming call from its first line, on the example client *)
Module StreamingWorked.
Import Controller Scenario StreamingScenario.

(** C5, as stated, fails: the response has status 503, so that the
    call fails whether the timer fires or not, as it does with no
    timer firing; the response has arrived, and the timer fires while
    the text of the error body is awaited; the failure is the status
    error, which the timeout did not cause, and it reaches the caller
    as the timeout error. *)
Lemma timeout_cause_as_stated_fails :
  let status_error :=
    SeclaiAPIStatusError "Request failed with status 503" 503 "POST"
      "https://example.invalid/agents/ag_123/runs/stream" (Some "unavailable") in
  let timeout :=
    SeclaiError
      "Timed out after 60000ms waiting for streaming agent run to complete." in
  fst (StreamingScenario.run client (answers unavailable None) None)
  = inl status_error
  /\ fst (Streaming.try_block Platform.JSON_parse Platform.JSON_stringify
            Platform.Number_toString ExecutorScenario.URL_toString
            (ExecutorScenario.at_path "/agents/ag_123/runs/stream" [])
            client (answers unavailable (Some 1)) "ag_123" input None [])
     = inl status_error
  /\ fst (StreamingScenario.run client (answers unavailable (Some 1)) None)
     = inl timeout
  /\ fst (StreamingScenario.run client (answers unavailable (Some 1)) None)
     <> inl status_error.
Proof. vm_compute. repeat split. discriminate. Qed.

End StreamingWorked.

(** ** Sanity checks

    The two streaming tests of the repository (a keepalive, [init] and
    [done]: the [done] payload is returned; a stream that never ends and
    a 5 ms budget: the timeout error), the request that is sent, the
    parser on carriage returns, comments, fields without a colon and
    repeated event lines, and the platform model on a few inputs. *)
Module Tests.

Example streaming_tests :
  let initp := JObject [("run_id", JString "run_123"); ("status", JString "running")] in
  let donep := JObject [("run_id", JString "run_123"); ("status", JString "completed");
                        ("output", JString "ok")] in
  let script := Controller.chunks
      [ ": keepalive" +:+ nl +:+ nl;
        Scenario.frame "init" (Platform.JSON_stringify initp);
        Scenario.frame "done" (Platform.JSON_stringify donep) ] in
  fst (Scenario.run (Scenario.answers (Scenario.sse_response script) None) None)
  = inr donep
  /\ fst (Scenario.run
            (Scenario.answers
               (Scenario.sse_response
                  (Controller.chunks [": keepalive" +:+ nl +:+ nl;
                                      Scenario.frame "init" "{}"]
                   ++ [Controller.ReadFails "aborted"])) (Some 3))
            (Some {| Controller.timeoutMs := Some 5%Z; Controller.signal := None |}))
     = inl (SeclaiError "Timed out after 5ms waiting for streaming agent run to complete.")
  /\ Controller.sent (snd (Scenario.run (Scenario.answers (Scenario.sse_response script) None) None))
     = [ {| Controller.req_url := "https://example.invalid/agents/ag_123/runs/stream";
            Controller.req_method := "POST";
            Controller.req_headers :=
              <["content-type" := "application/json"]>
                (<["accept" := "text/event-stream"]> (<["x-api-key" := "k"]> ∅));
            Controller.req_body := "{" +:+ Platform.quoted "input" +:+ ":" +:+ Platform.quoted "hello" +:+ "}";
            Controller.req_signal := Some 0 |} ].
Proof. vm_compute. repeat split. Qed.

Example parser_examples :
  let cr := String CR "" in
  Sse.emitted ["data: a" +:+ cr +:+ nl +:+ cr +:+ nl] = [ {| event := None; data := "a" |} ]
  /\ Sse.emitted [": ping" +:+ nl +:+ nl +:+ ": ping" +:+ nl +:+ nl] = []
  /\ Sse.emitted ["data:  x" +:+ nl +:+ "data" +:+ nl +:+ "id: 7" +:+ nl +:+ nl]
     = [ {| event := None; data := " x" +:+ nl |} ]
  /\ Sse.emitted ["event: a" +:+ nl +:+ "event: b" +:+ nl +:+ "data:x:y" +:+ nl +:+ nl]
     = [ {| event := Some "b"; data := "x:y" |} ]
  /\ Sse.emitted ["event: done" +:+ nl +:+ "data: {}" +:+ nl]
     = [ {| event := Some "done"; data := "{}" |} ]
  /\ Sse.emitted ["event:" +:+ nl +:+ nl +:+ "data: a" +:+ nl +:+ nl]
     = [ {| event := Some ""; data := "a" |} ].
Proof. vm_compute. repeat split. Qed.

Example anySignal_examples :
  let h := [ Abort.mkSignal false []; Abort.mkSignal false [] ] in
  let '(c, h') := Abort.anySignal [Some 0; Some 1] h in
  c = Some 2
  /\ Abort.is_aborted 2 h' = false
  /\ Abort.is_aborted 2 (Abort.abort 1 h') = true
  /\ Abort.is_aborted 0 (Abort.abort 1 h') = false
  /\ Abort.anySignal [Some 0; Some 1] [ Abort.mkSignal true []; Abort.mkSignal false [] ]
     = (Some 2, [ Abort.mkSignal true []; Abort.mkSignal false []; Abort.mkSignal true [] ]).
Proof. vm_compute. repeat split. Qed.

Example JSON_fragment_examples :
  Platform.JSON_parse
    ("{" +:+ Platform.quoted "status" +:+ ": " +:+ Platform.quoted "pending"
     +:+ ", " +:+ Platform.quoted "n" +:+ ":[1, -20,true,null]}")
  = Some (JObject [("status", JString "pending");
                   ("n", JArray [JNumber 1; JNumber (-20); JBool true; JNull])])
  /\ Platform.JSON_parse "{}" = Some (JObject [])
  /\ Platform.JSON_parse "" = None
  /\ Platform.JSON_parse "0" = Some (JNumber 0)
  /\ Platform.JSON_parse "01" = None
  /\ Platform.JSON_parse "{} x" = None
  /\ Platform.JSON_parse "[1,]" = None
  /\ Platform.Number_toString 60000 = "60000"
  /\ Platform.Number_toString 0 = "0"
  /\ Platform.JSON_parse (Platform.JSON_stringify Scenario.completed)
     = Some Scenario.completed.
Proof. vm_compute. repeat split. Qed.

End Tests.

(** * Further properties of the SSE frame parser *)
Module SseProps.
Import Sse SseFacts SseLog SseLineFacts.

(** X12 ([createSseParser], the loop of [feed]): whatever the state
    of the parser and the chunk, [feed] leaves through its [return]:
    the buffer it leaves holds no line feed and is no longer than the
    old buffer and the chunk together, any bound on the iterations
    above the length of the buffer gives the same result, and a chunk
    that completes no line changes nothing but the buffer. *)
Theorem feed_leaves_no_line {T} (onMessage : SseMessage -> T -> T)
    (p : Parser T) (c : string) :
  let q := feed onMessage c p in
  indexOf LF (buffer q) = None
  /\ String.length (buffer q) <= String.length (buffer p) + String.length c
  /\ (forall fuel, String.length (buffer p +:+ c) < fuel ->
        feed_loop onMessage fuel (set_buffer (buffer p +:+ c) p) = q)
  /\ (indexOf LF (buffer p +:+ c) = None -> q = set_buffer (buffer p +:+ c) p).
Proof.
  cbv zeta. split; [apply feed_returns|]. split; [|split].
  - unfold feed. etransitivity; [apply feed_loop_buffer_le|].
    cbn [buffer set_buffer]. rewrite length_append. lia.
  - intros fuel Hfuel. unfold feed. apply feed_loop_fuel.
    + exact Hfuel.
    + cbn [buffer set_buffer]. lia.
  - apply feed_partial.
Qed.

(** X13 (comment lines and unknown fields): a complete line that,
    without its carriage return, is not empty and either starts with a
    colon or has a field name other than [event] and [data] leaves a
    parser with an empty buffer exactly as it was, the callback not
    being called; so such a line, fed where the buffer is empty, can
    be dropped from a stream without any effect. *)
Theorem ignored_line {T} (onMessage : SseMessage -> T -> T)
    (p : Parser T) (line : string) :
  buffer p = "" ->
  indexOf LF line = None ->
  let l := if endsWith CR line then drop_last line else line in
  let field := match indexOf ":" l with None => l | Some i => slice_to i l end in
  l <> "" ->
  startsWith ":" l = true \/ (field <> "event" /\ field <> "data") ->
  feed onMessage (line +:+ nl) p = p
  /\ forall (q : Parser T) cs cs',
       buffer (feed_all onMessage cs q) = "" ->
       feed_all onMessage (cs ++ (line +:+ nl) :: cs') q
       = feed_all onMessage (cs ++ cs') q.
Proof.
  intros Hb Hl. cbv zeta. intros Hne Hkind.
  assert (Hinert : forall q : Parser T,
            buffer q = "" -> feed onMessage (line +:+ nl) q = q).
  { intros q Hq. rewrite (feed_one_line onMessage line q Hq Hl).
    unfold feed_line.
    destruct (String.eqb_spec (if endsWith CR line then drop_last line else line) "")
      as [He|_]; [contradiction|].
    destruct Hkind as [Hcomment|[Hev Hda]].
    - rewrite Hcomment. reflexivity.
    - destruct (startsWith ":" _); [reflexivity|].
      apply String.eqb_neq in Hev, Hda. rewrite Hev, Hda. reflexivity. }
  split; [apply Hinert, Hb|].
  intros q cs cs' Hq. rewrite !feed_all_app.
  change (feed_all onMessage ((line +:+ nl) :: cs') (feed_all onMessage cs q))
    with (feed_all onMessage cs'
            (feed onMessage (line +:+ nl) (feed_all onMessage cs q))).
  rewrite (Hinert _ Hq). reflexivity.
Qed.

(** X14 (carriage returns): lines that hold no line feed and do not
    end in a carriage return give the same messages, and leave the
    parser in the same state, whether each is terminated by a carriage
    return and a line feed or by a line feed alone, however the two
    texts are cut into chunks. *)
Theorem crlf_as_lf (lines chunks chunks' : list string) :
  Forall (fun l => indexOf LF l = None /\ endsWith CR l = false) lines ->
  String.concat "" chunks
  = String.concat "" (map (fun l => l +:+ String CR nl) lines) ->
  String.concat "" chunks' = String.concat "" (map (fun l => l +:+ nl) lines) ->
  emitted chunks = emitted chunks'
  /\ forall T (onMessage : SseMessage -> T -> T) (s0 : T),
       feed_all onMessage chunks (createSseParser s0)
       = feed_all onMessage chunks' (createSseParser s0).
Proof.
  intros Hlines Hc Hc'.
  assert (Hsame : forall T (onMessage : SseMessage -> T -> T) (s0 : T),
            feed_all onMessage chunks (createSseParser s0)
            = feed_all onMessage chunks' (createSseParser s0)).
  { intros T onMessage s0.
    rewrite (feed_all_concat onMessage chunks) by reflexivity.
    rewrite (feed_all_concat onMessage chunks') by reflexivity.
    rewrite Hc, Hc'.
    rewrite <- !(feed_all_concat onMessage) by reflexivity.
    rewrite !(feed_all_whole_lines onMessage); try reflexivity.
    - intros l q Hq Hin. apply feed_one_line; [exact Hq|].
      rewrite Forall_forall in Hlines. apply (Hlines l Hin).
    - intros l q Hq Hin. rewrite Forall_forall in Hlines.
      destruct (Hlines l Hin) as [Hlf Hcr].
      change (l +:+ String CR nl) with (l +:+ (String CR "" +:+ nl)).
      rewrite <- append_assoc.
      rewrite (feed_one_line onMessage _ q Hq (indexOf_snoc_CR l Hlf)).
      apply feed_line_crlf, Hcr. }
  split; [|exact Hsame].
  unfold emitted, fresh. rewrite (Hsame _ record_msg []). reflexivity.
Qed.

(** X15 (messages are only ever added): the messages handed to the
    callback while a prefix of the chunks is fed are a prefix of those
    of the whole sequence, and [end()] hands over at most one message
    more. *)
Theorem messages_only_grow (chunks more : list string) :
  (exists new, dispatched (chunks ++ more) = dispatched chunks ++ new)
  /\ (exists final, emitted chunks = dispatched chunks ++ final
                    /\ length final <= 1).
Proof.
  split; [apply dispatched_app|].
  unfold emitted, dispatched, end_, dispatch.
  destruct (_ && _).
  - exists []. rewrite app_nil_r. split; [reflexivity|simpl; lia].
  - eexists [_]. split; [reflexivity|simpl; lia].
Qed.

(** X16 ([end()] after a blank line): when the text fed ends in an
    empty line, [end()] hands over no further message and leaves the
    parser as it is, for every callback. *)
Theorem end_after_blank_line (chunks : list string) (text : string) :
  String.concat "" chunks = text +:+ nl +:+ nl ->
  emitted chunks = dispatched chunks
  /\ forall T (onMessage : SseMessage -> T -> T) (s0 : T),
       end_ onMessage (feed_all onMessage chunks (createSseParser s0))
       = feed_all onMessage chunks (createSseParser s0).
Proof.
  intros Htext.
  assert (Hend : forall T (onMessage : SseMessage -> T -> T) (s0 : T),
            end_ onMessage (feed_all onMessage chunks (createSseParser s0))
            = feed_all onMessage chunks (createSseParser s0)).
  { intros T onMessage s0.
    rewrite (feed_all_concat onMessage chunks) by reflexivity.
    rewrite Htext, <- append_assoc. apply end_after_blank. reflexivity. }
  split; [|exact Hend].
  unfold emitted, dispatched, fresh. rewrite Hend. reflexivity.
Qed.

(** A keep-alive comment between two messages. *)
Lemma ignored_line_witness :
  feed record_msg (": keep-alive" +:+ nl) fresh = fresh
  /\ emitted ["data: a" +:+ nl +:+ nl; ": keep-alive" +:+ nl; "data: b" +:+ nl +:+ nl]
     = emitted ["data: a" +:+ nl +:+ nl; "data: b" +:+ nl +:+ nl].
Proof.
  destruct (ignored_line record_msg fresh ": keep-alive") as [Hone Hdrop];
    [reflexivity|reflexivity|discriminate|left; reflexivity|].
  split; [exact Hone|].
  exact (f_equal (fun q => sink (end_ record_msg q))
           (Hdrop fresh ["data: a" +:+ nl +:+ nl] ["data: b" +:+ nl +:+ nl]
              eq_refl)).
Defined.

Lemma crlf_as_lf_witness :
  emitted ["event: done" +:+ String CR nl +:+ "data: {}" +:+ String CR nl;
           String CR nl]
  = emitted ["event: done" +:+ nl; "data: {}" +:+ nl +:+ nl].
Proof.
  apply (crlf_as_lf ["event: done"; "data: {}"; ""]).
  - repeat constructor.
  - reflexivity.
  - reflexivity.
Defined.

Lemma end_after_blank_line_witness :
  emitted ["data: a" +:+ nl; nl] = dispatched ["data: a" +:+ nl; nl].
Proof.
  apply (end_after_blank_line ["data: a" +:+ nl; nl] "data: a"). reflexivity.
Defined.

End SseProps.

(** * A further property of the abort coordinator *)
Module AbortProps.
Import Abort AbortFacts AbortFrameFacts.



End AbortProps.

(** * Further properties of the streaming run controller *)
Module ControllerProps.
Import Sse SseFacts SseLog Controller ControllerFacts ControllerMoreFacts.
Section Platform.
Variable JSON_parse : string -> option json.
Variable JSON_stringify : json -> string.
Variable Number_toString : Z -> string.
Variable URL_href : string -> string -> string.

Abbreviation done_payload := (Controller.done_payload JSON_parse).
Abbreviation attempted :=
  (Controller.attempted JSON_parse JSON_stringify Number_toString URL_href).
Abbreviation run :=
  (Controller.runStreamingAgentAndWait JSON_parse JSON_stringify Number_toString
     URL_href).
Abbreviation status_failure := (Controller.status_failure Number_toString URL_href).



(** X20 (a response without a body): a response with a success
    status that is not JSON and has no body makes the [try] block
    throw the configuration error after the one await of the fetcher,
    without a read; the call fails with it unless the timer ran during
    that await, in which case it fails with the timeout error. *)
Theorem missing_stream_body (client : Seclai) (w : World) (agentId : string)
    (body : json) (opts : option Options) (h : Abort.Store)
    (response : Response) :
  fetch_result w = inr response ->
  ok response = true ->
  includes "application/json" (default "" (content_type response)) = false ->
  Controller.body response = None ->
  fst (attempted client w agentId body opts h) = inl no_stream_body
  /\ reads (snd (run client w agentId body opts h)) = 0
  /\ fst (run client w agentId body opts h)
     = inl (if bool_decide (timer_fires_at w = Some 0)
            then timed_out Number_toString (timeout_budget opts)
            else no_stream_body).
Proof.
  intros Hf Hok Hj Hb.
  rewrite (run_unfold JSON_parse JSON_stringify Number_toString URL_href).
  cbv zeta. cbn [fst snd].
  rewrite (attempted_unfold JSON_parse JSON_stringify Number_toString URL_href).
  rewrite (attempt_no_body _ _ _ _ _ _ _ _ _ _ _ _ Hf Hok Hj Hb). cbn [fst snd].
  split; [reflexivity|]. split.
  - unfold clearTimeout. cbn [reads]. rewrite reads_suspend.
    unfold sending, send. cbn [snd reads]. apply reads_prepare.
  - rewrite timedOut_first_await.
    destruct (bool_decide (timer_fires_at w = Some 0)); reflexivity.
Qed.

(** X21 (a read that fails): when a read of the stream rejects
    before any [done] message with a truthy payload has been handed
    over and the timeout has not fired, the call fails with that
    rejection as it is, after exactly that many reads; the payloads
    seen so far are not returned, whatever their status. *)
Theorem read_failure_surfaces (client : Seclai) (w : World) (agentId : string)
    (body : json) (opts : option Options) (h : Abort.Store)
    (response : Response) (texts : list string) (reason : string)
    (rest : list ReadResult) :
  fetch_result w = inr response ->
  ok response = true ->
  includes "application/json" (default "" (content_type response)) = false ->
  Controller.body response = Some (chunks texts ++ ReadFails reason :: rest) ->
  Forall (fun m => truthy_opt (done_payload m) = false) (dispatched texts) ->
  timer_fires_at w = None ->
  fst (run client w agentId body opts h) = inl (Rejected reason)
  /\ reads (snd (run client w agentId body opts h)) = S (length texts).
Proof.
  intros Hf Hok Hj Hb Hq Hnone.
  assert (Hout : attempted client w agentId body opts h
                 = (inl (Rejected reason),
                    read_await w (fst (fst (prepare opts h)))
                      (after_reads w (fst (fst (prepare opts h))) (length texts)
                         (suspend w (fst (fst (prepare opts h)))
                            (sending JSON_stringify URL_href client agentId body
                               (snd (fst (prepare opts h)))
                               (snd (prepare opts h))))))).
  { rewrite (attempted_unfold JSON_parse JSON_stringify Number_toString URL_href).
    rewrite (attempt_stream _ _ _ _ _ _ _ _ _ _ _ _ _ Hf Hok Hj Hb).
    destruct (quiet_of_messages JSON_parse texts Hq) as [Hquiet Hlast].
    rewrite (read_loop_chunks _ _ _ _ _ _ _ Hquiet).
    rewrite (read_loop_fails _ _ _ _ _ _ _ Hlast). reflexivity. }
  split.
  - rewrite (run_no_timer _ _ _ _ _ _ _ _ _ _ Hnone). rewrite Hout. reflexivity.
  - rewrite (run_unfold JSON_parse JSON_stringify Number_toString URL_href).
    cbv zeta. cbn [snd]. rewrite Hout. cbn [snd].
    unfold clearTimeout. cbn [reads].
    unfold read_await at 1. rewrite reads_suspend. cbn [count_read snd reads].
    rewrite reads_after_reads, reads_suspend. unfold sending, send.
    cbn [snd reads]. rewrite reads_prepare. lia.
Qed.

End Platform.
End ControllerProps.

(** * Properties of the streaming call from its first line *)
Module StreamingProps.
Import Controller ControllerFacts ControllerMoreFacts Streaming.
Section Platform.
Variable JSON_parse : string -> option json.
Variable JSON_stringify : json -> string.
Variable Number_toString : Z -> string.
Variable URL_new : string -> string -> string + Executor.Url.
Variable URL_toString : Executor.Url -> string.

Abbreviation run :=
  (Streaming.runStreamingAgentAndWait JSON_parse JSON_stringify Number_toString
     URL_new URL_toString).



End Platform.
End StreamingProps.

(** ** The controller at work on the example client *)
Module ControllerWorked.
Import Controller Scenario.


(** No body, and the timer running while the fetcher is awaited. *)
Lemma missing_stream_body_witness :
  let response :=
    {| status := 200; content_type := Some "text/event-stream";
       text_clone := inr ""; json_clone := inl "not JSON";
       json_body := inl "not JSON"; body := None |} in
  fst (run (answers response None) None) = inl no_stream_body
  /\ fst (run (answers response (Some 0)) (Some {| timeoutMs := Some 5%Z;
                                                   signal := None |}))
     = inl (SeclaiError
              "Timed out after 5ms waiting for streaming agent run to complete.").
Proof.
  cbv zeta. split.
  - exact (proj2 (proj2
      (ControllerProps.missing_stream_body
         Platform.JSON_parse Platform.JSON_stringify
         Platform.Number_toString Platform.URL_href
         client
         (answers
            {| status := 200; content_type := Some "text/event-stream";
               text_clone := inr ""; json_clone := inl "not JSON";
               json_body := inl "not JSON"; body := None |} None)
         "ag_123" input None []
         {| status := 200; content_type := Some "text/event-stream";
            text_clone := inr ""; json_clone := inl "not JSON";
            json_body := inl "not JSON"; body := None |}
         eq_refl eq_refl eq_refl eq_refl))).
  - reflexivity.
Defined.

(** A completed run was announced, then the connection broke: the
    call fails. *)
Lemma read_failure_surfaces_witness :
  let script :=
    chunks [frame "init" (wire completed)] ++ [ReadFails "connection reset"] in
  fst (run (answers (sse_response script) None) None)
  = inl (Rejected "connection reset")
  /\ reads (snd (run (answers (sse_response script) None) None)) = 2.
Proof.
  cbv zeta.
  apply (ControllerProps.read_failure_surfaces
           Platform.JSON_parse Platform.JSON_stringify
           Platform.Number_toString Platform.URL_href
           client _ "ag_123" input None []
           (sse_response
              (chunks [frame "init" (wire completed)]
               ++ [ReadFails "connection reset"]))
           [frame "init" (wire completed)] "connection reset" []);
    try reflexivity.
  vm_compute. repeat constructor.
Defined.

End ControllerWorked.

(** * Properties of the request executor and of the resource methods *)
Module ExecutorProps.
Import Executor NameFacts.
Section Platform.
Variable Blob : Type.
Variable Blob_new : string -> option string -> Blob.
Variable JSON_stringify : json -> string.
Variable Number_toString : Z -> string.
Variable URL_new : string -> string -> string + Url.
Variable URL_toString : Url -> string.

Abbreviation String_of := (Executor.String_of Number_toString).
Abbreviation buildURL := (Executor.buildURL Number_toString URL_new).
Abbreviation failure := (Executor.failure Number_toString URL_toString).
Abbreviation request :=
  (Executor.request Blob JSON_stringify Number_toString URL_new URL_toString).
Abbreviation call_of := (Executor.call_of Blob JSON_stringify).
Abbreviation runAgent :=
  (Executor.runAgent Blob JSON_stringify Number_toString URL_new URL_toString).
Abbreviation listAgentRuns :=
  (Executor.listAgentRuns Blob JSON_stringify Number_toString URL_new URL_toString).
Abbreviation getAgentRun :=
  (Executor.getAgentRun Blob JSON_stringify Number_toString URL_new URL_toString).
Abbreviation deleteAgentRun :=
  (Executor.deleteAgentRun Blob JSON_stringify Number_toString URL_new URL_toString).
Abbreviation getContentDetail :=
  (Executor.getContentDetail Blob JSON_stringify Number_toString URL_new URL_toString).
Abbreviation listContentEmbeddings :=
  (Executor.listContentEmbeddings Blob JSON_stringify Number_toString URL_new
     URL_toString).
Abbreviation deleteContent :=
  (Executor.deleteContent Blob JSON_stringify Number_toString URL_new URL_toString).
Abbreviation listSources :=
  (Executor.listSources Blob JSON_stringify Number_toString URL_new URL_toString).
Abbreviation blob_of := (Executor.blob_of Blob Blob_new).
Abbreviation upload :=
  (Executor.upload Blob Blob_new JSON_stringify Number_toString URL_new URL_toString).
Abbreviation upload_call := (Executor.upload_call Blob Blob_new JSON_stringify).

(** X1 ([buildURL]): when [new URL(path, baseUrl)] succeeds, [buildURL]
    returns that URL with its query edited and nothing else changed:
    for every name, the parameter read back is [String(value)] of the
    last query entry of that name whose value is neither [undefined]
    nor [null], and the name then occurs exactly once; a name with no
    such entry keeps the parameters it had. *)
Theorem buildURL_query baseUrl path entries u :
  URL_new path baseUrl = inr u ->
  exists url,
    buildURL baseUrl path (Some entries) = inr url
    /\ location url = location u
    /\ forall name,
         get_name name (searchParams url)
         = match last_present name entries with
           | Some v => Some (String_of v)
           | None => get_name name (searchParams u)
           end
         /\ count_name name (searchParams url)
            = match last_present name entries with
              | Some _ => 1
              | None => count_name name (searchParams u)
              end.
Proof.
  intros Hu.
  destruct (ExecutorFacts.buildURL_found Number_toString URL_new
              baseUrl path (Some entries) u Hu) as (url & Hb & Hl & Hq).
  exists url. split; [exact Hb|]. split; [exact Hl|exact Hq].
Qed.


(** X3 ([Seclai.request], the outcome): with the fetcher's response
    [r] to the call, status 204 gives [null]; any other status outside
    200..299 throws the status error, or the validation error for 422,
    with the method, [url.toString()] and the text of the response
    when it can be read, so that a value is returned only for a status
    in 200..299; a response without a body gives [null]; otherwise the
    result is what [response.json()] settles with when the content
    type contains [application/json], and what [response.text()]
    settles with when it does not. *)
Theorem request_outcome client fetcher method path query json headers url r :
  buildURL (Controller.baseUrl client) path query = inr url ->
  fetcher (call_of client method url json headers) = inr r ->
  let outcome := fst (request client fetcher method path query json headers) in
  let isJson := includes "application/json" (default "" (content_type r)) in
  (ok r = false ->
   outcome = inl (failure method url r)
   /\ ((status r <> 422%Z
        /\ failure method url r
           = SeclaiAPIStatusError
               ("Request failed with status " +:+ Number_toString (status r))
               (status r) method (URL_toString url)
               (Controller.safe (text_clone r)))
       \/ (status r = 422%Z
           /\ failure method url r
              = SeclaiAPIValidationError "Validation error" 422 method
                  (URL_toString url) (Controller.safe (text_clone r))
                  (Controller.safe (json_clone r)))))
  /\ (forall v, outcome = inr v -> ok r = true)
  /\ (status r = 204%Z \/ (ok r = true /\ has_body r = false) -> outcome = inr RNull)
  /\ (ok r = true -> status r <> 204%Z -> has_body r = true ->
      outcome = if isJson then settled RJson (json_body r)
                else settled RText (text_body r)).
Proof.
  intros Hu Hr. cbv zeta. unfold Executor.request. rewrite Hu. cbv zeta.
  rewrite Hr. cbn [fst].
  assert (Hfail : ok r = false ->
    (if (status r =? 204)%Z then inr RNull
     else if negb (ok r) then inl (failure method url r)
          else if negb (has_body r) then inr RNull
               else if includes "application/json" (default "" (content_type r))
                    then settled RJson (json_body r)
                    else settled RText (text_body r))
    = (inl (failure method url r) : Error + Result)).
  { intros Hok. rewrite (ExecutorFacts.ok_not_204 _ Hok), Hok. reflexivity. }
  split; [|split; [|split]].
  - intros Hok. rewrite (Hfail Hok). split; [reflexivity|].
    unfold Executor.failure.
    destruct (Z.eqb_spec (status r) 422) as [H422|H422].
    + right. split; [exact H422|]. rewrite H422. reflexivity.
    + left. split; [exact H422|reflexivity].
  - intros v Hv. destruct (ok r) eqn:Hok; [reflexivity|].
    rewrite (Hfail eq_refl) in Hv. discriminate.
  - intros [H204|[Hok Hbody]].
    + rewrite H204. reflexivity.
    + rewrite Hok, Hbody. destruct (status r =? 204)%Z; reflexivity.
  - intros Hok H204 Hbody. rewrite Hok, Hbody.
    destruct (Z.eqb_spec (status r) 204); [contradiction|reflexivity].
Qed.


(** X5 ([getAgentRun], [deleteAgentRun]): the deprecated signatures
    with an agent identifier behave as the ones without it, whatever
    that identifier is. The call of [getAgentRun] is a GET without a
    body on [/agents/runs/{runId}], with the parameter
    [include_step_outputs=true] when the option is [true] and with no
    change to the query otherwise; [deleteAgentRun] makes a DELETE
    call on the same path with the query unchanged. *)
Theorem agent_run_signatures client fetcher agentId runId opts u :
  URL_new ("/agents/runs/" +:+ runId) (Controller.baseUrl client) = inr u ->
  getAgentRun client fetcher agentId (Some (inl runId)) (Some opts)
  = getAgentRun client fetcher runId (Some (inr opts)) None
  /\ getAgentRun client fetcher agentId (Some (inl runId)) None
     = getAgentRun client fetcher runId None None
  /\ deleteAgentRun client fetcher agentId (Some runId)
     = deleteAgentRun client fetcher runId None
  /\ (exists call,
        snd (getAgentRun client fetcher runId (Some (inr opts)) None) = [call]
        /\ call_method call = "GET"
        /\ call_body call = NoBody
        /\ location (call_url call) = location u
        /\ forall name,
             get_name name (searchParams (call_url call))
             = if (name =? "include_step_outputs")%string
                  && default false (includeStepOutputs opts)
               then Some "true"
               else get_name name (searchParams u))
  /\ (exists call,
        snd (deleteAgentRun client fetcher runId None) = [call]
        /\ call_method call = "DELETE"
        /\ call_body call = NoBody
        /\ call_url call = u).
Proof.
  intros Hu. split; [reflexivity|]. split; [reflexivity|]. split; [reflexivity|].
  split.
  - unfold Executor.getAgentRun. cbv zeta.
    set (query := if default false (includeStepOutputs opts)
                  then Some [("include_step_outputs", VBool true)] else None).
    destruct (ExecutorFacts.request_plain Blob JSON_stringify Number_toString
                URL_new URL_toString client fetcher "GET" _ query u Hu)
      as (call & Hc & Hm & Hb & Hl & Hq).
    exists call. repeat split; try assumption.
    intros name. rewrite (proj1 (Hq name)). unfold query.
    destruct (default false (includeStepOutputs opts)).
    + change (Some [("include_step_outputs", VBool true)] ≫= last_present name)
        with (if ("include_step_outputs" =? name)%string && true
              then Some (VBool true) else None).
      rewrite String.eqb_sym, !andb_true_r.
      destruct (name =? "include_step_outputs")%string; reflexivity.
    + rewrite andb_false_r. reflexivity.
  - unfold Executor.deleteAgentRun. cbn [default].
    assert (Hb : buildURL (Controller.baseUrl client)
                   ("/agents/runs/" +:+ runId) None = inr u).
    { unfold Executor.buildURL. rewrite Hu. reflexivity. }
    exists (call_of client "DELETE" u None None).
    split; [apply (ExecutorFacts.request_calls _ _ _ _ _ _ _ _ _ _ _ _ _ Hb)|].
    repeat split.
Qed.

(** X6 ([listSources]): the call is a GET on [/sources/] whose query
    carries [page], [limit], [sort] and [order] exactly once each,
    with the defaults 1, 20, [created_at] and [desc] for the options
    that are not given and the given value otherwise (a page 0 is sent
    as 0); [account_id] is set only for an account identifier that is
    a string: with [null] or nothing it is left as the URL had it, and
    no other parameter changes. *)
Theorem listSources_query client fetcher opts u :
  URL_new "/sources/" (Controller.baseUrl client) = inr u ->
  exists call,
    snd (listSources client fetcher opts) = [call]
    /\ call_method call = "GET"
    /\ call_body call = NoBody
    /\ location (call_url call) = location u
    /\ (let q := searchParams (call_url call) in
        get_name "page" q = Some (Number_toString (default 1%Z (src_page opts)))
        /\ get_name "limit" q = Some (Number_toString (default 20%Z (src_limit opts)))
        /\ get_name "sort" q = Some (default "created_at" (sort opts))
        /\ get_name "order" q = Some (default "desc" (order opts))
        /\ get_name "account_id" q
           = match accountId opts with
             | Some (Some a) => Some a
             | _ => get_name "account_id" (searchParams u)
             end
        /\ Forall (fun name => count_name name q = 1)
             ["page"; "limit"; "sort"; "order"]
        /\ forall name,
             name ∉ ["page"; "limit"; "sort"; "order"; "account_id"] ->
             get_name name q = get_name name (searchParams u)
             /\ count_name name q = count_name name (searchParams u)).
Proof.
  intros Hu. unfold Executor.listSources.
  match goal with
  | |- context [Executor.request _ _ _ _ _ _ _ _ _ ?query None None] =>
      destruct (ExecutorFacts.request_plain Blob JSON_stringify Number_toString
                  URL_new URL_toString client fetcher "GET" _ query u Hu)
        as (call & Hc & Hm & Hb & Hl & Hq)
  end.
  exists call. split; [exact Hc|]. split; [exact Hm|]. split; [exact Hb|].
  split; [exact Hl|]. cbv zeta.
  split; [rewrite (proj1 (Hq _)); cbn;
          destruct (accountId opts) as [[a|]|]; reflexivity|].
  split; [rewrite (proj1 (Hq _)); cbn;
          destruct (accountId opts) as [[a|]|]; reflexivity|].
  split; [rewrite (proj1 (Hq _)); cbn;
          destruct (accountId opts) as [[a|]|]; reflexivity|].
  split; [rewrite (proj1 (Hq _)); cbn;
          destruct (accountId opts) as [[a|]|]; reflexivity|].
  split; [rewrite (proj1 (Hq _)); cbn;
          destruct (accountId opts) as [[a|]|]; reflexivity|].
  split.
  - repeat constructor; rewrite (proj2 (Hq _)); cbn;
      destruct (accountId opts) as [[a|]|]; reflexivity.
  - intros name Hname.
    assert (Hnone : last_present name
              [("page", VNumber (default 1%Z (src_page opts)));
               ("limit", VNumber (default 20%Z (src_limit opts)));
               ("sort", VString (default "created_at" (sort opts)));
               ("order", VString (default "desc" (order opts)));
               ("account_id",
                match accountId opts with
                | Some (Some a) => VString a
                | _ => VUndefined
                end)] = None).
    { cbn [last_present].
      repeat match goal with
      | |- context [(?k =? name)%string] =>
          let E := fresh "E" in
          destruct (k =? name)%string eqn:E;
            [apply String.eqb_eq in E; exfalso; apply Hname; rewrite <- E;
             repeat constructor|clear E]
      end.
      cbn. reflexivity. }
    destruct (Hq name) as [Hg Hn]. cbn [mbind option_bind] in Hg, Hn.
    rewrite Hnone in Hg, Hn. split; assumption.
Qed.

(** X7 ([listAgentRuns], [listContentEmbeddings], [getContentDetail]):
    each makes one GET call without a body on its path, with exactly
    one parameter of each of its two names: [page] and [limit] with
    the defaults 1 and 50 for the runs of an agent and 1 and 20 for
    the embeddings of a content version, [start] and [end] with the
    defaults 0 and 5000 for the detail of a content version; a value
    that is given is sent as it is. *)
Theorem paging_defaults client fetcher agentId version paging range u1 u2 u3 :
  URL_new ("/agents/" +:+ agentId +:+ "/runs") (Controller.baseUrl client) = inr u1 ->
  URL_new ("/contents/" +:+ version +:+ "/embeddings") (Controller.baseUrl client)
  = inr u2 ->
  URL_new ("/contents/" +:+ version) (Controller.baseUrl client) = inr u3 ->
  let sends (calls : list (Call Blob)) (u : Url) (n1 : string) (v1 : Z)
        (n2 : string) (v2 : Z) :=
    exists call,
      calls = [call]
      /\ call_method call = "GET"
      /\ call_body call = NoBody
      /\ location (call_url call) = location u
      /\ get_name n1 (searchParams (call_url call)) = Some (Number_toString v1)
      /\ get_name n2 (searchParams (call_url call)) = Some (Number_toString v2)
      /\ count_name n1 (searchParams (call_url call)) = 1
      /\ count_name n2 (searchParams (call_url call)) = 1 in
  sends (snd (listAgentRuns client fetcher agentId paging)) u1
    "page" (default 1%Z (page paging)) "limit" (default 50%Z (limit paging))
  /\ sends (snd (listContentEmbeddings client fetcher version paging)) u2
       "page" (default 1%Z (page paging)) "limit" (default 20%Z (limit paging))
  /\ sends (snd (getContentDetail client fetcher version range)) u3
       "start" (default 0%Z (range_start range))
       "end" (default 5000%Z (range_end range)).
Proof.
  intros H1 H2 H3. cbv zeta.
  unfold Executor.listAgentRuns, Executor.listContentEmbeddings,
    Executor.getContentDetail.
  split; [|split].
  - match goal with
    | |- context [Executor.request _ _ _ _ _ _ _ _ _ ?query None None] =>
        destruct (ExecutorFacts.request_plain Blob JSON_stringify Number_toString
                    URL_new URL_toString client fetcher "GET" _ query u1 H1)
          as (call & Hc & Hm & Hb & Hl & Hq)
    end.
    exists call. repeat split; try assumption;
      first [rewrite (proj1 (Hq _))|rewrite (proj2 (Hq _))]; reflexivity.
  - match goal with
    | |- context [Executor.request _ _ _ _ _ _ _ _ _ ?query None None] =>
        destruct (ExecutorFacts.request_plain Blob JSON_stringify Number_toString
                    URL_new URL_toString client fetcher "GET" _ query u2 H2)
          as (call & Hc & Hm & Hb & Hl & Hq)
    end.
    exists call. repeat split; try assumption;
      first [rewrite (proj1 (Hq _))|rewrite (proj2 (Hq _))]; reflexivity.
  - match goal with
    | |- context [Executor.request _ _ _ _ _ _ _ _ _ ?query None None] =>
        destruct (ExecutorFacts.request_plain Blob JSON_stringify Number_toString
                    URL_new URL_toString client fetcher "GET" _ query u3 H3)
          as (call & Hc & Hm & Hb & Hl & Hq)
    end.
    exists call. repeat split; try assumption;
      first [rewrite (proj1 (Hq _))|rewrite (proj2 (Hq _))]; reflexivity.
Qed.


(** X9 (the outcome of an upload, against [request]): an upload
    throws the same status or validation error as a request for a
    status outside 200..299 and otherwise returns what
    [response.json()] settles with, whatever the status, the content
    type and the body are; so a 204 response, for which [request]
    returns [null] without reading anything, makes an upload fail
    when its [json()] rejects. *)
Theorem upload_outcome client fetcher path opts u r :
  URL_new path (Controller.baseUrl client) = inr u ->
  fetcher (upload_call client u opts) = inr r ->
  fst (upload client fetcher path opts)
  = (if ok r then settled (fun v => v) (json_body r)
     else inl (failure "POST" u r))
  /\ (forall method query json headers,
        fetcher (call_of client method u json headers) = inr r ->
        buildURL (Controller.baseUrl client) path query = inr u ->
        (ok r = false ->
         fst (request client fetcher method path query json headers)
         = inl (failure method u r))
        /\ (status r = 204%Z ->
            fst (request client fetcher method path query json headers)
            = inr RNull))
  /\ (status r = 204%Z ->
      forall reason, json_body r = inl reason ->
      fst (upload client fetcher path opts) = inl (Rejected reason)).
Proof.
  intros Hu Hr.
  assert (Hup : fst (upload client fetcher path opts)
                = (if ok r then settled (fun v => v) (json_body r)
                   else inl (failure "POST" u r))).
  { unfold Executor.upload, Executor.buildURL. rewrite Hu. cbv zeta.
    fold (upload_call client u opts). rewrite Hr. cbn [fst].
    destruct (ok r); reflexivity. }
  split; [exact Hup|]. split.
  - intros method query json headers Hr' Hb.
    unfold Executor.request. rewrite Hb.
    cbv zeta. rewrite Hr'. cbn [fst]. split.
    + intros Hok. rewrite (ExecutorFacts.ok_not_204 _ Hok), Hok. reflexivity.
    + intros H204. rewrite H204. reflexivity.
  - intros H204 reason Hj. rewrite Hup.
    unfold ok. rewrite H204, Hj. reflexivity.
Qed.

(** X11 ([deleteContent]): the method makes one DELETE call on
    [/contents/{version}] and returns nothing for a response with a
    status in 200..299 that is 204, has no body, or has a body that
    can be read; the body is read although its value is dropped, so a
    JSON body that cannot be decoded makes the method fail; and a
    status outside 200..299 gives the error of [request]. *)
Theorem deleteContent_outcome client fetcher version u r :
  URL_new ("/contents/" +:+ version) (Controller.baseUrl client) = inr u ->
  fetcher (call_of client "DELETE" u None None) = inr r ->
  let result := deleteContent client fetcher version in
  let isJson := includes "application/json" (default "" (content_type r)) in
  snd result = [call_of client "DELETE" u None None]
  /\ (ok r = false -> fst result = inl (failure "DELETE" u r))
  /\ (ok r = true -> status r = 204%Z \/ has_body r = false ->
      fst result = inr tt)
  /\ (ok r = true -> status r <> 204%Z -> has_body r = true ->
      fst result
      = if isJson
        then match json_body r with
             | inr _ => inr tt
             | inl reason => inl (Rejected reason)
             end
        else match text_body r with
             | inr _ => inr tt
             | inl reason => inl (Rejected reason)
             end).
Proof.
  intros Hu Hr. cbv zeta. unfold Executor.deleteContent, Executor.request.
  unfold Executor.buildURL. rewrite Hu. cbv zeta. rewrite Hr.
  split; [|split; [|split]].
  - destruct (status r =? 204)%Z; [reflexivity|].
    destruct (negb (ok r)); [reflexivity|].
    destruct (negb (has_body r)); [reflexivity|].
    destruct (includes _ _);
      [destruct (json_body r)|destruct (text_body r)]; reflexivity.
  - intros Hok. rewrite (ExecutorFacts.ok_not_204 _ Hok), Hok. reflexivity.
  - intros Hok [H204|Hbody].
    + rewrite H204. reflexivity.
    + rewrite Hok, Hbody. destruct (status r =? 204)%Z; reflexivity.
  - intros Hok H204 Hbody. rewrite Hok, Hbody.
    destruct (Z.eqb_spec (status r) 204); [contradiction|]. cbn [negb].
    destruct (includes _ _);
      [destruct (json_body r)|destruct (text_body r)]; reflexivity.
Qed.

End Platform.

(** X10 ([new Seclai(opts)], [getEnv]): the constructor succeeds
    exactly when the API key it resolves is a non-empty string and a
    fetch implementation is available. The key is the option when one
    is given, the empty string included, and only otherwise the
    environment variable; a missing key is reported before a missing
    fetch implementation. The client built holds that key, the fetch
    implementation of the options before the global one, the base URL
    of the options before that of the environment before the default
    one, the header name [x-api-key] unless one is given, and the
    default headers given, if any. *)
Theorem construct_outcome {Blob} (g : Globals Blob) (opts : SeclaiOptions Blob) :
  let key := nullish (opt_apiKey opts) (getEnv g "SECLAI_API_KEY") in
  let fetcher := nullish (opt_fetch opts) (global_fetch g) in
  ((exists built, construct g opts = inr built)
   <-> (exists k, key = Some k /\ k <> "") /\ (exists f, fetcher = Some f))
  /\ (construct g opts = inl missing_api_key
      <-> key = None \/ key = Some "")
  /\ (construct g opts = inl missing_fetch
      <-> (exists k, key = Some k /\ k <> "") /\ fetcher = None)
  /\ (opt_apiKey opts = Some "" -> construct g opts = inl missing_api_key)
  /\ (forall client f, construct g opts = inr (client, f) ->
        key = Some (Controller.apiKey client)
        /\ Controller.apiKey client <> ""
        /\ fetcher = Some f
        /\ Controller.baseUrl client
           = match opt_baseUrl opts, getEnv g "SECLAI_API_URL" with
             | Some b, _ => b
             | None, Some b => b
             | None, None => "https://api.seclai.com"
             end
        /\ Controller.apiKeyHeader client
           = default "x-api-key" (opt_apiKeyHeader opts)
        /\ Controller.defaultHeaders client = default ∅ (opt_defaultHeaders opts)).
Proof.
  cbv zeta. unfold construct.
  destruct (nullish (opt_apiKey opts) (getEnv g "SECLAI_API_KEY")) as [k|] eqn:Hk.
  2:{ split; [|split; [|split; [|split]]].
      - split; [intros [b Hb]; discriminate|intros [(k & Hk' & _) _]; discriminate].
      - split; auto.
      - split; [discriminate|intros [(k & Hk' & _) _]; discriminate].
      - reflexivity.
      - discriminate. }
  destruct k as [|a k]; cbn [nonempty negb].
  { split; [|split; [|split; [|split]]].
    - split; [intros [b Hb]; discriminate|].
      intros [(k & [= <-] & Hne) _]. contradiction.
    - split; auto.
    - split; [discriminate|]. intros [(k & [= <-] & Hne) _]. contradiction.
    - reflexivity.
    - discriminate. }
  assert (Hopt : opt_apiKey opts <> Some "").
  { intros Hopt. rewrite Hopt in Hk. discriminate. }
  destruct (nullish (opt_fetch opts) (global_fetch g)) as [f|] eqn:Hf.
  - split; [|split; [|split; [|split]]].
    + split; [|eauto]. intros _. split; [|eauto].
      eexists. split; [reflexivity|discriminate].
    + split; [discriminate|intros [|]; discriminate].
    + split; [discriminate|intros [_ ?]; discriminate].
    + intros Hopt'. contradiction.
    + intros client f' [= <- <-]. cbn.
      split; [reflexivity|]. split; [discriminate|]. split; [reflexivity|].
      split; [|split; reflexivity].
      destruct (opt_baseUrl opts), (getEnv g "SECLAI_API_URL"); reflexivity.
  - split; [|split; [|split; [|split]]].
    + split; [intros [b Hb]; discriminate|intros [_ [f Hf']]; discriminate].
    + split; [discriminate|intros [|]; discriminate].
    + split; [|reflexivity]. intros _. split; [|reflexivity].
      eexists. split; [reflexivity|discriminate].
    + intros Hopt'. contradiction.
    + discriminate.
Qed.

End ExecutorProps.

(** ** The executor at work on the example client *)
Module ExecutorWorked.
Import Executor ExecutorScenario.

(** A later entry of a name replaces an earlier one, and a [null]
    entry sets nothing. *)
Lemma buildURL_query_witness :
  exists url,
    buildURL "https://example.invalid" "/sources/"
      (Some [("page", VNumber 2); ("q", VNull); ("page", VNumber 3)]) = inr url
    /\ location url = "https://example.invalid/sources/"
    /\ get_name "page" (searchParams url) = Some "3"
    /\ count_name "page" (searchParams url) = 1
    /\ get_name "q" (searchParams url) = None.
Proof.
  destruct (ExecutorProps.buildURL_query Platform.Number_toString URL_new
              "https://example.invalid" "/sources/"
              [("page", VNumber 2); ("q", VNull); ("page", VNumber 3)]
              (at_path "/sources/" []) eq_refl)
    as (url & Hb & Hl & Hq).
  exists url. split; [exact Hb|]. split; [exact Hl|].
  split; [exact (proj1 (Hq "page"))|].
  split; [exact (proj2 (Hq "page"))|exact (proj1 (Hq "q"))].
Defined.


Lemma request_outcome_witness :
  fst (request client (always not_found) "GET" "/sources/"
         (Some [("page", VNumber 2)]) None None)
  = inl (SeclaiAPIStatusError "Request failed with status 404" 404 "GET"
           "https://example.invalid/sources/?page=2" (Some "missing")).
Proof.
  pose proof (ExecutorProps.request_outcome Blob Platform.JSON_stringify
                Platform.Number_toString URL_new URL_toString
                client (always not_found) "GET" "/sources/"
                (Some [("page", VNumber 2)]) None None
                (at_path "/sources/" [("page", "2")]) not_found
                eq_refl eq_refl) as H.
  cbv zeta in H. exact (proj1 (proj1 H eq_refl)).
Defined.


Lemma agent_run_signatures_witness :
  getAgentRun (always not_found) "ag_123" (Some (inl "run_9"))
    (Some {| includeStepOutputs := Some true |})
  = getAgentRun (always not_found) "run_9"
      (Some (inr {| includeStepOutputs := Some true |})) None
  /\ exists call,
       snd (getAgentRun (always not_found) "run_9"
              (Some (inr {| includeStepOutputs := Some true |})) None) = [call]
       /\ get_name "include_step_outputs" (searchParams (call_url call))
          = Some "true".
Proof.
  destruct (ExecutorProps.agent_run_signatures Blob Platform.JSON_stringify
              Platform.Number_toString URL_new URL_toString
              client (always not_found) "ag_123" "run_9"
              {| includeStepOutputs := Some true |}
              (at_path "/agents/runs/run_9" []) eq_refl)
    as (Hold & _ & _ & (call & Hc & _ & _ & _ & Hq) & _).
  split; [exact Hold|]. exists call. split; [exact Hc|].
  exact (Hq "include_step_outputs").
Defined.

(** An account identifier that is [null] sets no parameter, and a page
    0 is sent as it is. *)
Lemma listSources_query_witness :
  let opts := {| src_page := Some 0%Z; src_limit := None; sort := None;
                 order := Some "asc"; accountId := Some None |} in
  exists call,
    snd (listSources (always not_found) opts) = [call]
    /\ call_url call
       = at_path "/sources/"
           [("page", "0"); ("limit", "20"); ("sort", "created_at");
            ("order", "asc")]
    /\ get_name "account_id" (searchParams (call_url call)) = None.
Proof.
  cbv zeta.
  destruct (ExecutorProps.listSources_query Blob Platform.JSON_stringify
              Platform.Number_toString URL_new URL_toString
              client (always not_found)
              {| src_page := Some 0%Z; src_limit := None; sort := None;
                 order := Some "asc"; accountId := Some None |}
              (at_path "/sources/" []) eq_refl)
    as (call & Hc & _ & _ & _ & _ & _ & _ & _ & Ha & _).
  exists call. split; [exact Hc|]. split; [|exact Ha].
  vm_compute in Hc. injection Hc as <-. vm_compute. reflexivity.
Defined.

Lemma paging_defaults_witness :
  exists call,
    snd (getContentDetail (always not_found) "cv_1"
           {| range_start := None; range_end := Some 100%Z |}) = [call]
    /\ get_name "start" (searchParams (call_url call)) = Some "0"
    /\ get_name "end" (searchParams (call_url call)) = Some "100".
Proof.
  destruct (ExecutorProps.paging_defaults Blob Platform.JSON_stringify
              Platform.Number_toString URL_new URL_toString
              client (always not_found) "ag_123" "cv_1"
              {| page := None; limit := None |}
              {| range_start := None; range_end := Some 100%Z |}
              (at_path "/agents/ag_123/runs" [])
              (at_path "/contents/cv_1/embeddings" [])
              (at_path "/contents/cv_1" [])
              eq_refl eq_refl eq_refl)
    as (_ & _ & (call & Hc & _ & _ & _ & Hs & He & _)).
  exists call. split; [exact Hc|]. split; [exact Hs|exact He].
Defined.


(** A 204 response: [request] returns [null], an upload fails on the
    body that is not there. *)
Lemma upload_outcome_witness :
  fst (uploadFileToSource (always no_content) "sc_1" document)
  = inl (Rejected "Unexpected end of JSON input")
  /\ fst (request client (always no_content) "DELETE" "/sources/sc_1/upload"
            None None None) = inr RNull.
Proof.
  destruct (ExecutorProps.upload_outcome Blob Blob_new Platform.JSON_stringify
              Platform.Number_toString URL_new URL_toString
              client (always no_content) "/sources/sc_1/upload" document
              (at_path "/sources/sc_1/upload" []) no_content eq_refl eq_refl)
    as (_ & Hreq & Hup).
  split; [exact (Hup eq_refl _ eq_refl)|].
  exact (proj2 (Hreq "DELETE" None None None eq_refl eq_refl) eq_refl).
Defined.

(** A success whose JSON body cannot be decoded: the value would be
    dropped, and the method fails all the same. *)
Lemma deleteContent_outcome_witness :
  let garbled := reply 200 "application/json" "{" (inl "Unexpected end of JSON input") in
  fst (deleteContent (always garbled) "cv_1")
  = inl (Rejected "Unexpected end of JSON input").
Proof.
  cbv zeta.
  pose proof (ExecutorProps.deleteContent_outcome Blob Platform.JSON_stringify
                Platform.Number_toString URL_new URL_toString
                client
                (always (reply 200 "application/json" "{"
                           (inl "Unexpected end of JSON input")))
                "cv_1" (at_path "/contents/cv_1" [])
                (reply 200 "application/json" "{"
                   (inl "Unexpected end of JSON input"))
                eq_refl eq_refl) as H.
  cbv zeta in H. destruct H as (_ & _ & _ & H).
  unfold deleteContent.
  rewrite (H eq_refl) by (reflexivity || (simpl; discriminate)). reflexivity.
Defined.

End ExecutorWorked.

(** * Properties of the version script *)
Module SetVersionProps.
Import SetVersion SetVersionFacts.
Section Platform.
Variable trim : string -> string.

Abbreviation apply := (SetVersion.apply trim).
Abbreviation effective := (SetVersion.effective trim).


(** X24 (a package without a string version): when the version of
    the package is missing or is not a string, a run of [apply] that
    writes a version is not undone by [restore]: the backup is
    removed and the package keeps the version that was applied. *)
Theorem restore_keeps_applied_version (VERSION : option string) (fs : Files)
    (v : string) :
  backup fs = None ->
  (forall s, lookup_field "version" (package_json fs) <> Some (JString s)) ->
  effective VERSION = Some v ->
  restore (apply VERSION fs)
  = inr {| package_json :=
             Platform.set_field "version" (JString v) (package_json fs);
           backup := None |}
  /\ restore (apply VERSION fs) <> inr fs.
Proof.
  intros Hb Hv He.
  assert (Hr : restore (apply VERSION fs)
               = inr {| package_json :=
                          Platform.set_field "version" (JString v) (package_json fs);
                        backup := None |}).
  { rewrite (apply_effective trim), He, Hb.
    unfold restore, restore_from, version_record. cbn [backup package_json].
    destruct (lookup_field "version" (package_json fs)) as [x|] eqn:Hx.
    - cbn [get lookup_field String.eqb Ascii.eqb Bool.eqb].
      destruct x; try reflexivity. exfalso. exact (Hv _ eq_refl).
    - reflexivity. }
  split; [exact Hr|]. rewrite Hr. intros [= Heq].
  apply (Hv v). rewrite <- Heq at 1. cbn [package_json].
  apply lookup_set_field.
Qed.

End Platform.

Import SetVersionScenario.

(** The version applied to a package without one stays. *)
Lemma restore_keeps_applied_version_witness :
  restore (apply trim (Some "v1.2.3") unversioned)
  = inr {| package_json := [("name", JString "seclai");
                            ("version", JString "1.2.3")];
           backup := None |}.
Proof.
  refine (proj1 (restore_keeps_applied_version trim (Some "v1.2.3")
                   unversioned "1.2.3" eq_refl _ eq_refl)).
  intros s. discriminate.
Defined.

End SetVersionProps.

(** * Properties of the version script on its files *)
Module SetVersionScriptProps.
Import SetVersion SetVersionFacts SetVersionScript SetVersionScriptFacts.
Section Platform.
Variable trim : string -> string.
Variable JSON_parse : string -> option json.
Variable JSON_format : json -> string.

Abbreviation effective := (SetVersion.effective trim).
Abbreviation written := (SetVersionScript.written JSON_format).
Abbreviation reads_back := (SetVersionScript.reads_back JSON_parse JSON_format).
Abbreviation main := (SetVersionScript.main trim JSON_parse JSON_format).
Abbreviation run_all := (SetVersionScript.run_all trim JSON_parse JSON_format).
Abbreviation holds := (SetVersionScript.holds JSON_parse).

(** X23 ([apply], then [restore], on the files): let [package.json]
    hold an object whose version is a string, with no backup left
    over, and let [JSON.parse] give back the documents that are
    written. Then any number of runs of [apply], with whatever
    versions, followed by one [restore] exit with code 0 each and
    leave no backup behind. When no run wrote a version, the package
    file is untouched; otherwise it is the text [writeJson] writes
    for the original document, which holds the same document as
    before but is the same text only if the file was written that
    way. *)
Theorem restore_undoes_apply (versions : list (option string)) (d : Disk)
    (text : string) (fields : list (string * json)) (original : string) :
  package_file d = Some text ->
  backup_file d = None ->
  JSON_parse text = Some (JObject fields) ->
  lookup_field "version" fields = Some (JString original) ->
  reads_back (JObject [("version", JString original)]) ->
  Forall (fun v =>
            reads_back (JObject (Platform.set_field "version" (JString v) fields)))
    (omap effective versions) ->
  let restored :=
    match omap effective versions with
    | [] => text
    | _ :: _ => written (JObject fields)
    end in
  run_all (map (fun V => (Some "apply", V)) versions ++ [(Some "restore", None)]) d
  = ({| package_file := Some restored; backup_file := None |},
     repeat 0%Z (S (length versions)))
  /\ (reads_back (JObject fields) -> JSON_parse restored = Some (JObject fields)).
Proof.
  intros Hp Hb Ht Hv Hback Hall. cbv zeta. split.
  - destruct d as [pf bf]. cbn in Hp, Hb. subst pf bf.
    induction versions as [|V versions IH].
    + cbn [map app omap]. rewrite run_all_cons.
      rewrite main_restore_none by reflexivity. reflexivity.
    + cbn [map app]. rewrite run_all_cons.
      change (omap effective (V :: versions))
        with (match effective V with
              | Some y => y :: omap effective versions
              | None => omap effective versions
              end) in Hall |- *.
      destruct (effective V) as [v|] eqn:He.
      * apply Forall_cons in Hall as [Hdoc Hall].
        erewrite main_apply_first; [|exact He|reflexivity|reflexivity|exact Ht].
        cbn [fst snd]. rewrite Hv.
        change (record_of (Some (JString original)))
          with (JObject [("version", JString original)]).
        rewrite (run_all_from_written trim JSON_parse JSON_format
                   versions fields original v Hv Hback Hdoc Hall).
        reflexivity.
      * rewrite (main_apply_skip trim JSON_parse JSON_format V _ He).
        cbn [fst snd]. rewrite (IH Hall). reflexivity.
  - intros Hfields. destruct (omap effective versions); [exact Ht|exact Hfields].
Qed.

(** Closing a case of the script: the outcome is known. *)
Ltac close_goal :=
  intros;
  repeat match goal with
         | H : forall k, Some ?kept = Some k -> _ |- _ =>
             destruct (H kept eq_refl) as (? & ? & ?); clear H
         | H : Some _ = Some _ |- _ => injection H as H; try subst
         | H : _ /\ _ |- _ => destruct H
         end;
  first
    [ reflexivity | discriminate | contradiction | congruence | lia
    | solve [auto]
    | solve [left; reflexivity]
    | solve [split; congruence]
    | solve [right; repeat split; try reflexivity;
             do 2 eexists; repeat split; eauto; discriminate] ].

Ltac close_case :=
  split; [solve [auto]|];
  split; [split; close_goal|];
  split; [close_goal|];
  split; [close_goal|];
  split; [close_goal|];
  split; [close_goal|close_goal].

(** X25 (exit codes, on the files): a command other than [apply] and
    [restore], or none, exits with code 2 and touches nothing;
    [restore] without a backup and [apply] without a version to write
    exit with code 0 without reading or writing a file; a run that
    ends in an uncaught exception, with exit code 1, leaves the files
    as they were, except that [apply] has written the backup [{}]
    before it throws when there was no backup and [package.json]
    holds a boolean, a number or a string; and no run throws when
    [package.json] holds an object and the backup, if there is one,
    holds a document other than [null]. *)
Theorem exit_codes (command VERSION : option string) (d : Disk) :
  let result := main command VERSION d in
  (snd result = 0%Z \/ snd result = 1%Z \/ snd result = 2%Z)
  /\ (snd result = 2%Z
      <-> command <> Some "apply" /\ command <> Some "restore")
  /\ (snd result = 2%Z -> fst result = d)
  /\ (snd result = 1%Z ->
      fst result = d
      \/ (command = Some "apply" /\ backup_file d = None
          /\ (exists text x,
                package_file d = Some text /\ JSON_parse text = Some x
                /\ (forall fields, x <> JObject fields)
                /\ (forall items, x <> JArray items) /\ x <> JNull)
          /\ fst result = put BACKUP (Some (written (JObject []))) d))
  /\ (command = Some "restore" -> backup_file d = None -> result = (d, 0%Z))
  /\ (command = Some "apply" -> effective VERSION = None -> result = (d, 0%Z))
  /\ (forall text fields,
        package_file d = Some text ->
        JSON_parse text = Some (JObject fields) ->
        (forall kept, backup_file d = Some kept ->
                      exists b, JSON_parse kept = Some b /\ b <> JNull) ->
        snd result <> 1%Z).
Proof.
  cbv zeta.
  destruct command as [c|]; [|cbn; close_case].
  destruct (String.eqb_spec c "apply") as [->|Ha].
  { rewrite main_apply, apply_command_effective.
    destruct (effective VERSION) as [v|] eqn:He; [|cbn; close_case].
    destruct d as [pf bf].
    unfold bind, readJson, existsSync. cbn.
    destruct pf as [text|]; [|cbn; close_case].
    destruct (JSON_parse text) as [x|] eqn:Hx; [|cbn; close_case].
    destruct bf as [kept|]; destruct x; cbn; close_case. }
  destruct (String.eqb_spec c "restore") as [->|Hr].
  { rewrite main_restore.
    destruct d as [pf bf].
    unfold restore_command, bind, readJson, existsSync. cbn.
    destruct bf as [kept|]; [|cbn; close_case].
    cbn.
    destruct (JSON_parse kept) as [b|] eqn:Hk; [|cbn; close_case].
    destruct pf as [text|]; [|cbn; close_case].
    cbn.
    destruct (JSON_parse text) as [x|] eqn:Hx; [|cbn; close_case].
    unfold get_version.
    destruct b; cbn; try close_case;
      destruct (lookup_field "version" fields) as [[]|]; cbn; try close_case;
      destruct x; cbn; close_case. }
  assert (Hother : main (Some c) VERSION d = (d, 2%Z)).
  { unfold SetVersionScript.main, script.
    destruct (String.eqb_spec c "apply"); [contradiction|].
    destruct (String.eqb_spec c "restore"); [contradiction|]. reflexivity. }
  rewrite Hother. cbn [fst snd]. close_case.
Qed.

(** X27 (the script and its documents): on a disk whose
    [package.json] holds an object and whose backup, if there is one,
    holds a document, a run of [apply] exits with code 0 and does to
    the documents what the document-level [apply] says, provided
    [JSON.parse] gives back the documents it writes; and [restore]
    exits with code 1 and leaves the files as they are when the
    backup holds [null], and otherwise exits with code 0 and does to
    the documents what the document-level [restore] says. *)
Theorem script_follows_documents (VERSION : option string) (d : Disk) (fs : Files) :
  holds d fs ->
  (reads_back (version_record (package_json fs)) ->
   (forall v, effective VERSION = Some v ->
              reads_back (JObject (Platform.set_field "version" (JString v)
                                     (package_json fs)))) ->
   holds (fst (main (Some "apply") VERSION d)) (SetVersion.apply trim VERSION fs)
   /\ snd (main (Some "apply") VERSION d) = 0%Z)
  /\ match SetVersion.restore fs with
     | inl _ => main (Some "restore") VERSION d = (d, 1%Z)
     | inr fs' =>
         (reads_back (JObject (package_json fs')) ->
          holds (fst (main (Some "restore") VERSION d)) fs')
         /\ snd (main (Some "restore") VERSION d) = 0%Z
     end.
Proof.
  intros [(text & Hp & Ht) Hb]. destruct d as [pf bf]. cbn in Hp, Hb. subst pf.
  destruct fs as [fields backup]. cbn [package_json SetVersion.backup] in *.
  split.
  - intros Hrec Hdoc. rewrite (apply_effective trim).
    destruct (effective VERSION) as [v|] eqn:He.
    + specialize (Hdoc v eq_refl). destruct bf as [kept|].
      * destruct Hb as (b & Hk & ->).
        erewrite main_apply_again; [|exact He|reflexivity|reflexivity|exact Ht].
        split; [|reflexivity]. split.
        -- eexists. split; [reflexivity|exact Hdoc].
        -- cbn. exists b. split; [exact Hk|reflexivity].
      * subst backup.
        erewrite main_apply_first; [|exact He|reflexivity|reflexivity|exact Ht].
        split; [|reflexivity]. split.
        -- eexists. split; [reflexivity|exact Hdoc].
        -- cbn. eexists. split; [exact Hrec|reflexivity].
    + rewrite (main_apply_skip trim JSON_parse JSON_format VERSION _ He).
      split; [|reflexivity]. split; [exists text; split; [reflexivity|exact Ht]|].
      exact Hb.
  - unfold SetVersion.restore. cbn [SetVersion.backup].
    destruct bf as [kept|].
    + destruct Hb as (b & Hk & ->). unfold restore_from.
      assert (Hnull : b = JNull \/ b <> JNull)
        by (destruct b; (left; reflexivity) || (right; discriminate)).
      destruct Hnull as [->|Hn].
      * rewrite main_restore. unfold restore_command, bind, readJson, existsSync.
        cbn. rewrite Hk. cbn. rewrite Ht. reflexivity.
      * assert (Hcase : (exists s, get "version" b = Some (JString s))
                        \/ forall s, get "version" b <> Some (JString s)).
        { destruct (get "version" b) as [[]|]; eauto; right; intros; discriminate. }
        destruct Hcase as [(s & Hs)|Hs].
        -- erewrite main_restore_string;
             [|reflexivity|reflexivity|exact Hk|exact Hn|exact Hs|exact Ht].
           destruct b; try contradiction; cbn [package_json]; rewrite Hs;
             (split; [|reflexivity]); intros Hdoc;
             (split; [eexists; split; [reflexivity|exact Hdoc]|reflexivity]).
        -- erewrite main_restore_other;
             [|reflexivity|reflexivity|exact Hk|exact Hn|exact Hs|exact Ht].
           assert (Hsame : match get "version" b with
                           | Some (JString s) =>
                               Platform.set_field "version" (JString s) fields
                           | _ => fields
                           end = fields).
           { destruct (get "version" b) as [[]|] eqn:Hg; try reflexivity.
             exfalso. exact (Hs _ eq_refl). }
           destruct b; try contradiction; cbn [package_json]; rewrite Hsame;
             (split; [|reflexivity]); intros _;
             (split; [exists text; split; [reflexivity|exact Ht]|reflexivity]).
    + subst backup. rewrite main_restore_none by reflexivity.
      split; [|reflexivity]. intros _.
      split; [exists text; split; [reflexivity|exact Ht]|reflexivity].
Qed.

End Platform.

Import SetVersionScenario.

(** Two releases applied to a package file written on one line, then
    restored: the file comes back indented. *)
Lemma restore_undoes_apply_witness :
  run_all [(Some "apply", Some "v1.2.3"); (Some "apply", Some " 2.0.0 ");
           (Some "restore", None)] compact
  = ({| package_file := Some (JSON_format (JObject manifest) +:+ nl);
        backup_file := None |},
     [0%Z; 0%Z; 0%Z])
  /\ package_file compact <> Some (JSON_format (JObject manifest) +:+ nl)
  /\ Platform.JSON_parse (JSON_format (JObject manifest) +:+ nl)
     = Some (JObject manifest).
Proof.
  destruct (restore_undoes_apply trim Platform.JSON_parse JSON_format
              [Some "v1.2.3"; Some " 2.0.0 "] compact
              (Platform.JSON_stringify (JObject manifest)) manifest "0.0.0")
    as [Hrun Hdoc];
    [reflexivity|reflexivity|vm_compute; reflexivity|reflexivity
    |vm_compute; reflexivity|repeat constructor; vm_compute; reflexivity|].
  split; [exact Hrun|]. split; [vm_compute; discriminate|].
  apply Hdoc. vm_compute. reflexivity.
Defined.

(** [apply] on a package file that holds a number: the backup is
    written, then the assignment throws. *)
Lemma backup_before_exception :
  main (Some "apply") (Some "1.2.3") numeric
  = ({| package_file := Some "5"; backup_file := Some ("{}" +:+ nl) |}, 1%Z).
Proof. vm_compute. reflexivity. Qed.

Lemma script_follows_documents_witness :
  let fs := {| package_json := manifest; backup := None |} in
  holds Platform.JSON_parse
    (fst (main (Some "apply") (Some "v1.2.3") compact))
    (SetVersion.apply trim (Some "v1.2.3") fs)
  /\ snd (main (Some "apply") (Some "v1.2.3") compact) = 0%Z.
Proof.
  cbv zeta.
  refine (proj1 (script_follows_documents trim Platform.JSON_parse JSON_format
                   (Some "v1.2.3") compact
                   {| package_json := manifest; backup := None |} _) _ _).
  - split; [|reflexivity]. eexists. split; [reflexivity|vm_compute; reflexivity].
  - vm_compute. reflexivity.
  - intros v Hv. vm_compute in Hv. injection Hv as <-. vm_compute. reflexivity.
Defined.

End SetVersionScriptProps.

(** * A property of the README script *)
Module SetReadmeVersionProps.
Import SetReadmeVersion.
Section Platform.
Variable replaceAll : string -> string -> string -> string.

Abbreviation apply := (SetReadmeVersion.apply replaceAll).
Abbreviation apply_all := (SetReadmeVersion.apply_all replaceAll).
Abbreviation main := (SetReadmeVersion.main replaceAll).

Lemma apply_all_backup versions fs :
  readme_backup fs = None ->
  apply_all versions fs = fs
  \/ readme_backup (apply_all versions fs) = Some (readme fs).
Proof.
  intros Hb. induction versions as [|V versions IH] using rev_ind.
  - left. reflexivity.
  - unfold SetReadmeVersion.apply_all in *. rewrite fold_left_app.
    cbn [fold_left].
    set (prev := fold_left _ versions fs) in *.
    unfold SetReadmeVersion.apply.
    destruct V as [v|]; [|exact IH].
    destruct (nonempty v); [|exact IH]. cbn [negb fst readme_backup].
    right. destruct IH as [-> | ->]; [rewrite Hb|]; reflexivity.
Qed.

(** X26 (the README script): with no backup left over, any number
    of runs of the [apply] mode followed by one run of the [restore]
    mode leave the README exactly as it was and no backup behind; a
    run of [apply] without a version exits with code 2 and writes
    nothing, and a README that does not hold the link to the latest
    documentation is not changed by [apply]. *)
Theorem readme_restored (versions : list (option string)) (fs : Docs) :
  readme_backup fs = None ->
  main (Some "restore") None (apply_all versions fs) = (fs, 0%Z)
  /\ apply None fs = (fs, 2%Z)
  /\ apply (Some "") fs = (fs, 2%Z)
  /\ (forall version,
        includes DOCS_LATEST (readme fs) = false ->
        readme (fst (apply (Some version) fs)) = readme fs).
Proof.
  intros Hb. split; [|split; [reflexivity|split; [reflexivity|]]].
  - unfold SetReadmeVersion.main. cbn [String.eqb Ascii.eqb Bool.eqb].
    unfold restore.
    destruct (apply_all_backup versions fs Hb) as [-> | ->].
    + rewrite Hb. reflexivity.
    + destruct fs as [text b]. cbn in Hb. subst b. reflexivity.
  - intros version Hno. unfold SetReadmeVersion.apply.
    destruct (nonempty version); cbn [negb fst readme]; [|reflexivity].
    rewrite Hno. reflexivity.
Qed.

End Platform.

(** A replacement that is never consulted: the README holds no link. *)
Lemma readme_restored_witness :
  let fs := {| readme := "# Seclai"; readme_backup := None |} in
  main (fun _ _ text => text) (Some "restore") None
    (apply_all (fun _ _ text => text) [Some "1.2.3"; None; Some "2.0.0"] fs)
  = (fs, 0%Z).
Proof.
  exact (proj1 (readme_restored (fun _ _ text => text)
                  [Some "1.2.3"; None; Some "2.0.0"]
                  {| readme := "# Seclai"; readme_backup := None |} eq_refl)).
Defined.

End SetReadmeVersionProps.

